(** * Product matching engine: a shallow embedding of
      [ai_matching/product_matcher.py] and the properties of its scoring
      pipeline.

    Conventions of the embedding.
    - A Python [float] is an exact rational ([Q]); rounding, infinities and
      NaN are outside the model.  Numbers are compared with the boolean
      tests of [QArith], the way the source compares them.
    - A Python [str] is a [string] whose characters are the code points
      U+0000 to U+00FF; the character classes below are Python's on that
      range.
    - A statement that can raise runs in the [result] monad.
    - The sentence-embedding model, the cosine, the fuzzy ratio and the
      rendering of floats in f-strings are library code: they are the fields
      of a [Backend]. *)

From Stdlib Require Import ZArith QArith Qabs Qminmax Lqa Lia List String Ascii.
From Stdlib Require Import Sorting.Sorted.
From stdpp Require Import gmap strings list.

Open Scope string_scope.
Open Scope Q_scope.

(** ** Exceptions *)

Inductive exn : Type :=
| KeyError (key : string)
| ZeroDivisionError.

Inductive result (A : Type) : Type :=
| Ok (a : A)
| Raise (e : exn).

Arguments Ok {A} a.
Arguments Raise {A} e.

Definition bind {A B : Type} (r : result A) (k : A -> result B) : result B :=
  match r with
  | Ok a => k a
  | Raise e => Raise e
  end.

Notation "'do' x <- r ; k" := (bind r (fun x => k))
  (at level 10, x name, r at level 100, k at level 200).
Notation "'do' ' p <- r ; k" := (bind r (fun x => let 'p := x in k))
  (at level 10, p strict pattern, r at level 100, k at level 200).

(** [a / b] on floats. *)
Definition truediv (a b : Q) : result Q :=
  if Qeq_bool b 0 then Raise ZeroDivisionError else Ok (a / b).

(** ** Python's [str] *)

Module Str.

Definition code (c : ascii) : N := N_of_ascii c.

Definition between (lo hi : N) (c : ascii) : bool :=
  ((lo <=? code c) && (code c <=? hi))%N.

Definition is_code (n : N) (c : ascii) : bool := (code c =? n)%N.

(** [str.isspace], which is also the class [\s] of [re]. *)
Definition isspace (c : ascii) : bool :=
  between 9 13 c || between 28 32 c || is_code 133 c || is_code 160 c.

(** The class [\d] of [re]. *)
Definition isdecimal (c : ascii) : bool := between 48 57 c.

(** [str.isalnum]. *)
Definition isalnum (c : ascii) : bool :=
  between 48 57 c || between 65 90 c || between 97 122 c
  || is_code 170 c || is_code 178 c || is_code 179 c || is_code 181 c || is_code 185 c || is_code 186 c
  || between 188 190 c || between 192 214 c || between 216 246 c
  || between 248 255 c.

(** The class [\w] of [re]. *)
Definition isword (c : ascii) : bool := isalnum c || is_code 95 c.

Definition lower_char (c : ascii) : ascii :=
  if between 65 90 c || (between 192 222 c && negb (is_code 215 c))
  then ascii_of_N (code c + 32) else c.

(** [s.lower()] *)
Fixpoint lower (s : string) : string :=
  match s with
  | EmptyString => EmptyString
  | String c s' => String (lower_char c) (lower s')
  end.

(** [s.startswith(p)] *)
Definition startswith (p s : string) : bool := String.prefix p s.

(** [sub in s] *)
Fixpoint contains (sub s : string) : bool :=
  startswith sub s
  || match s with
     | EmptyString => false
     | String _ s' => contains sub s'
     end.

(** [s.replace(old, new)]: the occurrences of [old] are replaced from the
    left and do not overlap; [skip] counts the characters of an occurrence
    still to be dropped. *)
Fixpoint replace_from (old new : string) (skip : nat) (s : string) : string :=
  match s with
  | EmptyString => EmptyString
  | String c s' =>
      match skip with
      | S k => replace_from old new k s'
      | O =>
          if startswith old s
          then new ++ replace_from old new (String.length old - 1) s'
          else String c (replace_from old new 0 s')
      end
  end.

(** With an empty [old], Python inserts [new] before every character and at
    the end. *)
Fixpoint intersperse (new s : string) : string :=
  match s with
  | EmptyString => new
  | String c s' => new ++ String c (intersperse new s')
  end.

Definition replace (old new s : string) : string :=
  match old with
  | EmptyString => intersperse new s
  | String _ _ => replace_from old new 0 s
  end.

(** [s.split(sep)] for a one-character separator. *)
Fixpoint split_on (sep : ascii) (s : string) : list string :=
  match s with
  | EmptyString => [EmptyString]
  | String c s' =>
      if Ascii.eqb c sep then EmptyString :: split_on sep s'
      else match split_on sep s' with
           | p :: ps => String c p :: ps
           | [] => [String c EmptyString]
           end
  end.

Definition push_word (w : string) (ws : list string) : list string :=
  match w with
  | EmptyString => ws
  | String _ _ => w :: ws
  end.

(** The word being read and the words after it. *)
Fixpoint split_go (s : string) : string * list string :=
  match s with
  | EmptyString => (EmptyString, [])
  | String c s' =>
      let '(w, ws) := split_go s' in
      if isspace c then (EmptyString, push_word w ws) else (String c w, ws)
  end.

(** [s.split()] *)
Definition split (s : string) : list string :=
  let '(w, ws) := split_go s in push_word w ws.

Fixpoint lstrip (s : string) : string :=
  match s with
  | EmptyString => EmptyString
  | String c s' => if isspace c then lstrip s' else s
  end.

Fixpoint rstrip (s : string) : string :=
  match s with
  | EmptyString => EmptyString
  | String c s' =>
      match rstrip s' with
      | EmptyString => if isspace c then EmptyString else String c EmptyString
      | r => String c r
      end
  end.

(** [s.strip()] *)
Definition strip (s : string) : string := rstrip (lstrip s).

(** [sep.join(ws)] *)
Definition join (sep : string) (ws : list string) : string :=
  String.concat sep ws.

(** [re.sub(r'[^\w\s]', ' ', s)] *)
Fixpoint sub_nonword (s : string) : string :=
  match s with
  | EmptyString => EmptyString
  | String c s' =>
      String (if isword c || isspace c then c else " "%char) (sub_nonword s')
  end.

(** Truthiness of a [str]. *)
Definition truthy (s : string) : bool :=
  match s with EmptyString => false | String _ _ => true end.

(** [float(s)] for [s] matched by [\d+(?:\.\d+)?]. *)
Definition digit_value (c : ascii) : Z := Z.of_N (code c - 48).

Fixpoint digits_value (acc : Z) (s : string) : Z :=
  match s with
  | EmptyString => acc
  | String c s' => digits_value (10 * acc + digit_value c) s'
  end.

Fixpoint float_go (acc : Z) (s : string) : Q :=
  match s with
  | EmptyString => inject_Z acc
  | String c s' =>
      if is_code 46 c
      then inject_Z acc
           + inject_Z (digits_value 0 s') / inject_Z (10 ^ Z.of_nat (String.length s'))
      else float_go (10 * acc + digit_value c) s'
  end.

Definition float (s : string) : Q := float_go 0 s.

End Str.

(** ** The size pattern

    [(\d+(?:\.\d+)?)\s*(kg|g|gm|lb|oz|ml|l|pcs?|each)] with [re.IGNORECASE],
    matched the way [re] matches: greedy repetitions that give characters
    back one at a time, alternatives tried from left to right. *)

Module SizePattern.

(** A match: groups 1 and 2 and the text between them. *)
Record t : Type := mk { number : string; gap : string; unit_text : string }.

Definition group0 (m : t) : string := number m ++ gap m ++ unit_text m.

(** The alternatives of group 2, in the order [re] tries them
    ([pcs?] tries [pcs] before [pc]). *)
Definition unit_alternatives : list string :=
  ["kg"; "g"; "gm"; "lb"; "oz"; "ml"; "l"; "pcs"; "pc"; "each"].

(** The first [n] characters of [s], when [p] matches them ignoring case. *)
Fixpoint literal (p s : string) : option string :=
  match p, s with
  | EmptyString, _ => Some EmptyString
  | String _ _, EmptyString => None
  | String a p', String c s' =>
      if Ascii.eqb (Str.lower_char c) a
      then option_map (String c) (literal p' s')
      else None
  end.

Fixpoint first_alternative (alts : list string) (s : string) : option string :=
  match alts with
  | [] => None
  | a :: alts' =>
      match literal a s with
      | Some u => Some u
      | None => first_alternative alts' s
      end
  end.

Definition match_unit (s : string) : option string :=
  first_alternative unit_alternatives s.

(** [cls*] followed by [k]: the longest run first. *)
Fixpoint star {A : Type} (cls : ascii -> bool) (k : string -> option A)
    (s : string) : option (string * A) :=
  match s with
  | EmptyString => option_map (pair EmptyString) (k s)
  | String c s' =>
      if cls c
      then match star cls k s' with
           | Some (run, a) => Some (String c run, a)
           | None => option_map (pair EmptyString) (k s)
           end
      else option_map (pair EmptyString) (k s)
  end.

(** [cls+] followed by [k]. *)
Definition plus {A : Type} (cls : ascii -> bool) (k : string -> option A)
    (s : string) : option (string * A) :=
  match s with
  | EmptyString => None
  | String c s' =>
      if cls c
      then option_map (fun '(run, a) => (String c run, a)) (star cls k s')
      else None
  end.

(** [\s*(kg|...)] *)
Definition gap_unit (s : string) : option (string * string) :=
  star Str.isspace match_unit s.

(** [(?:\.\d+)?\s*(kg|...)]: the fraction is tried first. *)
Definition fraction_gap_unit (s : string) : option (string * (string * string)) :=
  let with_fraction :=
    match s with
    | String c s' =>
        if Str.is_code 46 c
        then option_map (fun '(ds, gu) => (String c ds, gu))
               (plus Str.isdecimal gap_unit s')
        else None
    | EmptyString => None
    end in
  match with_fraction with
  | Some r => Some r
  | None => option_map (pair EmptyString) (gap_unit s)
  end.

(** The pattern anchored at the start of [s]. *)
Definition match_here (s : string) : option t :=
  option_map (fun '(ds, (fr, (g, u))) => mk (ds ++ fr) g u)
    (plus Str.isdecimal fraction_gap_unit s).

(** [size_pattern.search(s)]: the leftmost start that matches. *)
Fixpoint search (s : string) : option t :=
  match match_here s with
  | Some m => Some m
  | None =>
      match s with
      | EmptyString => None
      | String _ s' => search s'
      end
  end.

End SizePattern.

(** ** Lists: [list.sort] and slices *)

Module Py.

Section Sort.
Context {A : Type} (ltb : A -> A -> bool).

(** [x] stood before every element of [l]: it goes behind the elements
    that are strictly greater, and before its equals. *)
Fixpoint insert_desc (x : A) (l : list A) : list A :=
  match l with
  | [] => [x]
  | y :: l' => if ltb x y then y :: insert_desc x l' else x :: l
  end.

(** [l.sort(reverse=True)]: descending and stable. *)
Definition sort_reverse (l : list A) : list A :=
  fold_right insert_desc [] l.

(** [x] is not below [y]. *)
Definition not_below (x y : A) : Prop := ltb x y = false.

(** [x] and [y] compare equal. *)
Definition tiedb (x y : A) : bool := negb (ltb x y) && negb (ltb y x).
End Sort.

(** [l[:n]] *)
Definition slice_to {A : Type} (n : Z) (l : list A) : list A :=
  if (0 <=? n)%Z then firstn (Z.to_nat n) l
  else firstn (length l - Z.to_nat (- n)) l.

(** [l.append(x)] *)
Definition append {A : Type} (l : list A) (x : A) : list A := (l ++ [x])%list.

Definition Qltb (x y : Q) : bool :=
  match x ?= y with Lt => true | _ => false end.

End Py.

(** ** Data model *)

Module SizeInfo.
Record t : Type := mk {
  value : Q;
  unit : string;
  unit_type : string;
  original : string }.
End SizeInfo.

Module ProductMatch.
Record t : Type := mk {
  primary_id : Z;
  matched_id : Z;
  confidence : Q;
  match_type : string;
  size_similarity : Q;
  warnings : list string }.
End ProductMatch.

(** A product is a dict; the matcher reads the keys ['id'], ['name'] and
    ['price'], each of which may be absent. *)
Record Product : Type := {
  p_id : option Z;
  p_name : option string;
  p_price : option Q }.

Definition getitem_name (p : Product) : result string :=
  match p_name p with
  | Some n => Ok n
  | None => Raise (KeyError "name")
  end.

Definition getitem_id (p : Product) : result Z :=
  match p_id p with
  | Some i => Ok i
  | None => Raise (KeyError "id")
  end.

(** Truthiness of [p.get('price')]. *)
Definition price_truthy (p : Product) : bool :=
  match p_price p with
  | Some x => negb (Qeq_bool x 0)
  | None => false
  end.

Definition price_of (p : Product) : Q :=
  match p_price p with Some x => x | None => 0 end.

(** An entry of [classifications.json]. *)
Record Category : Type := {
  cat_type : string;
  cat_subtype : option string;
  cat_keywords : list string }.

(** An entry of [synonyms.json]. *)
Record SynGroup : Type := {
  syn_canonical : option string;
  syn_terms : list string }.

(** The configuration documents, absent tables being empty. *)
Record Config : Type := {
  cfg_categories : list Category;
  cfg_strict_category_matching : list string;
  cfg_incompatible_categories : list (list string);
  cfg_pairs : list (list string);
  cfg_penalty_multipliers : gmap string Q;
  cfg_groups : list SynGroup;
  cfg_known_brands : list string }.

(** The matcher object.  [brand_set] lists the set of brands in the order
    in which Python iterates over it. *)
Record ProductMatcher : Type := {
  categories : list Category;
  groups : list SynGroup;
  forbidden_pairs : gset (string * string);
  forbidden_patterns : list (string * string);
  brand_set : list string;
  strict_categories : gset string;
  incompatible_categories : list (list string);
  penalty_multipliers : gmap string Q }.

(** Library code the matcher calls. *)
Record Backend : Type := {
  embedding : Type;
  model_encode : string -> embedding;
  cosine_similarity : embedding -> embedding -> Q;
  token_sort_ratio : string -> string -> Z;
  format_2f : Q -> string;
  format_1f : Q -> string;
  format_float : Q -> string }.

(** ** Construction *)

Definition has_special (s : string) : bool :=
  Str.contains "|" s || Str.contains ":" s.

Fixpoint _parse_forbidden_rules (pairs : list (list string))
    (acc : gset (string * string) * list (string * string))
    : gset (string * string) * list (string * string) :=
  match pairs with
  | [] => acc
  | entry :: rest =>
      let '(fpairs, fpatterns) := acc in
      _parse_forbidden_rules rest
        match entry with
        | [a; b] =>
            if has_special (a ++ b)
            then (fpairs, Py.append fpatterns (a, b))
            else ({[ (b, a) ]} ∪ ({[ (a, b) ]} ∪ fpairs), fpatterns)
        | _ => acc
        end
  end.

(** The brands are a Python [set]; its iteration order is not fixed by the
    language, and the model lists the brands in the order of the file. *)
Definition init (cfg : Config) : ProductMatcher :=
  let '(fpairs, fpatterns) := _parse_forbidden_rules (cfg_pairs cfg) (∅, []) in
  {| categories := cfg_categories cfg;
     groups := cfg_groups cfg;
     forbidden_pairs := fpairs;
     forbidden_patterns := fpatterns;
     brand_set := remove_dups (cfg_known_brands cfg);
     strict_categories := list_to_set (cfg_strict_category_matching cfg);
     incompatible_categories := cfg_incompatible_categories cfg;
     penalty_multipliers := cfg_penalty_multipliers cfg |}.

(** ** Classification *)

Section Matcher.
Variable self : ProductMatcher.

Fixpoint apply_terms (canonical : string) (terms : list string)
    (name_lower : string) : string :=
  match terms with
  | [] => name_lower
  | syn :: rest =>
      apply_terms canonical rest
        (if Str.contains (Str.lower syn) name_lower
         then Str.replace (Str.lower syn) (Str.lower canonical) name_lower
         else name_lower)
  end.

Fixpoint apply_synonyms (gs : list SynGroup) (name_lower : string) : string :=
  match gs with
  | [] => name_lower
  | g :: rest =>
      apply_synonyms rest
        (apply_terms (default EmptyString (syn_canonical g)) (syn_terms g) name_lower)
  end.

(** The tuples of [matches]: priority, type, subtype, keyword. *)
Definition candidate_tuple : Type := (nat * string * string * string)%type.

(** The first keyword of the category that occurs in the name. *)
Definition first_keyword (name_lower : string) (c : Category) : option string :=
  List.find (fun keyword => Str.contains (Str.lower keyword) name_lower)
    (cat_keywords c).

(** The tuple appended to [matches] for a category one of whose keywords
    occurs in the name. *)
Definition tuple_of (c : Category) (keyword : string) : candidate_tuple :=
  (length (cat_keywords c), cat_type c,
   default "generic" (cat_subtype c), keyword).

Fixpoint collect_matches (cs : list Category) (name_lower : string)
    : list candidate_tuple :=
  match cs with
  | [] => []
  | c :: rest =>
      match first_keyword name_lower c with
      | Some keyword => tuple_of c keyword :: collect_matches rest name_lower
      | None => collect_matches rest name_lower
      end
  end.

(** [<] on the tuples: the first component that differs decides. *)
Definition tuple_ltb (x y : candidate_tuple) : bool :=
  let '(p1, t1, s1, k1) := x in
  let '(p2, t2, s2, k2) := y in
  if negb (p1 =? p2)%nat then (p1 <? p2)%nat
  else if negb (String.eqb t1 t2) then String.ltb t1 t2
  else if negb (String.eqb s1 s2) then String.ltb s1 s2
  else String.ltb k1 k2.

Definition classify_product (name : string) : string * string :=
  let name_lower := apply_synonyms (groups self) (Str.lower name) in
  let matches := collect_matches (categories self) name_lower in
  match Py.sort_reverse tuple_ltb matches with
  | (_, ty, subtype, _) :: _ => (ty, subtype)
  | [] => ("other", "generic")
  end.

(** ** Sizes *)

Definition conversions : gmap string (Q * string * string) :=
  list_to_map
    [ ("kg", (1000, "g", "weight"));
      ("lb", (453.6, "g", "weight"));
      ("oz", (28.35, "g", "weight"));
      ("l", (1000, "ml", "volume"));
      ("g", (1, "g", "weight"));
      ("gm", (1, "g", "weight"));
      ("ml", (1, "ml", "volume"));
      ("pcs", (1, "pcs", "count"));
      ("each", (1, "each", "count")) ].

Definition extract_size (name : string) : SizeInfo.t :=
  match SizePattern.search name with
  | None => SizeInfo.mk 0 EmptyString "unknown" EmptyString
  | Some m =>
      let value := Str.float (SizePattern.number m) in
      let unit := Str.lower (SizePattern.unit_text m) in
      match conversions !! unit with
      | Some (factor, base_unit, unit_type) =>
          SizeInfo.mk (value * factor) base_unit unit_type (SizePattern.group0 m)
      | None => SizeInfo.mk value unit "unknown" (SizePattern.group0 m)
      end
  end.

Definition calculate_size_similarity (size1 size2 : SizeInfo.t) : result Q :=
  if negb (String.eqb (SizeInfo.unit_type size1) (SizeInfo.unit_type size2))
  then
    if String.eqb (SizeInfo.unit_type size1) "unknown"
       || String.eqb (SizeInfo.unit_type size2) "unknown"
    then Ok 0.3
    else Ok 0.1
  else if Qeq_bool (SizeInfo.value size1) 0 || Qeq_bool (SizeInfo.value size2) 0
  then Ok 0.5
  else
    do ratio <- truediv (Qmin (SizeInfo.value size1) (SizeInfo.value size2))
                        (Qmax (SizeInfo.value size1) (SizeInfo.value size2));
    if Py.Qltb (Qabs (ratio - 1.0)) 0.02 then Ok 1.0
    else if Py.Qltb ratio 0.5 then Ok (ratio * 0.3)
    else if Py.Qltb ratio 0.75 then Ok (ratio * 0.6)
    else Ok ratio.

Definition stop_words : gset string :=
  {[ "the"; "and"; "or"; "of"; "in"; "with"; "for"; "pure"; "organic";
     "fresh"; "premium" ]}.

Definition normalize_name (name : string) : string :=
  let size_info := extract_size name in
  let name :=
    if Str.truthy (SizeInfo.original size_info)
    then Str.replace (SizeInfo.original size_info) EmptyString name
    else name in
  let name := Str.strip (Str.lower name) in
  let name := Str.sub_nonword name in
  let words :=
    List.filter (fun w => negb (bool_decide (w ∈ stop_words))) (Str.split name) in
  Str.join " " words.
End Matcher.

(** ** The forbidden-match rule engine *)

Section Engine.
Variable self : ProductMatcher.
Variable B : Backend.

(** [None], which the source returns for a [':'] pattern that does not
    split in two, is falsy: it is [false] here. *)
Definition _matches_pattern (pattern name type_ subtype : string) : bool :=
  if Str.contains ":" pattern then
    match Str.split_on ":" pattern with
    | [part0; part1] => String.eqb part0 type_ && String.eqb part1 subtype
    | _ => false
    end
  else if Str.contains "|" pattern then
    existsb (fun opt => Str.contains opt name) (Str.split_on "|" pattern)
  else Str.contains pattern name.

(** One turn of the loop over [forbidden_patterns]: does it return [True]? *)
Definition pattern_hits (name1_lower name2_lower type1 subtype1 type2 subtype2 : string)
    (pattern : string * string) : bool :=
  let '(pattern1, pattern2) := pattern in
  if Str.contains ":" pattern1 then
    match Str.split_on ":" pattern1 with
    | [part0; part1] =>
        String.eqb part0 type1 && String.eqb part1 subtype1
        && _matches_pattern pattern2 name2_lower type2 subtype2
    | _ => false
    end
  else if Str.contains "|" pattern1 then
    let options1 := Str.split_on "|" pattern1 in
    let options2 :=
      if Str.contains "|" pattern2 then Str.split_on "|" pattern2
      else [pattern2] in
    existsb (fun opt1 => Str.contains opt1 name1_lower) options1
    && existsb (fun opt2 => Str.contains opt2 name2_lower) options2
  else
    (Str.contains pattern1 name1_lower && Str.contains pattern2 name2_lower)
    || (Str.contains pattern2 name1_lower && Str.contains pattern1 name2_lower).

Definition _check_forbidden_patterns
    (name1 name2 type1 subtype1 type2 subtype2 : string) : bool :=
  let name1_lower := Str.lower name1 in
  let name2_lower := Str.lower name2 in
  existsb (pattern_hits name1_lower name2_lower type1 subtype1 type2 subtype2)
    (forbidden_patterns self).

(** The first pair of [incompatible_categories] that forbids the match. *)
Definition incompatible_hit (type1 subtype1 type2 subtype2 : string)
    : option (string * string) :=
  let full1 := type1 ++ ":" ++ subtype1 in
  let full2 := type2 ++ ":" ++ subtype2 in
  let hit (incompat_pair : list string) : option (string * string) :=
    match incompat_pair with
    | [cat1; cat2] =>
        if (String.eqb full1 cat1 && String.eqb full2 cat2)
           || (String.eqb full1 cat2 && String.eqb full2 cat1)
           || (String.eqb type1 cat1 && String.eqb type2 cat2)
           || (String.eqb type1 cat2 && String.eqb type2 cat1)
        then Some (cat1, cat2) else None
    | _ => None
    end in
  List.fold_right
    (fun incompat_pair later =>
       match hit incompat_pair with Some h => Some h | None => later end)
    None (incompatible_categories self).

Definition baking_spices : list string :=
  ["cumin"; "coriander"; "turmeric"; "chili"; "masala"].

Definition spices : list string :=
  ["amchur"; "anardana"; "cumin"; "coriander"; "turmeric"; "chili"].

(** [next((s for s in spices if s in name), None)] *)
Definition first_spice (name_lower : string) : option string :=
  List.find (fun s => Str.contains s name_lower) spices.

Definition different_spices (name1_lower name2_lower : string)
    : option (string * string) :=
  match first_spice name1_lower, first_spice name2_lower with
  | Some spice1, Some spice2 =>
      if Str.truthy spice1 && Str.truthy spice2
         && negb (String.eqb spice1 spice2)
      then Some (spice1, spice2) else None
  | _, _ => None
  end.

Definition is_forbidden_match (primary candidate : Product)
    (type1 subtype1 type2 subtype2 : string) : result (bool * string) :=
  let full1 := type1 ++ ":" ++ subtype1 in
  let full2 := type2 ++ ":" ++ subtype2 in
  if bool_decide ((full1, full2) ∈ forbidden_pairs self) then
    Ok (true, "Forbidden type combination: " ++ full1 ++ " vs " ++ full2)
  else if bool_decide ((type1, type2) ∈ forbidden_pairs self) then
    Ok (true, "Forbidden type combination: " ++ type1 ++ " vs " ++ type2)
  else
    do name1 <- getitem_name primary;
    do name2 <- getitem_name candidate;
    if _check_forbidden_patterns name1 name2 type1 subtype1 type2 subtype2 then
      Ok (true, "Matches forbidden pattern")
    else
      match incompatible_hit type1 subtype1 type2 subtype2 with
      | Some (cat1, cat2) =>
          Ok (true, "Incompatible categories: " ++ cat1 ++ " vs " ++ cat2)
      | None =>
          let name1_lower := Str.lower name1 in
          let name2_lower := Str.lower name2 in
          let spicy name :=
            existsb (fun spice => Str.contains spice name) baking_spices in
          if (Str.contains "baking powder" name1_lower && spicy name2_lower)
             || (Str.contains "baking powder" name2_lower && spicy name1_lower)
          then Ok (true, "Baking powder cannot match with spices")
          else
            match different_spices name1_lower name2_lower with
            | Some (spice1, spice2) =>
                Ok (true, "Different spices: " ++ spice1 ++ " vs " ++ spice2)
            | None =>
                if (Str.contains "coconut" name1_lower
                    && Str.contains "curry" name2_lower)
                   || (Str.contains "curry" name1_lower
                       && Str.contains "coconut" name2_lower)
                then Ok (true, "Coconut products cannot match with curry products")
                else Ok (false, EmptyString)
            end
      end.

(** ** Hybrid similarity *)

Definition _extract_brand (name : string) : option string :=
  let name_words := Str.split (Str.lower name) in
  List.find
    (fun brand =>
       let brand_lower := Str.lower brand in
       existsb (String.eqb brand_lower) name_words
       || Str.contains brand_lower (Str.lower name))
    (brand_set self).

(** Truthiness and [==] on [Optional[str]]. *)
Definition opt_truthy (o : option string) : bool :=
  match o with Some s => Str.truthy s | None => false end.

Definition opt_eqb (o1 o2 : option string) : bool :=
  match o1, o2 with
  | Some s1, Some s2 => String.eqb s1 s2
  | None, None => true
  | _, _ => false
  end.

Definition calculate_hybrid_similarity (name1 name2 : string) : Q :=
  let norm1 := normalize_name name1 in
  let norm2 := normalize_name name2 in
  if negb (Str.truthy norm1) || negb (Str.truthy norm2) then 0.0
  else
    let words1 : gset string := list_to_set (Str.split norm1) in
    let words2 : gset string := list_to_set (Str.split norm2) in
    let common_words := words1 ∩ words2 in
    if (size common_words =? 0)%nat then 0.1
    else
      let semantic_sim :=
        cosine_similarity B (model_encode B norm1) (model_encode B norm2) in
      let fuzzy_sim := inject_Z (token_sort_ratio B norm1 norm2) / 100.0 in
      let hybrid_score := semantic_sim * 0.4 + fuzzy_sim * 0.6 in
      let brand1 := _extract_brand name1 in
      let brand2 := _extract_brand name2 in
      if opt_truthy brand1 && opt_eqb brand1 brand2
      then Qmin (hybrid_score + 0.1) 1.0
      else if opt_truthy brand1 && opt_truthy brand2
              && negb (opt_eqb brand1 brand2)
      then hybrid_score * 0.85
      else hybrid_score.

(** ** Confidence *)

(** The score and the warnings as they stand between two steps. *)
Definition running : Type := (Q * list string)%type.

Definition warn (st : running) (factor : Q) (w : string) : running :=
  (fst st * factor, Py.append (snd st) w).

(** "Apply category penalties". *)
Definition category_step (p_type p_subtype c_type c_subtype : string)
    (st : running) : running :=
  if negb (String.eqb p_type c_type) then
    let penalty_key := "different_" ++ p_type ++ "_vs_" ++ c_type in
    warn st
      match penalty_multipliers self !! penalty_key with
      | Some multiplier => multiplier
      | None => 0.5
      end
      ("Type mismatch: " ++ p_type ++ " vs " ++ c_type)
  else if negb (String.eqb p_subtype c_subtype) then
    if bool_decide (p_type ++ ":" ++ p_subtype ∈ strict_categories self)
       || bool_decide (c_type ++ ":" ++ c_subtype ∈ strict_categories self)
    then warn st 0.3
           ("Strict subtype mismatch: " ++ p_subtype ++ " vs " ++ c_subtype)
    else warn st 0.7
           ("Subtype mismatch: " ++ p_subtype ++ " vs " ++ c_subtype)
  else (Qmin (fst st + 0.15) 1.0, snd st).

Definition size_text (p_size c_size : SizeInfo.t) : string :=
  format_float B (SizeInfo.value p_size) ++ SizeInfo.unit p_size ++ " vs "
  ++ format_float B (SizeInfo.value c_size) ++ SizeInfo.unit c_size.

(** "Apply size penalties". *)
Definition size_step (p_size c_size : SizeInfo.t) (size_sim : Q)
    (st : running) : running :=
  if Py.Qltb size_sim 0.5 then
    warn st 0.5 ("Significant size mismatch: " ++ size_text p_size c_size)
  else if Py.Qltb size_sim 0.75 then
    warn st 0.8 ("Size difference: " ++ size_text p_size c_size)
  else if Py.Qltb 0.95 size_sim then (Qmin (fst st + 0.05) 1.0, snd st)
  else st.

(** "Price sanity check". *)
Definition price_step (primary candidate : Product) (st : running)
    : result running :=
  if price_truthy primary && price_truthy candidate then
    do price_ratio <-
      truediv (Qmax (price_of primary) (price_of candidate))
              (Qmin (price_of primary) (price_of candidate));
    if Py.Qltb 10 price_ratio then
      Ok (warn st 0.6
            ("Large price difference: " ++ format_1f B price_ratio ++ "x"))
    else if Py.Qltb 5 price_ratio then
      Ok (warn st 0.8 ("Price difference: " ++ format_1f B price_ratio ++ "x"))
    else Ok st
  else Ok st.

Definition unit_words : gset string :=
  {[ "g"; "kg"; "ml"; "l"; "oz"; "lb" ]}.

(** "Extra validation for borderline matches". *)
Definition borderline_step (name_p name_c : string) (st : running) : running :=
  if Py.Qltb 0.6 (fst st) && Py.Qltb (fst st) 0.75 then
    let st :=
      if (2 <? length (snd st))%nat then (fst st * 0.8, snd st) else st in
    let name_words1 : gset string := list_to_set (Str.split (Str.lower name_p)) in
    let name_words2 : gset string := list_to_set (Str.split (Str.lower name_c)) in
    let common_meaningful := name_words1 ∩ (name_words2 ∖ unit_words) in
    if (size common_meaningful <? 2)%nat
    then warn st 0.7 "Insufficient common meaningful words"
    else st
  else st.

Definition calculate_confidence (primary candidate : Product)
    : result (Q * list string) :=
  let warnings : list string := [] in
  do name_p <- getitem_name primary;
  let '(p_type, p_subtype) := classify_product self name_p in
  do name_c <- getitem_name candidate;
  let '(c_type, c_subtype) := classify_product self name_c in
  do verdict <-
    is_forbidden_match primary candidate p_type p_subtype c_type c_subtype;
  let '(is_forbidden, reason) := verdict in
  if is_forbidden then Ok (0.0, Py.append warnings reason)
  else
    let base_score := calculate_hybrid_similarity name_p name_c in
    if Py.Qltb base_score 0.3 then
      Ok (0.0,
          Py.append warnings
            ("Very low name similarity: " ++ format_2f B base_score))
    else
      let st := category_step p_type p_subtype c_type c_subtype
                  (base_score, warnings) in
      let p_size := extract_size name_p in
      let c_size := extract_size name_c in
      do size_sim <- calculate_size_similarity p_size c_size;
      let st := size_step p_size c_size size_sim st in
      do st <- price_step primary candidate st;
      let st := borderline_step name_p name_c st in
      Ok (Qmin (Qmax (fst st) 0.0) 1.0, snd st).

(** ** Finding matches *)

Definition match_type_of (confidence : Q) : string :=
  if Qle_bool 0.9 confidence then "exact"
  else if Qle_bool 0.75 confidence then "similar"
  else "substitute".

(** The loop over [candidates]; [matches.append] keeps their order. *)
Fixpoint scan_candidates (primary : Product) (candidates : list Product)
    (min_confidence : Q) : result (list ProductMatch.t) :=
  match candidates with
  | [] => Ok []
  | candidate :: rest =>
      do cid <- getitem_id candidate;
      do pid <- getitem_id primary;
      if (cid =? pid)%Z then scan_candidates primary rest min_confidence
      else
        do scored <- calculate_confidence primary candidate;
        let '(confidence, warnings) := scored in
        if Qle_bool min_confidence confidence then
          do name_p <- getitem_name primary;
          do name_c <- getitem_name candidate;
          do size_sim <-
            calculate_size_similarity (extract_size name_p) (extract_size name_c);
          do pid' <- getitem_id primary;
          do cid' <- getitem_id candidate;
          do later <- scan_candidates primary rest min_confidence;
          Ok (ProductMatch.mk pid' cid' confidence (match_type_of confidence)
                size_sim warnings :: later)
        else scan_candidates primary rest min_confidence
  end.

Definition confidence_ltb (m1 m2 : ProductMatch.t) : bool :=
  Py.Qltb (ProductMatch.confidence m1) (ProductMatch.confidence m2).

Definition find_matches (primary : Product) (candidates : list Product)
    (min_confidence : Q) (max_matches : Z) : result (list ProductMatch.t) :=
  do matches <- scan_candidates primary candidates min_confidence;
  Ok (Py.slice_to max_matches (Py.sort_reverse confidence_ltb matches)).

Fixpoint batch_match (primaries : list Product) (candidates : list Product)
    (min_confidence : Q) : result (list ProductMatch.t) :=
  match primaries with
  | [] => Ok []
  | primary :: rest =>
      do matches <- find_matches primary candidates min_confidence 3;
      do later <- batch_match rest candidates min_confidence;
      Ok (matches ++ later)%list
  end.
End Engine.

(** ** Specification-side definitions *)

(** The score of a magnitude ratio, as [calculate_size_similarity] computes
    it once units and zero values are out of the way. *)
Definition ratio_score (ratio : Q) : Q :=
  if Py.Qltb (Qabs (ratio - 1.0)) 0.02 then 1.0
  else if Py.Qltb ratio 0.5 then ratio * 0.3
  else if Py.Qltb ratio 0.75 then ratio * 0.6
  else ratio.

Definition magnitude_ratio (a b : SizeInfo.t) : Q :=
  Qmin (SizeInfo.value a) (SizeInfo.value b)
  / Qmax (SizeInfo.value a) (SizeInfo.value b).

(** The cases of the size-similarity contract, as the specification words
    them. *)
Inductive size_similarity_case (a b : SizeInfo.t) : Q -> Prop :=
| case_unknown_unit :
    SizeInfo.unit_type a <> SizeInfo.unit_type b ->
    SizeInfo.unit_type a = "unknown" \/ SizeInfo.unit_type b = "unknown" ->
    size_similarity_case a b 0.3
| case_different_unit :
    SizeInfo.unit_type a <> SizeInfo.unit_type b ->
    SizeInfo.unit_type a <> "unknown" -> SizeInfo.unit_type b <> "unknown" ->
    size_similarity_case a b 0.1
| case_zero_value :
    SizeInfo.unit_type a = SizeInfo.unit_type b ->
    SizeInfo.value a == 0 \/ SizeInfo.value b == 0 ->
    size_similarity_case a b 0.5
| case_exact_band :
    SizeInfo.unit_type a = SizeInfo.unit_type b ->
    ~ SizeInfo.value a == 0 -> ~ SizeInfo.value b == 0 ->
    Qabs (magnitude_ratio a b - 1) < 0.02 ->
    size_similarity_case a b 1.0
| case_below_half :
    SizeInfo.unit_type a = SizeInfo.unit_type b ->
    ~ SizeInfo.value a == 0 -> ~ SizeInfo.value b == 0 ->
    ~ Qabs (magnitude_ratio a b - 1) < 0.02 ->
    magnitude_ratio a b < 0.5 ->
    size_similarity_case a b (magnitude_ratio a b * 0.3)
| case_below_three_quarters :
    SizeInfo.unit_type a = SizeInfo.unit_type b ->
    ~ SizeInfo.value a == 0 -> ~ SizeInfo.value b == 0 ->
    ~ Qabs (magnitude_ratio a b - 1) < 0.02 ->
    ~ magnitude_ratio a b < 0.5 ->
    magnitude_ratio a b < 0.75 ->
    size_similarity_case a b (magnitude_ratio a b * 0.6)
| case_close :
    SizeInfo.unit_type a = SizeInfo.unit_type b ->
    ~ SizeInfo.value a == 0 -> ~ SizeInfo.value b == 0 ->
    ~ Qabs (magnitude_ratio a b - 1) < 0.02 ->
    ~ magnitude_ratio a b < 0.5 ->
    ~ magnitude_ratio a b < 0.75 ->
    size_similarity_case a b (magnitude_ratio a b).

(** The name the keywords are looked up in. *)
Definition working_name (self : ProductMatcher) (name : string) : string :=
  apply_synonyms (groups self) (Str.lower name).

(** The classifier as the specification words it: of the candidates, the
    one with the highest priority, the earliest declared winning a tie. *)
Fixpoint earliest_highest_priority (ms : list candidate_tuple)
    : option candidate_tuple :=
  match ms with
  | [] => None
  | m :: rest =>
      match earliest_highest_priority rest with
      | Some best =>
          if (fst (fst (fst m)) <? fst (fst (fst best)))%nat
          then Some best else Some m
      | None => Some m
      end
  end.

Definition classify_product_spec (self : ProductMatcher) (name : string)
    : string * string :=
  match earliest_highest_priority
          (collect_matches (categories self) (working_name self name)) with
  | Some (_, ty, subtype, _) => (ty, subtype)
  | None => ("other", "generic")
  end.

(** Comparison of the tuples, component by component. *)
Definition lex (c1 c2 : comparison) : comparison :=
  match c1 with Eq => c2 | _ => c1 end.

Definition pair_compare {A B : Type} (cmpA : A -> A -> comparison)
    (cmpB : B -> B -> comparison) (x y : A * B) : comparison :=
  lex (cmpA (fst x) (fst y)) (cmpB (snd x) (snd y)).

Definition tuple_compare : candidate_tuple -> candidate_tuple -> comparison :=
  pair_compare
    (pair_compare (pair_compare Nat.compare String.compare) String.compare)
    String.compare.

(** What it takes for a three-way comparison to be a strict total order. *)
Record strict_order {A : Type} (cmp : A -> A -> comparison) : Prop := {
  cmp_eq : forall x y, cmp x y = Eq <-> x = y;
  cmp_antisym : forall x y, cmp y x = CompOpp (cmp x y);
  cmp_trans : forall x y z, cmp x y = Lt -> cmp y z = Lt -> cmp x z = Lt }.

(** A product record that carries the keys the matcher cannot do without. *)
Definition well_formed (p : Product) : bool :=
  match p_id p, p_name p with
  | Some _, Some _ => true
  | _, _ => false
  end.

(** The entries of a result list whose confidence equals [q]. *)
Definition with_confidence (q : Q) (ms : list ProductMatch.t) : list ProductMatch.t :=
  List.filter (fun m => Qeq_bool (ProductMatch.confidence m) q) ms.

(** Names with a number and a unit token. *)
Fixpoint all_chars (cls : ascii -> bool) (s : string) : bool :=
  match s with
  | EmptyString => true
  | String c s' => cls c && all_chars cls s'
  end.

(** The first character of [s], if any, is outside the class. *)
Definition stops (cls : ascii -> bool) (s : string) : Prop :=
  match s with
  | EmptyString => True
  | String c _ => cls c = false
  end.

(** One digit or more. *)
Definition digits (s : string) : bool :=
  Str.truthy s && all_chars Str.isdecimal s.

(** The text of a number: a whole part and maybe a fraction. *)
Definition decimal (whole : string) (fraction : option string) : string :=
  whole ++ match fraction with
           | Some f => String "."%char f
           | None => EmptyString
           end.

Definition well_formed_decimal (whole : string) (fraction : option string) : bool :=
  digits whole && match fraction with Some f => digits f | None => true end.

(** The size pattern matches at no position of [pre] in [pre ++ s]: the
    first number and unit token of [pre ++ s], if any, starts in [s]. *)
Fixpoint no_match_before (pre s : string) : bool :=
  match pre with
  | EmptyString => true
  | String _ pre' =>
      match SizePattern.match_here (pre ++ s) with
      | Some _ => false
      | None => no_match_before pre' s
      end
  end.

(** ** Sample data *)

Definition grams (v : Q) : SizeInfo.t := SizeInfo.mk v "g" "weight" EmptyString.

(** A backend that tells identical texts from different ones and nothing
    more. *)
Definition sample_backend : Backend :=
  {| embedding := string;
     model_encode := fun s => s;
     cosine_similarity := fun a b => if String.eqb a b then 1 else 0.5;
     token_sort_ratio := fun a b => if String.eqb a b then 100%Z else 50%Z;
     format_2f := fun _ => "0.00";
     format_1f := fun _ => "0.0";
     format_float := fun _ => "0.0" |}.

(** [fuzzywuzzy] computes its ratio with [difflib.SequenceMatcher] when
    [python-Levenshtein] is not installed, and that ratio depends on the
    order of its two arguments.  A backend with the values it gives for the
    normalized names "badshah garam masala" and "everest chicken masala"
    (whose sorted tokens are "chicken everest masala"): 38 in that order, 48
    in the other. *)
Definition difflib_backend : Backend :=
  {| embedding := string;
     model_encode := fun s => s;
     cosine_similarity := fun a b => if String.eqb a b then 1 else 0.5;
     token_sort_ratio := fun a b =>
       if String.eqb a b then 100%Z
       else if String.eqb a "badshah garam masala"
               && String.eqb b "everest chicken masala" then 38%Z
       else if String.eqb a "everest chicken masala"
               && String.eqb b "badshah garam masala" then 48%Z
       else 50%Z;
     format_2f := fun _ => "0.00";
     format_1f := fun _ => "0.0";
     format_float := fun _ => "0.0" |}.

Definition sample_config : Config :=
  {| cfg_categories :=
       [ {| cat_type := "spice"; cat_subtype := Some "powder";
            cat_keywords := ["turmeric"; "coriander"; "haldi"] |};
         {| cat_type := "rice"; cat_subtype := Some "basmati";
            cat_keywords := ["basmati"] |};
         {| cat_type := "salt"; cat_subtype := None;
            cat_keywords := ["salt"] |} ];
     cfg_strict_category_matching := ["spice:powder"];
     cfg_incompatible_categories := [["rice"; "salt"]];
     cfg_pairs := [["spice"; "rice"]; ["spice:powder"; "salt"]];
     cfg_penalty_multipliers := {[ "different_rice_vs_salt" := 0.6 ]};
     cfg_groups :=
       [ {| syn_canonical := Some "turmeric"; syn_terms := ["haldi"] |} ];
     cfg_known_brands := ["Tata"; "Everest"; "Badshah"] |}.

Definition sample_matcher : ProductMatcher := init sample_config.

Definition product (i : Z) (name : string) (price : option Q) : Product :=
  {| p_id := Some i; p_name := Some name; p_price := price |}.

(** A record without the ['name'] key. *)
Definition nameless (i : Z) : Product :=
  {| p_id := Some i; p_name := None; p_price := None |}.

(** A rule store with a penalty multiplier for one order of two types and
    none for the other, and two products of those types. *)
Definition tiered_config : Config :=
  {| cfg_categories :=
       [ {| cat_type := "organic"; cat_subtype := None;
            cat_keywords := ["organic"] |};
         {| cat_type := "premium"; cat_subtype := None;
            cat_keywords := ["premium"] |} ];
     cfg_strict_category_matching := [];
     cfg_incompatible_categories := [];
     cfg_pairs := [];
     cfg_penalty_multipliers := {[ "different_organic_vs_premium" := 0.9 ]};
     cfg_groups := [];
     cfg_known_brands := [] |}.

Definition tiered_matcher : ProductMatcher := init tiered_config.

Definition organic_rice : Product := product 1 "Organic Basmati Rice" None.

Definition premium_rice : Product := product 2 "Premium Basmati Rice" None.

(** ** Further specification-side definitions *)

(** No decimal digit occurs in [s]. *)
Definition no_digit (s : string) : bool :=
  all_chars (fun c => negb (Str.isdecimal c)) s.

(** The first character of [tail], if any, is the letter [letter] in
    either case. *)
Definition starts_with_letter (letter : ascii) (tail : string) : bool :=
  match tail with
  | EmptyString => false
  | String c _ => Ascii.eqb (Str.lower_char c) letter
  end.

(** The unit types a [SizeInfo] can carry. *)
Definition unit_types : list string := ["weight"; "volume"; "count"; "unknown"].

(** The unit type and base unit a recognised size carries. *)
Definition base_units : list (string * string) :=
  [("weight", "g"); ("volume", "ml"); ("count", "pcs"); ("count", "each")].

(** The pattern reads the unit [unit] in full when it is followed by
    [tail]: "gm" is read as "g", "l" before a "b" as "lb", "pc" before an
    "s" as "pcs". *)
Definition read_in_full (unit tail : string) : bool :=
  negb (String.eqb unit "gm")
  && negb (String.eqb unit "l" && starts_with_letter "b" tail)
  && negb (String.eqb unit "pc" && starts_with_letter "s" tail).

(** The entries of the "pairs" table that are kept as patterns, in order. *)
Definition pattern_entries (pairs : list (list string)) : list (string * string) :=
  flat_map
    (fun entry =>
       match entry with
       | [a; b] => if has_special (a ++ b) then [(a, b)] else []
       | _ => []
       end)
    pairs.

(** One of the words occurs in the name. *)
Definition mentions_any (words : list string) (name_lower : string) : bool :=
  existsb (fun word => Str.contains word name_lower) words.

(** The hard-coded rules of [is_forbidden_match], on the raw names: baking
    powder against a spice, two different spices of the list, coconut
    against curry. *)
Definition hard_coded_exclusion (name1 name2 : string) : bool :=
  let name1_lower := Str.lower name1 in
  let name2_lower := Str.lower name2 in
  ((Str.contains "baking powder" name1_lower && mentions_any baking_spices name2_lower)
   || (Str.contains "baking powder" name2_lower && mentions_any baking_spices name1_lower))
  || (match different_spices name1_lower name2_lower with
      | Some _ => true
      | None => false
      end
      || ((Str.contains "coconut" name1_lower && Str.contains "curry" name2_lower)
          || (Str.contains "curry" name1_lower && Str.contains "coconut" name2_lower))).

(** The set of words of the normalized name, as the similarity uses it. *)
Definition normalized_words (name : string) : gset string :=
  list_to_set (Str.split (normalize_name name)).

(** A word as [str.split()] yields them: not empty and without blanks. *)
Definition clean_word (w : string) : bool :=
  Str.truthy w && all_chars (fun c => negb (Str.isspace c)) w.

(** A character of a normalized name: lowercase, and a word character or a
    blank. *)
Definition normal_char (c : ascii) : bool :=
  Ascii.eqb (Str.lower_char c) c && (Str.isword c || Str.isspace c).

(** Every category that matches the working name has fewer keywords than
    [c] or the classification of [c]. *)
Definition outranks (self : ProductMatcher) (name : string) (c : Category) : bool :=
  forallb
    (fun c' =>
       match first_keyword (working_name self name) c' with
       | Some _ =>
           (length (cat_keywords c') <? length (cat_keywords c))%nat
           || (String.eqb (cat_type c') (cat_type c)
               && String.eqb (default "generic" (cat_subtype c'))
                    (default "generic" (cat_subtype c)))
       | None => true
       end)
    (categories self).

(** The match type goes with the confidence. *)
Definition tier_agrees (m : ProductMatch.t) : Prop :=
  (ProductMatch.match_type m = "exact" /\ 0.9 <= ProductMatch.confidence m)
  \/ (ProductMatch.match_type m = "similar"
      /\ 0.75 <= ProductMatch.confidence m /\ ProductMatch.confidence m < 0.9)
  \/ (ProductMatch.match_type m = "substitute" /\ ProductMatch.confidence m < 0.75).

(** What holds of an entry that [find_matches] builds for the primary with
    id [pid] against [candidates]. *)
Definition valid_entry (pid : Z) (min_confidence : Q) (candidates : list Product)
    (m : ProductMatch.t) : Prop :=
  ProductMatch.primary_id m = pid
  /\ ProductMatch.matched_id m <> pid
  /\ In (ProductMatch.matched_id m) (omap p_id candidates)
  /\ min_confidence <= ProductMatch.confidence m
  /\ 0 <= ProductMatch.confidence m /\ ProductMatch.confidence m <= 1
  /\ tier_agrees m
  /\ 0 < ProductMatch.size_similarity m /\ ProductMatch.size_similarity m <= 1
  /\ (length (ProductMatch.warnings m) <= 4)%nat.

(** ** The validation of [match_products.py] *)

(** [set(name.lower().split())] *)
Definition raw_words (name : string) : gset string :=
  list_to_set (Str.split (Str.lower name)).

(** [DatabaseMatcher._calculate_name_similarity] *)
Definition _calculate_name_similarity (name1 name2 : string) : result Q :=
  let words1 := raw_words name1 in
  let words2 := raw_words name2 in
  if bool_decide (words1 = ∅) || bool_decide (words2 = ∅) then Ok 0.0
  else
    let intersection := words1 ∩ words2 in
    let union := words1 ∪ words2 in
    truediv (inject_Z (Z.of_nat (size intersection)))
            (inject_Z (Z.of_nat (size union))).

(** The record with the ['price'] key removed. *)
Definition without_price (p : Product) : Product :=
  {| p_id := p_id p; p_name := p_name p; p_price := None |}.

(** * Per-unit prices: the size patterns of [match_products.py] *)

(** ** The fragment of [re] the size patterns are written in

    A pattern is run against a cursor in the text; the result lists the
    cursors of all the ways it can match there, in the order in which the
    backtracking matcher of [re] tries them, so that the head of the list is
    the match [re] reports.  [\d+] and [\s*] are greedy, an alternation tries
    its branches from left to right, and [(?:...)?] tries the body first.
    Groups are numbered in the order they close, which is the order they
    open in when no group is nested in another, as in all the patterns
    below. *)

Module Re.

Inductive t : Type :=
| Lit (text : string)   (* literal text, compared with [re.IGNORECASE] *)
| Digits                (* [\d+] *)
| Spaces                (* [\s*] *)
| Boundary              (* [\b] *)
| Seq (a b : t)
| Alt (a b : t)         (* [a|b] *)
| Opt (a : t)           (* [(?:a)?] *)
| Group (a : t).        (* [(a)] *)

(** A position in the text, with the text matched so far and the groups
    closed so far. *)
Record cursor : Type := mk {
  before : option ascii;
  rest : string;
  taken : string;
  captured : list string }.

Definition advance (x : ascii) (s' : string) (c : cursor) : cursor :=
  mk (Some x) s' (taken c ++ String x EmptyString) (captured c).

Fixpoint lit (text s : string) (c : cursor) : option cursor :=
  match text, s with
  | EmptyString, _ => Some c
  | String p text', String x s' =>
      if Ascii.eqb (Str.lower_char x) (Str.lower_char p)
      then lit text' s' (advance x s' c)
      else None
  | String _ _, EmptyString => None
  end.

(** Greedy repetition of a character class on [s], the rest of [c]: the
    longest run first, the empty one last. *)
Fixpoint many (cls : ascii -> bool) (s : string) (c : cursor) : list cursor :=
  match s with
  | String x s' =>
      if cls x then Py.append (many cls s' (advance x s' c)) c else [c]
  | EmptyString => [c]
  end.

Definition many1 (cls : ascii -> bool) (c : cursor) : list cursor :=
  match rest c with
  | String x s' => if cls x then many cls s' (advance x s' c) else []
  | EmptyString => []
  end.

Definition word_before (c : cursor) : bool :=
  match before c with Some x => Str.isword x | None => false end.

Definition word_after (c : cursor) : bool :=
  match rest c with String x _ => Str.isword x | EmptyString => false end.

Definition open (c : cursor) : cursor :=
  mk (before c) (rest c) EmptyString (captured c).

Definition close (c c' : cursor) : cursor :=
  mk (before c') (rest c') (taken c ++ taken c') (Py.append (captured c') (taken c')).

Fixpoint run (r : t) (c : cursor) : list cursor :=
  match r with
  | Lit text =>
      match lit text (rest c) c with Some c' => [c'] | None => [] end
  | Digits => many1 Str.isdecimal c
  | Spaces => many Str.isspace (rest c) c
  | Boundary => if xorb (word_before c) (word_after c) then [c] else []
  | Seq a b => flat_map (run b) (run a c)
  | Alt a b => (run a c ++ run b c)%list
  | Opt a => Py.append (run a c) c
  | Group a => map (close c) (run a (open c))
  end.

(** [re.search]: the first match at the leftmost position that has one. *)
Fixpoint search_at (r : t) (before : option ascii) (s : string) : option cursor :=
  match run r (mk before s EmptyString []) with
  | m :: _ => Some m
  | [] =>
      match s with
      | String x s' => search_at r (Some x) s'
      | EmptyString => None
      end
  end.

Definition search (r : t) (s : string) : option cursor := search_at r None s.

(** [m.group(0)] and [m.group(n)] for a group that took part in the match. *)
Definition group0 (m : cursor) : string := taken m.

Definition group (n : nat) (m : cursor) : string :=
  nth (pred n) (captured m) EmptyString.

(** [(?:w|w1|...|wn)] *)
Fixpoint words (w : string) (ws : list string) : t :=
  match ws with
  | [] => Lit w
  | w' :: ws' => Alt (Lit w) (words w' ws')
  end.

(** [\d+(?:\.\d+)?] *)
Definition number : t := Seq Digits (Opt (Seq (Lit ".") Digits)).

(** [(\d+(?:\.\d+)?)\s*(?:units)\b] *)
Definition sized (units : t) : t :=
  Seq (Group number) (Seq Spaces (Seq units Boundary)).

End Re.

(** [DatabaseMatcher.size_patterns] *)
Definition size_patterns : list (Re.t * string * Q * string) :=
  [ (Re.sized (Re.Lit "kg"), "weight", 1000, "g");
    (Re.sized (Re.words "g" ["gm"; "gms"; "gram"; "grams"]), "weight", 1, "g");
    (Re.sized (Re.words "lb" ["lbs"; "pound"; "pounds"]), "weight", 453.592, "g");
    (Re.sized (Re.words "oz" ["ounce"; "ounces"]), "weight", 28.3495, "g");
    (Re.sized (Re.words "l" ["liter"; "liters"; "litre"; "litres"]),
     "volume", 1000, "ml");
    (Re.sized (Re.words "ml" ["milliliter"; "milliliters"]), "volume", 1, "ml");
    (Re.sized (Re.Alt (Re.Seq (Re.Lit "fl") (Re.Seq Re.Spaces (Re.Lit "oz")))
                      (Re.Seq (Re.Lit "fluid") (Re.Seq Re.Spaces (Re.Lit "ounce")))),
     "volume", 29.5735, "ml");
    (Re.Seq (Re.Group Re.Digits)
       (Re.Seq Re.Spaces
          (Re.Seq (Re.Alt (Re.Seq (Re.Lit "pc") (Re.Opt (Re.Lit "s")))
                     (Re.Alt (Re.Seq (Re.Lit "piece") (Re.Opt (Re.Lit "s")))
                        (Re.Alt (Re.Lit "each") (Re.Lit "count"))))
             Re.Boundary)),
     "count", 1, "pcs");
    (Re.Seq (Re.Group Re.Digits)
       (Re.Seq Re.Spaces
          (Re.Seq (Re.Lit "x")
             (Re.Seq Re.Spaces (Re.sized (Re.words "g" ["gm"; "ml"]))))),
     "multi_pack", 1, "special") ].

(** The result of [extract_enhanced_size]:
    [(normalized_value, base_unit, unit_type, confidence)]. *)
Definition enhanced_size : Type := (Q * string * string * string)%type.

(** The loop of [extract_enhanced_size] over the patterns [ps]. *)
Fixpoint first_pattern (ps : list (Re.t * string * Q * string))
    (name_lower : string) : option enhanced_size :=
  match ps with
  | [] => None
  | (pattern, unit_type, multiplier, base_unit) :: ps' =>
      match Re.search pattern name_lower with
      | Some m =>
          if String.eqb unit_type "multi_pack"
          then
            let pack_count := Str.float (Re.group 1 m) in
            let unit_size := Str.float (Re.group 2 m) in
            let total_grams := pack_count * unit_size in
            Some (total_grams, "g", "weight", "high")
          else
            let value := Str.float (Re.group 1 m) in
            let normalized_value := value * multiplier in
            let confidence :=
              if (3 <? String.length (Re.group0 m))%nat then "high" else "medium" in
            Some (normalized_value, base_unit, unit_type, confidence)
      | None => first_pattern ps' name_lower
      end
  end.

(** [DatabaseMatcher.extract_enhanced_size] *)
Definition extract_enhanced_size (product_name : string) : enhanced_size :=
  let name_lower := Str.lower product_name in
  match first_pattern size_patterns name_lower with
  | Some found => found
  | None =>
      match Re.search (Re.Group Re.number) name_lower with
      | Some number_match =>
          (Str.float (Re.group 1 number_match), "unknown", "unknown", "low")
      | None => (0, "unknown", "unknown", "unknown")
      end
  end.

Module NormalizedPrice.
Record t : Type := mk {
  price_per_100g : option Q;
  price_per_lb : option Q;
  price_per_liter : option Q;
  price_per_unit : option Q;
  original_price : Q;
  original_size : string;
  confidence : string }.

Definition set_price_per_100g (n : t) (v : Q) : t :=
  mk (Some v) (price_per_lb n) (price_per_liter n) (price_per_unit n)
     (original_price n) (original_size n) (confidence n).

Definition set_price_per_lb (n : t) (v : Q) : t :=
  mk (price_per_100g n) (Some v) (price_per_liter n) (price_per_unit n)
     (original_price n) (original_size n) (confidence n).

Definition set_price_per_liter (n : t) (v : Q) : t :=
  mk (price_per_100g n) (price_per_lb n) (Some v) (price_per_unit n)
     (original_price n) (original_size n) (confidence n).

Definition set_price_per_unit (n : t) (v : Q) : t :=
  mk (price_per_100g n) (price_per_lb n) (price_per_liter n) (Some v)
     (original_price n) (original_size n) (confidence n).
End NormalizedPrice.

(** [DatabaseMatcher.calculate_normalized_price].  The [try] block ends at
    the first division that raises, with the fields set until then. *)
Definition calculate_normalized_price (price : Q) (product_name : string)
    : NormalizedPrice.t :=
  let '(size_value, base_unit, unit_type, confidence) :=
    extract_enhanced_size product_name in
  let normalized :=
    NormalizedPrice.mk None None None None price product_name confidence in
  if Qle_bool size_value 0 || String.eqb confidence "unknown" then normalized
  else if String.eqb unit_type "weight" && String.eqb base_unit "g" then
    match truediv price size_value with
    | Raise _ => normalized
    | Ok per_gram =>
        let normalized :=
          NormalizedPrice.set_price_per_100g normalized (per_gram * 100) in
        match truediv price size_value with
        | Raise _ => normalized
        | Ok per_gram =>
            NormalizedPrice.set_price_per_lb normalized (per_gram * 453.592)
        end
    end
  else if String.eqb unit_type "volume" && String.eqb base_unit "ml" then
    match truediv price size_value with
    | Raise _ => normalized
    | Ok per_ml => NormalizedPrice.set_price_per_liter normalized (per_ml * 1000)
    end
  else if String.eqb unit_type "count" && String.eqb base_unit "pcs" then
    match truediv price size_value with
    | Raise _ => normalized
    | Ok per_piece => NormalizedPrice.set_price_per_unit normalized per_piece
    end
  else normalized.

Definition getitem_price (p : Product) : result Q :=
  match p_price p with
  | Some x => Ok x
  | None => Raise (KeyError "price")
  end.

(** Truthiness of an optional float. *)
Definition float_truthy (o : option Q) : bool :=
  match o with
  | Some x => negb (Qeq_bool x 0)
  | None => false
  end.

(** [min] on two strings: the first one unless the second is smaller. *)
Definition min_str (a b : string) : string := if String.ltb b a then b else a.

(** [s[:n]] for [n >= 0] *)
Fixpoint str_slice_to (n : nat) (s : string) : string :=
  match n, s with
  | S n', String c s' => String c (str_slice_to n' s')
  | _, _ => EmptyString
  end.

(** The dict [compare_normalized_prices] returns; the keys
    ['primary_per_unit'], ['competitor_per_unit'] and ['unit_label'] are set
    only when the prices can be compared. *)
Module Comparison.
Record t : Type := mk {
  primary_name : string;
  competitor_name : string;
  primary_price : Q;
  competitor_price : Q;
  primary_normalized : NormalizedPrice.t;
  competitor_normalized : NormalizedPrice.t;
  comparison_type : string;
  normalized_savings : Q;
  normalized_savings_pct : Q;
  size_confidence : string;
  can_compare_normalized : bool;
  primary_per_unit : option Q;
  competitor_per_unit : option Q;
  unit_label : option string }.
End Comparison.

(** The branch that finds both prices of one kind: the comparison type, the
    two prices and the label. *)
Definition comparison_method (primary_norm competitor_norm : NormalizedPrice.t)
    : option (string * Q * Q * string) :=
  let known :=
    negb (String.eqb (NormalizedPrice.confidence primary_norm) "unknown")
    && negb (String.eqb (NormalizedPrice.confidence competitor_norm) "unknown") in
  let p100 := NormalizedPrice.price_per_100g primary_norm in
  let c100 := NormalizedPrice.price_per_100g competitor_norm in
  let pl := NormalizedPrice.price_per_liter primary_norm in
  let cl := NormalizedPrice.price_per_liter competitor_norm in
  let pu := NormalizedPrice.price_per_unit primary_norm in
  let cu := NormalizedPrice.price_per_unit competitor_norm in
  if float_truthy p100 && float_truthy c100 && known
  then Some ("per_100g", default 0 p100, default 0 c100, "$/100g")
  else if float_truthy pl && float_truthy cl && known
  then Some ("per_liter", default 0 pl, default 0 cl, "$/L")
  else if float_truthy pu && float_truthy cu && known
  then Some ("per_unit", default 0 pu, default 0 cu, "$/unit")
  else None.

(** [DatabaseMatcher.compare_normalized_prices] *)
Definition compare_normalized_prices (primary_product competitor_product : Product)
    : result Comparison.t :=
  do primary_price <- getitem_price primary_product;
  do primary_name <- getitem_name primary_product;
  let primary_norm := calculate_normalized_price primary_price primary_name in
  do competitor_price <- getitem_price competitor_product;
  do competitor_name <- getitem_name competitor_product;
  let competitor_norm :=
    calculate_normalized_price competitor_price competitor_name in
  let size_confidence :=
    min_str (NormalizedPrice.confidence primary_norm)
            (NormalizedPrice.confidence competitor_norm) in
  match comparison_method primary_norm competitor_norm with
  | Some (comparison_type, primary_unit_price, competitor_unit_price, unit_label) =>
      let normalized_savings := competitor_unit_price - primary_unit_price in
      do normalized_savings_pct <-
        (if Py.Qltb 0 primary_unit_price
         then do share <- truediv normalized_savings primary_unit_price;
              Ok (share * 100)
         else Ok 0);
      Ok (Comparison.mk (str_slice_to 45 primary_name)
            (str_slice_to 45 competitor_name) primary_price competitor_price
            primary_norm competitor_norm comparison_type normalized_savings
            normalized_savings_pct size_confidence true
            (Some primary_unit_price) (Some competitor_unit_price)
            (Some unit_label))
  | None =>
      Ok (Comparison.mk (str_slice_to 45 primary_name)
            (str_slice_to 45 competitor_name) primary_price competitor_price
            primary_norm competitor_norm "absolute" 0 0 size_confidence false
            None None None)
  end.

(** [DatabaseMatcher._is_valid_match]; the message goes to the log. *)
Definition _is_valid_match (primary competitor : Product) (m : ProductMatch.t)
    : result bool :=
  do primary_name <- getitem_name primary;
  let p_words := raw_words primary_name in
  do competitor_name <- getitem_name competitor;
  let c_words := raw_words competitor_name in
  let common_words := p_words ∩ c_words in
  if (size common_words =? 0)%nat && Py.Qltb (ProductMatch.confidence m) 0.8
  then Ok false
  else Ok true.

(** [DatabaseMatcher._validate_match_with_pricing], on the comparison
    [price_comparison] of the two products. *)
Definition _validate_match_with_pricing (B : Backend) (primary competitor : Product)
    (m : ProductMatch.t) (price_comparison : Comparison.t)
    : result (bool * list string) :=
  let issues : list string := [] in
  do issues <-
    (if Py.Qltb (ProductMatch.confidence m) 0.7 then
       do primary_name <- getitem_name primary;
       do competitor_name <- getitem_name competitor;
       do name_similarity <- _calculate_name_similarity primary_name competitor_name;
       if Py.Qltb name_similarity 0.3
       then Ok (Py.append issues
                  ("Low name similarity (" ++ format_2f B name_similarity
                   ++ ") for low confidence match"))
       else Ok issues
     else Ok issues);
  do issues <-
    (if Comparison.can_compare_normalized price_comparison then
       let issues :=
         if Py.Qltb 500 (Qabs (Comparison.normalized_savings_pct price_comparison))
         then Py.append issues
                ("Extreme per-unit price difference: "
                 ++ format_1f B (Comparison.normalized_savings_pct price_comparison)
                 ++ "%")
         else issues in
       if String.eqb (Comparison.size_confidence price_comparison) "low"
       then Ok (Py.append issues "Low confidence in size extraction")
       else Ok issues
     else
       do primary_price <- getitem_price primary;
       if Py.Qltb 0 primary_price then
         do competitor_price <- getitem_price competitor;
         if Py.Qltb 0 competitor_price then
           do price_ratio <-
             truediv (Qmax primary_price competitor_price)
                     (Qmin primary_price competitor_price);
           if Py.Qltb 10 price_ratio
           then Ok (Py.append issues
                      ("Cannot normalize sizes and absolute price difference too large: "
                       ++ format_1f B price_ratio ++ "x"))
           else Ok issues
         else Ok issues
       else Ok issues);
  let issues :=
    if Py.Qltb (ProductMatch.size_similarity m) 0.5
       && Py.Qltb (ProductMatch.confidence m) 0.75
    then Py.append issues "Size/quantity mismatch detected"
    else issues in
  Ok ((length issues =? 0)%nat, issues).

(** ** Positions of a text *)

(** [later b s b' s']: the position with [b'] on its left and [s'] on its
    right is the position [(b, s)] or one to its right in the same text. *)
Inductive later (b : option ascii) (s : string) : option ascii -> string -> Prop :=
| later_here : later b s b s
| later_step x s' b' s'' :
    s = String x s' -> later (Some x) s' b' s'' -> later b s b' s''.

(** Two cursors at the same position. *)
Definition same_place (c d : Re.cursor) : Prop :=
  Re.before c = Re.before d /\ Re.rest c = Re.rest d.

(** The pattern can only match where a decimal digit comes next. *)
Fixpoint leads_with_digit (r : Re.t) : bool :=
  match r with
  | Re.Digits => true
  | Re.Seq a _ => leads_with_digit a
  | Re.Group a => leads_with_digit a
  | Re.Alt a b => leads_with_digit a && leads_with_digit b
  | _ => false
  end.

(** The confidence labels and the unit pairs [extract_enhanced_size] gives. *)
Definition recognised_units : list (string * string) :=
  [("weight", "g"); ("volume", "ml"); ("count", "pcs")].

(** The price fields [calculate_normalized_price] sets for a size [v] of
    unit type [unit_type]. *)
Definition price_fields (price v : Q) (unit_type : string)
    : option Q * option Q * option Q * option Q :=
  if Qle_bool v 0 then (None, None, None, None)
  else if String.eqb unit_type "weight"
  then (Some (price / v * 100), Some (price / v * 453.592), None, None)
  else if String.eqb unit_type "volume"
  then (None, None, Some (price / v * 1000), None)
  else if String.eqb unit_type "count"
  then (None, None, None, Some (price / v))
  else (None, None, None, None).

(** An entry of the pattern table whose multiplier is not negative and whose
    units are a recognised pair, the multi-pack entry apart. *)
Definition sound_entry (entry : Re.t * string * Q * string) : Prop :=
  let '(_, unit_type, multiplier, base_unit) := entry in
  0 <= multiplier
  /\ (unit_type = "multi_pack" \/ In (unit_type, base_unit) recognised_units).

(** * Properties *)

#[local] Arguments String.append !s1 s2 : simpl nomatch.

(** ** Comparisons and division *)

Lemma Qltb_lt (x y : Q) : Py.Qltb x y = true <-> x < y.
Proof.
  unfold Py.Qltb. rewrite Qlt_alt. destruct (x ?= y); intuition congruence.
Qed.

Lemma Qltb_ge (x y : Q) : Py.Qltb x y = false <-> y <= x.
Proof.
  destruct (Py.Qltb x y) eqn:E.
  - apply Qltb_lt in E. split; [discriminate | intros H; lra].
  - split; [intros _ | reflexivity].
    destruct (Qlt_le_dec x y) as [H | H]; [ | exact H].
    apply Qltb_lt in H. congruence.
Qed.

Lemma Qeq_bool_false (x y : Q) : Qeq_bool x y = false <-> ~ x == y.
Proof.
  split.
  - intros E H. apply Qeq_bool_iff in H. congruence.
  - intros H. destruct (Qeq_bool x y) eqn:E; [ | reflexivity].
    apply Qeq_bool_iff in E. contradiction.
Qed.

Lemma truediv_ok (a b : Q) : ~ b == 0 -> truediv a b = Ok (a / b).
Proof.
  intros H. unfold truediv. apply Qeq_bool_false in H. now rewrite H.
Qed.

Lemma Qmax_nonzero (x y : Q) : ~ x == 0 -> ~ y == 0 -> ~ Qmax x y == 0.
Proof.
  intros Hx Hy. destruct (Q.max_spec x y) as [[_ E] | [_ E]]; now rewrite E.
Qed.

Lemma Qmin_nonzero (x y : Q) : ~ x == 0 -> ~ y == 0 -> ~ Qmin x y == 0.
Proof.
  intros Hx Hy. destruct (Q.min_spec x y) as [[_ E] | [_ E]]; now rewrite E.
Qed.

(** ** Size similarity *)

Lemma calculate_size_similarity_same_unit (a b : SizeInfo.t) :
  SizeInfo.unit_type a = SizeInfo.unit_type b ->
  ~ SizeInfo.value a == 0 -> ~ SizeInfo.value b == 0 ->
  calculate_size_similarity a b = Ok (ratio_score (magnitude_ratio a b)).
Proof.
  intros Hu Ha Hb. unfold calculate_size_similarity.
  rewrite Hu, String.eqb_refl. cbn [negb].
  apply Qeq_bool_false in Ha as Ea. apply Qeq_bool_false in Hb as Eb.
  rewrite Ea, Eb. cbn [orb].
  rewrite truediv_ok by now apply Qmax_nonzero.
  unfold bind, ratio_score, magnitude_ratio.
  repeat match goal with |- context [if ?c then _ else _] => destruct c end;
    reflexivity.
Qed.

(** [calculate_size_similarity] never raises: the division is guarded. *)
Lemma calculate_size_similarity_total (a b : SizeInfo.t) :
  exists q, calculate_size_similarity a b = Ok q.
Proof.
  unfold calculate_size_similarity.
  destruct (negb _); [destruct (_ || _); eauto | ].
  destruct (Qeq_bool (SizeInfo.value a) 0) eqn:Ea; [eauto | ].
  destruct (Qeq_bool (SizeInfo.value b) 0) eqn:Eb; [eauto | ]. cbn [orb].
  rewrite truediv_ok
    by (apply Qmax_nonzero; now apply Qeq_bool_false).
  unfold bind.
  repeat match goal with |- context [if ?c then _ else _] => destruct c end;
    eauto.
Qed.

Lemma Qabs_shift (r : Q) : Qabs (r - 1.0) == Qabs (r - 1).
Proof. apply Qabs_wd. lra. Qed.

(** C4. For every two sizes, [calculate_size_similarity] returns, without
    raising, exactly the value of the case of the contract they fall in:
    0.3 or 0.1 when the unit types differ (0.3 when either is unknown), 0.5
    when the unit types agree and a value is 0, and otherwise 1.0, ratio*0.3,
    ratio*0.6 or the ratio min/max itself, by the band the ratio lies in. *)
Theorem calculate_size_similarity_cases (a b : SizeInfo.t) :
  exists q, calculate_size_similarity a b = Ok q /\ size_similarity_case a b q.
Proof.
  destruct (String.eqb_spec (SizeInfo.unit_type a) (SizeInfo.unit_type b))
    as [Hu | Hu].
  - destruct (Qeq_bool (SizeInfo.value a) 0) eqn:Ea.
    { exists 0.5. unfold calculate_size_similarity.
      rewrite Hu, String.eqb_refl, Ea. split; [reflexivity | ].
      apply case_zero_value; [exact Hu | left; now apply Qeq_bool_iff]. }
    destruct (Qeq_bool (SizeInfo.value b) 0) eqn:Eb.
    { exists 0.5. unfold calculate_size_similarity.
      rewrite Hu, String.eqb_refl, Ea, Eb. split; [reflexivity | ].
      apply case_zero_value; [exact Hu | right; now apply Qeq_bool_iff]. }
    apply Qeq_bool_false in Ea, Eb.
    rewrite calculate_size_similarity_same_unit by assumption.
    eexists; split; [reflexivity | ]. unfold ratio_score.
    destruct (Py.Qltb (Qabs _) _) eqn:E1.
    { apply Qltb_lt in E1. rewrite Qabs_shift in E1.
      now apply case_exact_band. }
    assert (N1 : ~ Qabs (magnitude_ratio a b - 1) < 0.02).
    { apply Qltb_ge in E1. rewrite Qabs_shift in E1. lra. }
    destruct (Py.Qltb _ 0.5) eqn:E2.
    { apply Qltb_lt in E2. now apply case_below_half. }
    assert (N2 : ~ magnitude_ratio a b < 0.5) by (apply Qltb_ge in E2; lra).
    destruct (Py.Qltb _ 0.75) eqn:E3.
    { apply Qltb_lt in E3. now apply case_below_three_quarters. }
    assert (N3 : ~ magnitude_ratio a b < 0.75) by (apply Qltb_ge in E3; lra).
    now apply case_close.
  - unfold calculate_size_similarity.
    apply String.eqb_neq in Hu as Eu. rewrite Eu. cbn [negb].
    destruct (String.eqb_spec (SizeInfo.unit_type a) "unknown") as [Ha | Ha].
    { eexists; split; [reflexivity | ]. apply case_unknown_unit; auto. }
    destruct (String.eqb_spec (SizeInfo.unit_type b) "unknown") as [Hb | Hb].
    { eexists; split; [reflexivity | ]. apply case_unknown_unit; auto. }
    eexists; split; [reflexivity | ]. now apply case_different_unit.
Qed.

Lemma exact_band (r : Q) :
  Py.Qltb (Qabs (r - 1.0)) 0.02 = true <-> 0.98 < r /\ r < 1.02.
Proof.
  rewrite Qltb_lt, Qabs_Qlt_condition. split; intros [H1 H2]; split; lra.
Qed.

Lemma ratio_score_monotone (r1 r2 : Q) :
  0 < r1 -> r1 <= r2 -> r2 <= 1 -> ratio_score r1 <= ratio_score r2.
Proof.
  intros Hpos Hle Hone. unfold ratio_score.
  destruct (Py.Qltb (Qabs (r1 - 1.0)) 0.02) eqn:B1;
    destruct (Py.Qltb (Qabs (r2 - 1.0)) 0.02) eqn:B2;
    try (apply exact_band in B1); try (apply exact_band in B2);
    try (assert (N1 : ~ (0.98 < r1 /\ r1 < 1.02))
           by (rewrite <- exact_band; congruence));
    try (assert (N2 : ~ (0.98 < r2 /\ r2 < 1.02))
           by (rewrite <- exact_band; congruence));
    destruct (Py.Qltb r1 0.5) eqn:H1; destruct (Py.Qltb r2 0.5) eqn:H2;
    destruct (Py.Qltb r1 0.75) eqn:T1; destruct (Py.Qltb r2 0.75) eqn:T2;
    rewrite ?Qltb_lt, ?Qltb_ge in *;
    try lra;
    try (exfalso; apply N2; split; lra).
Qed.

Lemma magnitude_ratio_range (a b : SizeInfo.t) :
  0 < SizeInfo.value a -> 0 < SizeInfo.value b ->
  0 < magnitude_ratio a b /\ magnitude_ratio a b <= 1.
Proof.
  intros Ha Hb. unfold magnitude_ratio.
  assert (Hmin : 0 < Qmin (SizeInfo.value a) (SizeInfo.value b))
    by (apply Q.min_glb_lt; assumption).
  assert (Hmax : 0 < Qmax (SizeInfo.value a) (SizeInfo.value b))
    by (apply Q.max_lt_iff; now left).
  assert (Hle : Qmin (SizeInfo.value a) (SizeInfo.value b)
                <= Qmax (SizeInfo.value a) (SizeInfo.value b)).
  { apply Qle_trans with (SizeInfo.value a);
      [apply Q.le_min_l | apply Q.le_max_l]. }
  split.
  - apply Qlt_shift_div_l; lra.
  - apply Qle_shift_div_r; lra.
Qed.

Lemma calculate_size_similarity_refl (x : SizeInfo.t) :
  0 < SizeInfo.value x -> calculate_size_similarity x x = Ok 1.0.
Proof.
  intros Hx.
  rewrite calculate_size_similarity_same_unit by (reflexivity || lra).
  unfold ratio_score.
  assert (E : magnitude_ratio x x == 1).
  { unfold magnitude_ratio. rewrite Q.min_id, Q.max_id. field. lra. }
  assert (Hb : Py.Qltb (Qabs (magnitude_ratio x x - 1.0)) 0.02 = true).
  { apply exact_band. rewrite E. split; lra. }
  now rewrite Hb.
Qed.

(** C7. Within a known unit type and for positive values the size
    similarity never rises when the magnitude ratio min/max falls: of two
    pairs of sizes, the pair with the smaller ratio has the smaller or equal
    similarity; and a size with a positive value has similarity 1.0 with
    itself. *)
Theorem calculate_size_similarity_monotone :
  (forall a b c d : SizeInfo.t,
      SizeInfo.unit_type a = SizeInfo.unit_type b ->
      SizeInfo.unit_type a <> "unknown" ->
      SizeInfo.unit_type c = SizeInfo.unit_type d ->
      SizeInfo.unit_type c <> "unknown" ->
      0 < SizeInfo.value a -> 0 < SizeInfo.value b ->
      0 < SizeInfo.value c -> 0 < SizeInfo.value d ->
      magnitude_ratio a b <= magnitude_ratio c d ->
      exists s1 s2,
        calculate_size_similarity a b = Ok s1
        /\ calculate_size_similarity c d = Ok s2
        /\ s1 <= s2)
  /\ (forall x : SizeInfo.t,
         0 < SizeInfo.value x -> calculate_size_similarity x x = Ok 1.0).
Proof.
  split; [ | exact calculate_size_similarity_refl].
  intros a b c d Hab _ Hcd _ Ha Hb Hc Hd Hle.
  rewrite !calculate_size_similarity_same_unit by (assumption || lra).
  do 2 eexists. split; [reflexivity | split; [reflexivity | ]].
  destruct (magnitude_ratio_range a b Ha Hb) as [Hpos _].
  destruct (magnitude_ratio_range c d Hc Hd) as [_ Hone].
  now apply ratio_score_monotone.
Qed.

Lemma calculate_size_similarity_monotone_witness :
  (exists s1 s2,
      calculate_size_similarity (grams 2000) (grams 5000) = Ok s1
      /\ calculate_size_similarity (grams 4000) (grams 5000) = Ok s2
      /\ s1 <= s2)
  /\ calculate_size_similarity (grams 1000) (grams 1000) = Ok 1.0.
Proof.
  split.
  - apply (proj1 calculate_size_similarity_monotone);
      try reflexivity; try discriminate.
  - apply (proj2 calculate_size_similarity_monotone). reflexivity.
Defined.

(** ** Confidence *)

Lemma price_step_total (B : Backend) (primary candidate : Product) (st : running) :
  exists st', price_step B primary candidate st = Ok st'.
Proof.
  unfold price_step.
  destruct (price_truthy primary) eqn:Hp; [ | eauto].
  destruct (price_truthy candidate) eqn:Hc; [ | eauto]. cbn [andb].
  unfold price_truthy in Hp, Hc. unfold price_of.
  destruct (p_price primary) as [x | ]; [ | discriminate].
  destruct (p_price candidate) as [y | ]; [ | discriminate].
  apply negb_true_iff, Qeq_bool_false in Hp, Hc.
  rewrite truediv_ok by now apply Qmin_nonzero.
  unfold bind.
  repeat match goal with |- context [if ?c then _ else _] => destruct c end;
    eauto.
Qed.

Lemma clamp_range (x : Q) : 0 <= Qmin (Qmax x 0.0) 1.0 /\ Qmin (Qmax x 0.0) 1.0 <= 1.
Proof.
  split.
  - apply Q.min_glb; [ | lra].
    apply Qle_trans with 0.0; [lra | apply Q.le_max_r].
  - apply Qle_trans with 1.0; [apply Q.le_min_r | lra].
Qed.

(** C1. When the rule engine flags a pair of named products with some
    reason, [calculate_confidence] returns the score 0.0 and the warnings
    list holding exactly that reason; the result is the same for every
    backend and whatever the prices, so neither the similarity nor the size
    and price steps take part in it. *)
Theorem calculate_confidence_forbidden
    (self : ProductMatcher) (B : Backend) (primary candidate : Product)
    (name_p name_c reason : string) :
  p_name primary = Some name_p ->
  p_name candidate = Some name_c ->
  is_forbidden_match self primary candidate
    (fst (classify_product self name_p)) (snd (classify_product self name_p))
    (fst (classify_product self name_c)) (snd (classify_product self name_c))
  = Ok (true, reason) ->
  calculate_confidence self B primary candidate = Ok (0.0, [reason]).
Proof.
  intros Hp Hc Hf. unfold calculate_confidence, getitem_name.
  rewrite Hp, Hc. cbn [bind].
  destruct (classify_product self name_p) as [p_type p_subtype].
  destruct (classify_product self name_c) as [c_type c_subtype].
  cbn [fst snd] in Hf. rewrite Hf. reflexivity.
Qed.

Lemma calculate_confidence_forbidden_witness :
  calculate_confidence sample_matcher sample_backend
    (product 1 "Everest Turmeric Powder 200g" (Some 3.5))
    (product 2 "Badshah Coriander Powder 200g" None)
  = Ok (0.0, ["Different spices: turmeric vs coriander"]).
Proof.
  apply (calculate_confidence_forbidden sample_matcher sample_backend _ _
           "Everest Turmeric Powder 200g" "Badshah Coriander Powder 200g");
    reflexivity.
Defined.

Lemma calculate_confidence_returns
    (self : ProductMatcher) (B : Backend) (primary candidate : Product)
    (name_p name_c : string) :
  p_name primary = Some name_p ->
  p_name candidate = Some name_c ->
  exists score warnings,
    calculate_confidence self B primary candidate = Ok (score, warnings)
    /\ 0 <= score /\ score <= 1.
Proof.
  intros Hp Hc. unfold calculate_confidence.
  unfold getitem_name at 1 2. rewrite Hp, Hc. cbn [bind].
  destruct (classify_product self name_p) as [p_type p_subtype].
  destruct (classify_product self name_c) as [c_type c_subtype].
  assert (Hf : exists v, is_forbidden_match self primary candidate
                 p_type p_subtype c_type c_subtype = Ok v).
  { unfold is_forbidden_match, getitem_name. rewrite Hp, Hc. cbn [bind].
    repeat match goal with
           | |- context [if ?c then _ else _] => destruct c
           | |- context [match ?o with Some _ => _ | None => _ end] => destruct o
           | |- context [let '(_, _) := ?p in _] => destruct p
           end; eauto. }
  destruct Hf as [[is_forbidden reason] Hf]. rewrite Hf. cbn [bind].
  destruct is_forbidden.
  { do 2 eexists. split; [reflexivity | lra]. }
  destruct (Py.Qltb _ 0.3).
  { do 2 eexists. split; [reflexivity | lra]. }
  destruct (calculate_size_similarity_total
              (extract_size name_p) (extract_size name_c)) as [size_sim Hs].
  rewrite Hs. cbn [bind].
  match goal with
  | |- context [price_step B primary candidate ?st] =>
      destruct (price_step_total B primary candidate st) as [st' Hst]
  end.
  rewrite Hst. cbn [bind].
  do 2 eexists. split; [reflexivity | apply clamp_range].
Qed.

(** C2. For every pair of named products [calculate_confidence] returns,
    and the score it returns lies between 0 and 1, whichever of its return
    statements produces it. *)
Theorem calculate_confidence_range
    (self : ProductMatcher) (B : Backend) (primary candidate : Product)
    (name_p name_c : string) :
  p_name primary = Some name_p ->
  p_name candidate = Some name_c ->
  exists score warnings,
    calculate_confidence self B primary candidate = Ok (score, warnings)
    /\ 0 <= score /\ score <= 1.
Proof. apply calculate_confidence_returns. Qed.

Lemma calculate_confidence_range_witness :
  exists score warnings,
    calculate_confidence sample_matcher sample_backend
      (product 1 "Tata Salt 1kg" (Some 2.5)) (product 2 "Tata Salt 500g" (Some 30))
    = Ok (score, warnings)
    /\ 0 <= score /\ score <= 1.
Proof.
  apply (calculate_confidence_range sample_matcher sample_backend _ _
           "Tata Salt 1kg" "Tata Salt 500g"); reflexivity.
Defined.

(** ** Orders *)

Lemma lex_lt (c1 c2 : comparison) :
  lex c1 c2 = Lt <-> c1 = Lt \/ (c1 = Eq /\ c2 = Lt).
Proof. destruct c1, c2; cbn; intuition congruence. Qed.

Lemma lex_eq (c1 c2 : comparison) : lex c1 c2 = Eq <-> c1 = Eq /\ c2 = Eq.
Proof. destruct c1, c2; cbn; intuition congruence. Qed.

Lemma pair_compare_order {A B : Type} (cmpA : A -> A -> comparison)
    (cmpB : B -> B -> comparison) :
  strict_order cmpA -> strict_order cmpB -> strict_order (pair_compare cmpA cmpB).
Proof.
  intros [eqA antiA transA] [eqB antiB transB]. split.
  - intros [a b] [a' b']. unfold pair_compare. cbn [fst snd].
    rewrite lex_eq, eqA, eqB. split; [intros [-> ->] | intros [= -> ->]]; auto.
  - intros [a b] [a' b']. unfold pair_compare. cbn [fst snd].
    rewrite (antiA a a'), (antiB b b').
    destruct (cmpA a a'), (cmpB b b'); reflexivity.
  - intros [a b] [a' b'] [a'' b'']. unfold pair_compare. cbn [fst snd].
    rewrite !lex_lt.
    intros [H1 | [H1 H1']] [H2 | [H2 H2']].
    + left. eauto.
    + apply eqA in H2 as <-. now left.
    + apply eqA in H1 as ->. now left.
    + apply eqA in H1 as ->. right. split; [assumption | eauto].
Qed.

Lemma nat_compare_order : strict_order Nat.compare.
Proof.
  split.
  - apply Nat.compare_eq_iff.
  - intros x y. apply Nat.compare_antisym.
  - intros x y z. rewrite !Nat.compare_lt_iff. lia.
Qed.

Lemma ascii_compare_order : strict_order Ascii.compare.
Proof.
  unfold Ascii.compare. split.
  - intros x y. rewrite N.compare_eq_iff. split; [ | now intros ->].
    intros H. rewrite <- (ascii_N_embedding x), <- (ascii_N_embedding y).
    now rewrite H.
  - intros x y. apply N.compare_antisym.
  - intros x y z. rewrite !N.compare_lt_iff. lia.
Qed.

Lemma string_compare_order : strict_order String.compare.
Proof.
  destruct ascii_compare_order as [eqA antiA transA]. split.
  - intros x y. split; [apply String.compare_eq_iff | intros ->].
    induction y as [ | c y IH]; cbn; [reflexivity | ].
    now rewrite (proj2 (eqA c c) eq_refl).
  - intros x y. apply String.compare_antisym.
  - intros x. induction x as [ | a x IH]; intros [ | b y] [ | c z]; cbn;
      try congruence.
    intros H1 H2.
    destruct (Ascii.compare a b) eqn:Eab; try discriminate;
      destruct (Ascii.compare b c) eqn:Ebc; try discriminate.
    + apply eqA in Eab as ->. rewrite Ebc. eauto.
    + apply eqA in Eab as ->. now rewrite Ebc.
    + apply eqA in Ebc as <-. now rewrite Eab.
    + now rewrite (transA _ _ _ Eab Ebc).
Qed.

Lemma tuple_compare_order : strict_order tuple_compare.
Proof.
  unfold tuple_compare.
  repeat apply pair_compare_order;
    auto using nat_compare_order, string_compare_order.
Qed.

Lemma string_eqb_compare (s t : string) :
  String.eqb s t = true <-> String.compare s t = Eq.
Proof.
  rewrite String.eqb_eq. symmetry. apply (cmp_eq _ string_compare_order).
Qed.

Lemma tuple_ltb_compare (x y : candidate_tuple) :
  tuple_ltb x y = true <-> tuple_compare x y = Lt.
Proof.
  destruct x as [[[p1 t1] s1] k1], y as [[[p2 t2] s2] k2].
  unfold tuple_ltb, tuple_compare, pair_compare. cbn [fst snd].
  destruct (Nat.eqb_spec p1 p2) as [-> | Hp]; cbn [negb].
  2:{ rewrite Nat.ltb_lt, <- Nat.compare_lt_iff.
      destruct (p1 ?= p2)%nat eqn:E; cbn;
        try (apply Nat.compare_eq_iff in E); intuition congruence. }
  rewrite Nat.compare_refl. cbn [lex].
  destruct (String.eqb t1 t2) eqn:Et; cbn [negb].
  2:{ unfold String.ltb.
      destruct (String.compare t1 t2) eqn:E; cbn;
        try (apply string_eqb_compare in E); intuition congruence. }
  apply string_eqb_compare in Et. rewrite Et. cbn [lex].
  destruct (String.eqb s1 s2) eqn:Es; cbn [negb].
  2:{ unfold String.ltb.
      destruct (String.compare s1 s2) eqn:E; cbn;
        try (apply string_eqb_compare in E); intuition congruence. }
  apply string_eqb_compare in Es. rewrite Es. cbn [lex].
  unfold String.ltb. destruct (String.compare k1 k2); intuition congruence.
Qed.

(** A boolean [<] that comes from a strict total order never holds both
    ways, and its negation is transitive. *)
Section FromCompare.
Context {A : Type} (cmp : A -> A -> comparison) (ltb : A -> A -> bool).
Hypothesis order : strict_order cmp.
Hypothesis ltb_cmp : forall x y, ltb x y = true <-> cmp x y = Lt.

Lemma ltb_false_cmp (x y : A) : ltb x y = false <-> cmp x y <> Lt.
Proof. rewrite <- ltb_cmp. destruct (ltb x y); intuition congruence. Qed.

Lemma compare_asym (x y : A) : ltb x y = true -> ltb y x = false.
Proof.
  rewrite ltb_cmp, ltb_false_cmp, (cmp_antisym _ order x y).
  intros ->. discriminate.
Qed.

Lemma compare_negtrans (x y z : A) :
  ltb x y = false -> ltb y z = false -> ltb x z = false.
Proof.
  rewrite !ltb_false_cmp. intros Hxy Hyz Hxz.
  destruct (cmp x y) eqn:Exy; try congruence.
  - apply (cmp_eq _ order) in Exy as ->. congruence.
  - destruct (cmp y z) eqn:Eyz; try congruence.
    + apply (cmp_eq _ order) in Eyz as ->. congruence.
    + assert (Hzy : cmp z y = Lt)
        by (rewrite (cmp_antisym _ order y z), Eyz; reflexivity).
      assert (Hyx : cmp y x = Lt)
        by (rewrite (cmp_antisym _ order x y), Exy; reflexivity).
      pose proof (cmp_trans _ order _ _ _ Hzy Hyx) as Hzx.
      rewrite (cmp_antisym _ order x z), Hxz in Hzx. discriminate.
Qed.
End FromCompare.

Lemma Qltb_asym (x y : Q) : Py.Qltb x y = true -> Py.Qltb y x = false.
Proof. rewrite Qltb_lt, Qltb_ge. lra. Qed.

Lemma Qltb_negtrans (x y z : Q) :
  Py.Qltb x y = false -> Py.Qltb y z = false -> Py.Qltb x z = false.
Proof. rewrite !Qltb_ge. lra. Qed.

(** ** [list.sort(reverse=True)] *)

Section SortFacts.
Context {A : Type} (ltb : A -> A -> bool).
Hypothesis ltb_asym : forall x y, ltb x y = true -> ltb y x = false.
Hypothesis ltb_negtrans :
  forall x y z, ltb x y = false -> ltb y z = false -> ltb x z = false.

Lemma insert_desc_In (x y : A) (l : list A) :
  In y (Py.insert_desc ltb x l) <-> y = x \/ In y l.
Proof.
  induction l as [ | z l IH]; cbn.
  - intuition.
  - destruct (ltb x z); cbn; rewrite ?IH; intuition.
Qed.

Lemma sort_reverse_In (y : A) (l : list A) :
  In y (Py.sort_reverse ltb l) <-> In y l.
Proof.
  induction l as [ | x l IH]; cbn; [reflexivity | ].
  rewrite insert_desc_In, IH. intuition.
Qed.

Lemma insert_desc_length (x : A) (l : list A) :
  length (Py.insert_desc ltb x l) = S (length l).
Proof.
  induction l as [ | z l IH]; cbn; [reflexivity | ].
  destruct (ltb x z); cbn; now rewrite ?IH.
Qed.

Lemma sort_reverse_length (l : list A) :
  length (Py.sort_reverse ltb l) = length l.
Proof.
  unfold Py.sort_reverse.
  induction l as [ | x l IH]; cbn; [reflexivity | ].
  now rewrite insert_desc_length, IH.
Qed.

Lemma insert_desc_sorted (x : A) (l : list A) :
  StronglySorted (Py.not_below ltb) l -> StronglySorted (Py.not_below ltb) (Py.insert_desc ltb x l).
Proof.
  induction 1 as [ | z l Hs IH Hz]; cbn.
  - constructor; [constructor | constructor].
  - destruct (ltb x z) eqn:E.
    + constructor; [exact IH | ].
      apply List.Forall_forall. intros y Hy. apply insert_desc_In in Hy as [-> | Hy].
      * now apply ltb_asym.
      * rewrite List.Forall_forall in Hz. now apply Hz.
    + constructor; [now constructor | ].
      constructor; [exact E | ].
      eapply List.Forall_impl; [ | exact Hz].
      intros y Hy. now apply ltb_negtrans with z.
Qed.

Lemma sort_reverse_sorted (l : list A) :
  StronglySorted (Py.not_below ltb) (Py.sort_reverse ltb l).
Proof.
  induction l as [ | x l IH]; cbn; [constructor | ].
  now apply insert_desc_sorted.
Qed.

(** The head of the sorted list is not below any element of the list. *)
Lemma sort_reverse_head (l : list A) (x : A) (rest : list A) :
  Py.sort_reverse ltb l = x :: rest ->
  forall y, In y l -> ltb x y = false.
Proof.
  intros E y Hy. pose proof (sort_reverse_sorted l) as Hs. rewrite E in Hs.
  apply sort_reverse_In in Hy. rewrite E in Hy.
  apply StronglySorted_inv in Hs as [_ Hx]. destruct Hy as [<- | Hy].
  - destruct (ltb x x) eqn:Exx; [ | reflexivity].
    now rewrite (ltb_asym _ _ Exx) in Exx.
  - rewrite List.Forall_forall in Hx. now apply Hx.
Qed.

(** Stability: the elements tied with [z] keep their order. *)
Lemma insert_desc_tied (z x : A) (l : list A) :
  List.filter (Py.tiedb ltb z) (Py.insert_desc ltb x l) = List.filter (Py.tiedb ltb z) (x :: l).
Proof.
  induction l as [ | y l IH]; [reflexivity | ].
  cbn [Py.insert_desc]. destruct (ltb x y) eqn:E; [ | reflexivity].
  cbn [List.filter] in *. rewrite IH.
  destruct (Py.tiedb ltb z x) eqn:Ex; [ | reflexivity].
  destruct (Py.tiedb ltb z y) eqn:Ey; [ | reflexivity].
  unfold Py.tiedb in Ex, Ey.
  apply andb_true_iff in Ex as [_ Ex], Ey as [Ey _].
  apply negb_true_iff in Ex, Ey.
  now rewrite (ltb_negtrans _ _ _ Ex Ey) in E.
Qed.

Lemma sort_reverse_stable (z : A) (l : list A) :
  List.filter (Py.tiedb ltb z) (Py.sort_reverse ltb l) = List.filter (Py.tiedb ltb z) l.
Proof.
  induction l as [ | x l IH]; [reflexivity | ].
  cbn [Py.sort_reverse fold_right]. rewrite insert_desc_tied.
  cbn [List.filter]. fold (Py.sort_reverse ltb l). now rewrite IH.
Qed.
End SortFacts.

(** ** Classification *)

Lemma collect_matches_In (cs : list Category) (name_lower : string)
    (m : candidate_tuple) :
  In m (collect_matches cs name_lower) <->
  exists c keyword,
    In c cs /\ first_keyword name_lower c = Some keyword /\ m = tuple_of c keyword.
Proof.
  induction cs as [ | c cs IH]; cbn.
  - split; [contradiction | intros (? & ? & [] & _)].
  - destruct (first_keyword name_lower c) as [keyword | ] eqn:E; cbn;
      rewrite IH; split.
    + intros [<- | (c' & k' & Hin & Hk & ->)]; eauto 6.
    + intros (c' & k' & [<- | Hin] & Hk & ->); [left | right; eauto].
      congruence.
    + intros (c' & k' & Hin & Hk & ->). eauto 6.
    + intros (c' & k' & [<- | Hin] & Hk & ->); [congruence | eauto].
Qed.

Lemma tuple_ltb_priority (x y : candidate_tuple) :
  tuple_ltb x y = false -> (fst (fst (fst y)) <= fst (fst (fst x)))%nat.
Proof.
  destruct x as [[[p1 t1] s1] k1], y as [[[p2 t2] s2] k2].
  unfold tuple_ltb. cbn [fst snd].
  destruct (Nat.eqb_spec p1 p2) as [-> | Hp]; cbn [negb]; [lia | ].
  rewrite Nat.ltb_ge. lia.
Qed.

(** C3, as the code has it.  [classify_product] returns the type and
    subtype of a category one of whose keywords occurs in the working name
    and whose tuple (number of keywords, type, subtype, first keyword found)
    is the greatest: no matching category has more keywords, and among those
    with as many the greatest (type, subtype, keyword) in string order wins.
    When no keyword occurs it returns ("other", "generic"). *)
Theorem classify_product_greatest (self : ProductMatcher) (name : string) :
  let name_lower := working_name self name in
  ((forall c, In c (categories self) -> first_keyword name_lower c = None) /\
   classify_product self name = ("other", "generic"))
  \/
  (exists c keyword,
      In c (categories self)
      /\ first_keyword name_lower c = Some keyword
      /\ classify_product self name
         = (cat_type c, default "generic" (cat_subtype c))
      /\ forall c' keyword',
           In c' (categories self) ->
           first_keyword name_lower c' = Some keyword' ->
           (length (cat_keywords c') <= length (cat_keywords c))%nat
           /\ tuple_ltb (tuple_of c keyword) (tuple_of c' keyword') = false).
Proof.
  intros name_lower. unfold classify_product. fold (working_name self name).
  fold name_lower.
  destruct (Py.sort_reverse tuple_ltb (collect_matches (categories self) name_lower))
    as [ | m rest] eqn:E.
  - left. split; [ | reflexivity].
    intros c Hc. destruct (first_keyword name_lower c) as [k | ] eqn:Ek; [ | reflexivity].
    assert (Hin : In (tuple_of c k) (collect_matches (categories self) name_lower))
      by (apply collect_matches_In; eauto).
    apply (sort_reverse_In tuple_ltb) in Hin. rewrite E in Hin. contradiction.
  - right.
    assert (Hm : In m (collect_matches (categories self) name_lower)).
    { apply (sort_reverse_In tuple_ltb). rewrite E. now left. }
    apply collect_matches_In in Hm as (c & k & Hc & Hk & ->).
    exists c, k. repeat split; try assumption.
    + assert (Hle : tuple_ltb (tuple_of c k) (tuple_of c' keyword') = false).
      { eapply sort_reverse_head; [ | | exact E | ].
        - apply (compare_asym _ _ tuple_compare_order tuple_ltb_compare).
        - apply (compare_negtrans _ _ tuple_compare_order tuple_ltb_compare).
        - apply collect_matches_In. eauto. }
      apply tuple_ltb_priority in Hle. exact Hle.
    + eapply sort_reverse_head; [ | | exact E | ].
      * apply (compare_asym _ _ tuple_compare_order tuple_ltb_compare).
      * apply (compare_negtrans _ _ tuple_compare_order tuple_ltb_compare).
      * apply collect_matches_In. eauto.
Qed.

(** C3, as the specification words it, fails: "basmati rice with salt"
    matches two categories of one keyword each; the earliest declared is
    rice:basmati, the classifier answers salt:generic. *)
Lemma classify_product_tie_counterexample :
  classify_product sample_matcher "Basmati rice with salt" = ("salt", "generic")
  /\ classify_product_spec sample_matcher "Basmati rice with salt"
     = ("rice", "basmati")
  /\ classify_product sample_matcher "Basmati rice with salt"
     <> classify_product_spec sample_matcher "Basmati rice with salt".
Proof. repeat split. vm_compute. discriminate. Qed.

(** ** Finding matches *)

Lemma StronglySorted_firstn {A : Type} (R : A -> A -> Prop) (n : nat) (l : list A) :
  StronglySorted R l -> StronglySorted R (firstn n l).
Proof.
  intros H. revert n. induction H as [ | x l Hs IH Hx]; intros [ | n]; cbn;
    try constructor; [apply IH | ].
  apply List.Forall_forall. intros y Hy. rewrite List.Forall_forall in Hx.
  apply Hx. rewrite <- (firstn_skipn n l). apply in_or_app. now left.
Qed.

Lemma StronglySorted_weaken {A : Type} (R S : A -> A -> Prop) (l : list A) :
  (forall x y, R x y -> S x y) -> StronglySorted R l -> StronglySorted S l.
Proof.
  intros HRS. induction 1 as [ | x l Hs IH Hx]; constructor; [exact IH | ].
  eapply List.Forall_impl; [ | exact Hx]. auto.
Qed.

Lemma filter_firstn_prefix {A : Type} (f : A -> bool) (n : nat) (l : list A) :
  exists tail, List.filter f l = (List.filter f (firstn n l) ++ tail)%list.
Proof.
  exists (List.filter f (skipn n l)).
  now rewrite <- List.filter_app, firstn_skipn.
Qed.

Lemma slice_to_nonneg {A : Type} (n : Z) (l : list A) :
  (0 <= n)%Z -> Py.slice_to n l = firstn (Z.to_nat n) l.
Proof. intros H. unfold Py.slice_to. now rewrite (proj2 (Z.leb_le 0 n) H). Qed.

Lemma with_confidence_tied (q : Q) (ms : list ProductMatch.t) :
  with_confidence q ms
  = List.filter (Py.tiedb confidence_ltb (ProductMatch.mk 0 0 q EmptyString 0 [])) ms.
Proof.
  apply List.filter_ext. intros m. unfold Py.tiedb, confidence_ltb. cbn.
  destruct (Qeq_bool (ProductMatch.confidence m) q) eqn:E.
  - apply Qeq_bool_iff in E. symmetry. apply andb_true_iff.
    split; apply negb_true_iff, Qltb_ge; lra.
  - apply Qeq_bool_false in E. symmetry. apply andb_false_iff.
    rewrite !negb_false_iff, !Qltb_lt.
    destruct (Q_dec q (ProductMatch.confidence m)) as [[H | H] | H]; auto.
    exfalso. apply E. lra.
Qed.

Lemma well_formed_inv (p : Product) :
  well_formed p = true -> exists i n, p_id p = Some i /\ p_name p = Some n.
Proof.
  unfold well_formed. destruct (p_id p), (p_name p); try discriminate. eauto.
Qed.

(** The loop of [find_matches] over well-formed records returns; it keeps
    entries for candidates other than the primary, at or above the
    threshold, in the order of the candidates. *)
Lemma scan_candidates_returns (self : ProductMatcher) (B : Backend)
    (primary : Product) (candidates : list Product) (min_confidence : Q) (pid : Z) :
  well_formed primary = true ->
  forallb well_formed candidates = true ->
  p_id primary = Some pid ->
  exists kept,
    scan_candidates self B primary candidates min_confidence = Ok kept
    /\ Forall (fun m => ProductMatch.matched_id m <> pid
                        /\ min_confidence <= ProductMatch.confidence m) kept
    /\ sublist (map ProductMatch.matched_id kept) (omap p_id candidates).
Proof.
  intros Hp Hcs Hpid.
  destruct (well_formed_inv _ Hp) as (pid' & name_p & Hpid' & Hname_p).
  assert (pid' = pid) as -> by congruence. clear Hpid'.
  induction candidates as [ | c cs IH].
  - exists []. cbn. repeat split; constructor.
  - cbn [forallb] in Hcs. apply andb_true_iff in Hcs as [Hc Hcs].
    destruct (IH Hcs) as (later & Hlater & Hall & Hsub).
    destruct (well_formed_inv _ Hc) as (cid & name_c & Hcid & Hname_c).
    assert (Hids : omap p_id (c :: cs) = cid :: omap p_id cs)
      by (cbn; now rewrite Hcid).
    rewrite Hids.
    cbn [scan_candidates]. unfold getitem_id, getitem_name.
    rewrite Hcid, Hpid, Hname_p, Hname_c. cbn [bind].
    destruct (Z.eqb_spec cid pid) as [Heq | Hne].
    { exists later. repeat split; try assumption. now apply sublist_cons. }
    destruct (calculate_confidence_returns self B primary c name_p name_c
                Hname_p Hname_c) as (score & warnings & Hscore & _).
    rewrite Hscore. cbn [bind].
    destruct (Qle_bool min_confidence score) eqn:Hmin.
    2:{ exists later. repeat split; try assumption. now apply sublist_cons. }
    destruct (calculate_size_similarity_total
                (extract_size name_p) (extract_size name_c)) as [size_sim Hs].
    rewrite Hs, Hlater. cbn [bind].
    eexists. split; [reflexivity | ]. split.
    + constructor; [ | exact Hall]. cbn. split; [exact Hne | ].
      now apply Qle_bool_iff.
    + cbn. now apply sublist_skip.
Qed.

Lemma confidence_ltb_asym (x y : ProductMatch.t) :
  confidence_ltb x y = true -> confidence_ltb y x = false.
Proof. apply Qltb_asym. Qed.

Lemma confidence_ltb_negtrans (x y z : ProductMatch.t) :
  confidence_ltb x y = false -> confidence_ltb y z = false ->
  confidence_ltb x z = false.
Proof. apply Qltb_negtrans. Qed.

(** C5.  [max_matches] is a count, so it is not negative.  On well-formed
    records [find_matches] returns a list of at most [max_matches] entries,
    none for a candidate with the primary's id, each with a confidence of at
    least [min_confidence], in order of non-increasing confidence; the
    entries of equal confidence are the first of those the scan kept, in the
    order of the scan, which is the order of the candidates. *)
Theorem find_matches_ranked (self : ProductMatcher) (B : Backend)
    (primary : Product) (candidates : list Product)
    (min_confidence : Q) (max_matches pid : Z) :
  well_formed primary = true ->
  forallb well_formed candidates = true ->
  p_id primary = Some pid ->
  (0 <= max_matches)%Z ->
  exists ms kept,
    find_matches self B primary candidates min_confidence max_matches = Ok ms
    /\ scan_candidates self B primary candidates min_confidence = Ok kept
    /\ (Z.of_nat (length ms) <= max_matches)%Z
    /\ Forall (fun m => ProductMatch.matched_id m <> pid
                        /\ min_confidence <= ProductMatch.confidence m) ms
    /\ StronglySorted
         (fun m1 m2 => ProductMatch.confidence m2 <= ProductMatch.confidence m1) ms
    /\ (forall q, exists tail,
           with_confidence q kept = (with_confidence q ms ++ tail)%list)
    /\ sublist (map ProductMatch.matched_id kept) (omap p_id candidates).
Proof.
  intros Hp Hcs Hpid Hmax.
  destruct (scan_candidates_returns self B primary candidates min_confidence pid
              Hp Hcs Hpid) as (kept & Hscan & Hall & Hsub).
  unfold find_matches. rewrite Hscan. cbn [bind].
  rewrite slice_to_nonneg by exact Hmax.
  set (sorted := Py.sort_reverse confidence_ltb kept).
  exists (firstn (Z.to_nat max_matches) sorted), kept.
  split; [reflexivity | ]. split; [reflexivity | ]. split; [ | split; [ | split; [ | split]]].
  - rewrite length_firstn. lia.
  - apply List.Forall_forall. intros m Hm. rewrite List.Forall_forall in Hall.
    apply Hall. apply (sort_reverse_In confidence_ltb). fold sorted.
    rewrite <- (firstn_skipn (Z.to_nat max_matches) sorted).
    apply in_or_app. now left.
  - apply StronglySorted_firstn.
    apply StronglySorted_weaken with (R := Py.not_below confidence_ltb).
    + intros x y H. now apply Qltb_ge in H.
    + apply (sort_reverse_sorted confidence_ltb confidence_ltb_asym
               confidence_ltb_negtrans).
  - intros q. rewrite !with_confidence_tied.
    rewrite <- (sort_reverse_stable confidence_ltb confidence_ltb_negtrans _ kept).
    apply filter_firstn_prefix.
  - exact Hsub.
Qed.

Lemma find_matches_ranked_witness :
  exists ms kept,
    find_matches sample_matcher sample_backend
      (product 1 "Tata Salt 1kg" None)
      [product 2 "Tata Salt 500g" None; product 1 "Tata Salt 1kg" None;
       product 3 "Tata Salt 1kg" None; product 4 "Tata Salt 1 kg" None]
      0.65 1 = Ok ms
    /\ scan_candidates sample_matcher sample_backend
         (product 1 "Tata Salt 1kg" None)
         [product 2 "Tata Salt 500g" None; product 1 "Tata Salt 1kg" None;
          product 3 "Tata Salt 1kg" None; product 4 "Tata Salt 1 kg" None]
         0.65 = Ok kept
    /\ (Z.of_nat (length ms) <= 1)%Z
    /\ Forall (fun m => ProductMatch.matched_id m <> 1%Z
                        /\ 0.65 <= ProductMatch.confidence m) ms
    /\ StronglySorted
         (fun m1 m2 => ProductMatch.confidence m2 <= ProductMatch.confidence m1) ms
    /\ (forall q, exists tail,
           with_confidence q kept = (with_confidence q ms ++ tail)%list)
    /\ sublist (map ProductMatch.matched_id kept)
         (omap p_id
            [product 2 "Tata Salt 500g" None; product 1 "Tata Salt 1kg" None;
             product 3 "Tata Salt 1kg" None; product 4 "Tata Salt 1 kg" None]).
Proof.
  apply find_matches_ranked; [reflexivity | reflexivity | reflexivity | lia].
Defined.


(** ** Hybrid similarity *)

Lemma opt_eqb_sym (o1 o2 : option string) : opt_eqb o1 o2 = opt_eqb o2 o1.
Proof. destruct o1, o2; cbn; auto using String.eqb_sym. Qed.

Lemma opt_eqb_truthy (o1 o2 : option string) :
  opt_eqb o1 o2 = true -> opt_truthy o1 = opt_truthy o2.
Proof.
  destruct o1 as [s1 | ], o2 as [s2 | ]; cbn; try discriminate; [ | reflexivity].
  intros H. apply String.eqb_eq in H. now subst.
Qed.

(** C6, amended. With a cosine and a fuzzy ratio that do not depend on
    the order of their arguments, and the embedding a function of the
    normalized name, the hybrid similarity of two names does not depend on
    their order, brand bonus and brand penalty included. *)
Theorem calculate_hybrid_similarity_symmetric
    (self : ProductMatcher) (B : Backend) :
  (forall x y, cosine_similarity B x y = cosine_similarity B y x) ->
  (forall s t, token_sort_ratio B s t = token_sort_ratio B t s) ->
  forall name1 name2,
    calculate_hybrid_similarity self B name1 name2
    = calculate_hybrid_similarity self B name2 name1.
Proof.
  intros Hcos Hfuzz name1 name2. unfold calculate_hybrid_similarity.
  rewrite (orb_comm (negb (Str.truthy (normalize_name name1)))).
  destruct (negb (Str.truthy (normalize_name name2))
            || negb (Str.truthy (normalize_name name1))); [reflexivity | ].
  rewrite (comm_L (∩) (list_to_set (Str.split (normalize_name name1)))).
  destruct (size _ =? 0)%nat; [reflexivity | ].
  rewrite (Hcos (model_encode B (normalize_name name1))).
  rewrite (Hfuzz (normalize_name name1)).
  rewrite (opt_eqb_sym (_extract_brand self name1)).
  destruct (opt_eqb (_extract_brand self name2) (_extract_brand self name1)) eqn:E.
  - rewrite (opt_eqb_truthy _ _ E).
    destruct (opt_truthy (_extract_brand self name1)); reflexivity.
  - rewrite !andb_false_r. cbn [negb]. rewrite !andb_true_r.
    now rewrite (andb_comm (opt_truthy (_extract_brand self name1))).
Qed.

Lemma calculate_hybrid_similarity_symmetric_witness :
  calculate_hybrid_similarity sample_matcher sample_backend
    "Tata Salt 1kg" "Everest Rock Salt 500g"
  = calculate_hybrid_similarity sample_matcher sample_backend
      "Everest Rock Salt 500g" "Tata Salt 1kg".
Proof.
  apply (calculate_hybrid_similarity_symmetric sample_matcher sample_backend).
  - intros x y. cbn. now rewrite String.eqb_sym.
  - intros s t. cbn. now rewrite String.eqb_sym.
Defined.

(** C6, as stated, fails: the embedding is a function of each name and
    the cosine is symmetric, but the fuzzy ratio of [difflib] is 38 for
    "Badshah Garam Masala" against "Everest Chicken Masala" and 48 the other
    way round; with the penalty for two different brands the similarity is
    0.3638 one way and 0.4148 the other. *)
Lemma calculate_hybrid_similarity_order_counterexample :
  (forall x y, cosine_similarity difflib_backend x y
               = cosine_similarity difflib_backend y x)
  /\ calculate_hybrid_similarity sample_matcher difflib_backend
       "Badshah Garam Masala" "Everest Chicken Masala" == 0.3638
  /\ calculate_hybrid_similarity sample_matcher difflib_backend
       "Everest Chicken Masala" "Badshah Garam Masala" == 0.4148
  /\ ~ calculate_hybrid_similarity sample_matcher difflib_backend
         "Badshah Garam Masala" "Everest Chicken Masala"
       == calculate_hybrid_similarity sample_matcher difflib_backend
            "Everest Chicken Masala" "Badshah Garam Masala".
Proof.
  split; [ | split; [ | split]].
  - intros x y. cbn. now rewrite String.eqb_sym.
  - vm_compute. reflexivity.
  - vm_compute. reflexivity.
  - vm_compute. discriminate.
Qed.

(** ** Exceptions in a batch *)

Lemma bind_raises {A C : Type} (r : result A) (k : A -> result C) :
  (forall a, exists e, k a = Raise e) -> exists e, bind r k = Raise e.
Proof. intros H. destruct r as [a | e]; cbn; eauto. Qed.

Lemma scan_candidates_raises (self : ProductMatcher) (B : Backend)
    (primary candidate : Product) (candidates : list Product)
    (min_confidence : Q) (e : exn) :
  In candidate candidates ->
  p_id candidate <> p_id primary ->
  calculate_confidence self B primary candidate = Raise e ->
  exists e', scan_candidates self B primary candidates min_confidence = Raise e'.
Proof.
  intros Hin Hne Hraise.
  induction candidates as [ | c cs IH]; [contradiction | ].
  cbn [scan_candidates].
  destruct Hin as [-> | Hin].
  - unfold getitem_id.
    destruct (p_id candidate) as [cid | ] eqn:Ec; cbn [bind]; [ | eauto].
    destruct (p_id primary) as [pid | ] eqn:Ep; cbn [bind]; [ | eauto].
    destruct (Z.eqb_spec cid pid) as [-> | _]; [congruence | ].
    rewrite Hraise. cbn. eauto.
  - destruct (IH Hin) as [e' He'].
    unfold getitem_id.
    destruct (p_id c) as [cid | ]; cbn [bind]; [ | eauto].
    destruct (p_id primary) as [pid | ]; cbn [bind]; [ | eauto].
    rewrite He'.
    destruct (cid =? pid)%Z; [eauto | ].
    destruct (calculate_confidence self B primary c) as [[score warnings] | e0];
      cbn [bind]; [ | eauto].
    destruct (Qle_bool min_confidence score); [ | eauto].
    repeat (apply bind_raises; intros ?). cbn. eauto.
Qed.

(** C8, as the code has it.  Nothing catches an exception at the pair
    boundary: when scoring a pair that the batch evaluates (a primary of the
    batch and a candidate with another id) raises, [batch_match] raises too
    and returns no matches at all. *)
Theorem batch_match_propagates (self : ProductMatcher) (B : Backend)
    (primaries candidates : list Product) (min_confidence : Q)
    (primary candidate : Product) (e : exn) :
  In primary primaries ->
  In candidate candidates ->
  p_id candidate <> p_id primary ->
  calculate_confidence self B primary candidate = Raise e ->
  exists e', batch_match self B primaries candidates min_confidence = Raise e'.
Proof.
  intros Hp Hc Hne Hraise.
  induction primaries as [ | p ps IH]; [contradiction | ].
  cbn [batch_match]. destruct Hp as [-> | Hp].
  - unfold find_matches.
    destruct (scan_candidates_raises self B primary candidate candidates
                min_confidence e Hc Hne Hraise) as [e' He'].
    rewrite He'. cbn. eauto.
  - destruct (IH Hp) as [e' He']. rewrite He'.
    destruct (find_matches self B p candidates min_confidence 3); cbn; eauto.
Qed.

Lemma batch_match_propagates_witness :
  exists e',
    batch_match sample_matcher sample_backend
      [product 1 "Tata Salt 1kg" None]
      [nameless 2; product 3 "Tata Salt 1kg" None] 0.65 = Raise e'.
Proof.
  apply (batch_match_propagates sample_matcher sample_backend _ _ _
           (product 1 "Tata Salt 1kg" None) (nameless 2) (KeyError "name")).
  - cbn. auto.
  - cbn. auto.
  - cbn. discriminate.
  - reflexivity.
Defined.

(** C8, as stated, fails: one candidate without a name makes the whole
    batch raise, although the other candidate alone yields a match. *)
Lemma batch_match_abort_counterexample :
  calculate_confidence sample_matcher sample_backend
    (product 1 "Tata Salt 1kg" None) (nameless 2) = Raise (KeyError "name")
  /\ batch_match sample_matcher sample_backend
       [product 1 "Tata Salt 1kg" None]
       [nameless 2; product 3 "Tata Salt 1kg" None] 0.65
     = Raise (KeyError "name")
  /\ exists m,
       batch_match sample_matcher sample_backend
         [product 1 "Tata Salt 1kg" None]
         [product 3 "Tata Salt 1kg" None] 0.65 = Ok [m].
Proof.
  split; [reflexivity | ]. split; [reflexivity | ].
  eexists. vm_compute. reflexivity.
Qed.

(** ** Order of the arguments of the confidence *)

Lemma clamp_id (x : Q) : 0 <= x -> x <= 1 -> Qmin (Qmax x 0.0) 1.0 == x.
Proof.
  intros H0 H1. rewrite Q.max_l by lra. rewrite Q.min_l by lra. reflexivity.
Qed.

Lemma tiered_hybrid_swap (B : Backend) :
  calculate_hybrid_similarity tiered_matcher B "Premium Basmati Rice" "Organic Basmati Rice"
  = calculate_hybrid_similarity tiered_matcher B "Organic Basmati Rice" "Premium Basmati Rice".
Proof. vm_compute. reflexivity. Qed.

Lemma tiered_category_forward (q : Q) :
  category_step tiered_matcher "organic" "generic" "premium" "generic" (q, [])
  = (q * 0.9, ["Type mismatch: organic vs premium"]).
Proof. vm_compute. reflexivity. Qed.

Lemma tiered_category_backward (q : Q) :
  category_step tiered_matcher "premium" "generic" "organic" "generic" (q, [])
  = (q * 0.5, ["Type mismatch: premium vs organic"]).
Proof. vm_compute. reflexivity. Qed.

Lemma size_step_half (B : Backend) (p c : SizeInfo.t) (st : running) :
  size_step B p c 0.5 st = warn st 0.8 ("Size difference: " ++ size_text B p c).
Proof. reflexivity. Qed.

Lemma tiered_borderline (q : Q) (w1 w2 : string) :
  borderline_step "Organic Basmati Rice" "Premium Basmati Rice" (q, [w1; w2]) = (q, [w1; w2])
  /\ borderline_step "Premium Basmati Rice" "Organic Basmati Rice" (q, [w1; w2]) = (q, [w1; w2]).
Proof.
  split; unfold borderline_step; cbn [fst snd length];
    destruct (Py.Qltb 0.6 q && Py.Qltb q 0.75); reflexivity.
Qed.

Ltac tiered_run h Hnot :=
  unfold calculate_confidence, organic_rice, premium_rice, product, getitem_name;
  cbn [p_name bind];
  replace (classify_product tiered_matcher "Organic Basmati Rice")
    with ("organic", "generic") by (vm_compute; reflexivity);
  replace (classify_product tiered_matcher "Premium Basmati Rice")
    with ("premium", "generic") by (vm_compute; reflexivity);
  match goal with
  | |- context [is_forbidden_match ?a ?b ?c ?d ?e ?f ?g] =>
      replace (is_forbidden_match a b c d e f g)
        with (@Ok (bool * string) (false, EmptyString))
        by (vm_compute; reflexivity)
  end;
  cbn [bind]; rewrite ?tiered_hybrid_swap; fold h; rewrite Hnot;
  match goal with
  | |- context [calculate_size_similarity ?a ?b] =>
      replace (calculate_size_similarity a b) with (@Ok Q 0.5)
        by (vm_compute; reflexivity)
  end;
  cbn [bind];
  rewrite ?tiered_category_forward, ?tiered_category_backward, size_step_half;
  unfold price_step, warn, Py.append;
  cbn [price_truthy p_price andb bind fst snd app].

(** C9. [calculate_confidence] depends on the order of its arguments.
    The store [tiered_matcher] has a multiplier for
    "different_organic_vs_premium" and none for the reverse key, and the two
    products are classified organic and premium.  Whatever the backend, as
    long as the similarity of the two names passes the rejection threshold
    and does not exceed 1, the score is 0.9 * 0.8 times the similarity one
    way and 0.5 * 0.8 times the other way, and the two differ. *)
Theorem calculate_confidence_not_symmetric (B : Backend) :
  let h := calculate_hybrid_similarity tiered_matcher B
             "Organic Basmati Rice" "Premium Basmati Rice" in
  0.3 <= h -> h <= 1 ->
  penalty_multipliers tiered_matcher !! "different_organic_vs_premium" = Some 0.9
  /\ penalty_multipliers tiered_matcher !! "different_premium_vs_organic" = None
  /\ fst (classify_product tiered_matcher "Organic Basmati Rice")
     <> fst (classify_product tiered_matcher "Premium Basmati Rice")
  /\ exists s1 w1 s2 w2,
       calculate_confidence tiered_matcher B organic_rice premium_rice = Ok (s1, w1)
       /\ calculate_confidence tiered_matcher B premium_rice organic_rice = Ok (s2, w2)
       /\ s1 == 0.72 * h /\ s2 == 0.4 * h /\ ~ s1 == s2.
Proof.
  intros h Hlo Hhi.
  split; [vm_compute; reflexivity | ]. split; [vm_compute; reflexivity | ].
  split; [vm_compute; discriminate | ].
  assert (Hnot : Py.Qltb h 0.3 = false) by (apply Qltb_ge; exact Hlo).
  assert (H1 : exists s1 w1,
             calculate_confidence tiered_matcher B organic_rice premium_rice
             = Ok (s1, w1) /\ s1 == 0.72 * h).
  { tiered_run h Hnot.
    rewrite (proj1 (tiered_borderline _ _ _)). cbn [fst snd].
    do 2 eexists. split; [reflexivity | ]. rewrite clamp_id; lra. }
  assert (H2 : exists s2 w2,
             calculate_confidence tiered_matcher B premium_rice organic_rice
             = Ok (s2, w2) /\ s2 == 0.4 * h).
  { tiered_run h Hnot.
    rewrite (proj2 (tiered_borderline _ _ _)). cbn [fst snd].
    do 2 eexists. split; [reflexivity | ]. rewrite clamp_id; lra. }
  destruct H1 as (s1 & w1 & E1 & Q1), H2 as (s2 & w2 & E2 & Q2).
  exists s1, w1, s2, w2. repeat split; try assumption.
  rewrite Q1, Q2. lra.
Qed.

Lemma calculate_confidence_not_symmetric_witness :
  penalty_multipliers tiered_matcher !! "different_organic_vs_premium" = Some 0.9
  /\ penalty_multipliers tiered_matcher !! "different_premium_vs_organic" = None
  /\ fst (classify_product tiered_matcher "Organic Basmati Rice")
     <> fst (classify_product tiered_matcher "Premium Basmati Rice")
  /\ exists s1 w1 s2 w2,
       calculate_confidence tiered_matcher sample_backend organic_rice premium_rice
       = Ok (s1, w1)
       /\ calculate_confidence tiered_matcher sample_backend premium_rice organic_rice
          = Ok (s2, w2)
       /\ s1 == 0.72 * calculate_hybrid_similarity tiered_matcher sample_backend
                      "Organic Basmati Rice" "Premium Basmati Rice"
       /\ s2 == 0.4 * calculate_hybrid_similarity tiered_matcher sample_backend
                     "Organic Basmati Rice" "Premium Basmati Rice"
       /\ ~ s1 == s2.
Proof.
  apply (calculate_confidence_not_symmetric sample_backend);
    apply Qle_bool_iff; vm_compute; reflexivity.
Defined.

(** ** The size pattern on a number followed by "g" *)

Lemma append_assoc (a b c : string) : (a ++ b) ++ c = a ++ (b ++ c).
Proof.
  induction a as [ | x a IH]; [reflexivity | ].
  cbn [append]. now rewrite IH.
Qed.

Lemma star_run {A : Type} (cls : ascii -> bool) (k : string -> option A)
    (run rest : string) (a : A) :
  all_chars cls run = true -> stops cls rest -> k rest = Some a ->
  SizePattern.star cls k (run ++ rest) = Some (run, a).
Proof.
  intros Hrun Hstop Hk. induction run as [ | c run IH]; cbn.
  - destruct rest as [ | c rest]; cbn in *; [now rewrite Hk | ].
    now rewrite Hstop, Hk.
  - cbn in Hrun. apply andb_true_iff in Hrun as [Hc Hrun].
    now rewrite Hc, (IH Hrun).
Qed.

Lemma plus_run {A : Type} (cls : ascii -> bool) (k : string -> option A)
    (run rest : string) (a : A) :
  Str.truthy run && all_chars cls run = true -> stops cls rest -> k rest = Some a ->
  SizePattern.plus cls k (run ++ rest) = Some (run, a).
Proof.
  intros Hrun Hstop Hk. destruct run as [ | c run]; [discriminate | ].
  cbn in Hrun. apply andb_true_iff in Hrun as [Hc Hrun].
  cbn. rewrite Hc, (star_run cls k run rest a Hrun Hstop Hk). reflexivity.
Qed.

Lemma isspace_not_decimal (c : ascii) :
  Str.isspace c = true -> Str.isdecimal c = false /\ Str.is_code 46 c = false.
Proof.
  destruct c as [[] [] [] [] [] [] [] []]; vm_compute; intros H;
    try discriminate H; split; reflexivity.
Qed.

(** What follows the number: blanks, then "g". *)
Lemma gap_then_g_stops (gap tail : string) :
  all_chars Str.isspace gap = true ->
  stops Str.isdecimal (gap ++ String "g" tail)
  /\ stops (Str.is_code 46) (gap ++ String "g" tail).
Proof.
  destruct gap as [ | c gap]; cbn; [split; reflexivity | ].
  intros H. apply andb_true_iff in H as [Hc _].
  now apply isspace_not_decimal.
Qed.

Lemma gap_unit_g (gap tail : string) :
  all_chars Str.isspace gap = true ->
  SizePattern.gap_unit (gap ++ String "g" tail) = Some (gap, "g").
Proof.
  intros Hgap. unfold SizePattern.gap_unit.
  apply star_run; [exact Hgap | reflexivity | reflexivity].
Qed.

Lemma fraction_gap_unit_g (fraction : option string) (gap tail : string) :
  match fraction with Some f => digits f | None => true end = true ->
  all_chars Str.isspace gap = true ->
  SizePattern.fraction_gap_unit
    (match fraction with
     | Some f => String "."%char f
     | None => EmptyString
     end ++ gap ++ String "g" tail)
  = Some (match fraction with
          | Some f => String "."%char f
          | None => EmptyString
          end, (gap, "g")).
Proof.
  intros Hfraction Hgap.
  destruct (gap_then_g_stops gap tail Hgap) as [Hdigit Hdot].
  unfold SizePattern.fraction_gap_unit. destruct fraction as [f | ]; cbn [append].
  - change (Str.is_code 46 "."%char) with true. cbv iota.
    now rewrite (plus_run Str.isdecimal SizePattern.gap_unit f _ (gap, "g")
                   Hfraction Hdigit (gap_unit_g gap tail Hgap)).
  - rewrite gap_unit_g by exact Hgap.
    destruct (gap ++ String "g" tail) as [ | c s]; [reflexivity | ].
    cbn in Hdot. now rewrite Hdot.
Qed.

Lemma match_here_g (whole : string) (fraction : option string) (gap tail : string) :
  well_formed_decimal whole fraction = true ->
  all_chars Str.isspace gap = true ->
  SizePattern.match_here (decimal whole fraction ++ gap ++ String "g" tail)
  = Some (SizePattern.mk (decimal whole fraction) gap "g").
Proof.
  intros Hnum Hgap. unfold well_formed_decimal in Hnum.
  apply andb_true_iff in Hnum as [Hwhole Hfraction].
  destruct (gap_then_g_stops gap tail Hgap) as [Hdigit Hdot].
  pose proof (fraction_gap_unit_g fraction gap tail Hfraction Hgap) as Hk.
  unfold SizePattern.match_here, decimal. rewrite append_assoc.
  erewrite plus_run; [ | exact Hwhole | | exact Hk].
  - reflexivity.
  - destruct fraction as [f | ]; [reflexivity | exact Hdigit].
Qed.

Lemma search_skip (pre s : string) :
  no_match_before pre s = true ->
  SizePattern.search (pre ++ s) = SizePattern.search s.
Proof.
  induction pre as [ | c pre IH]; [reflexivity | ].
  cbn [no_match_before]. intros H.
  destruct (SizePattern.match_here (String c pre ++ s)) eqn:E; [discriminate | ].
  change (SizePattern.search (String c pre ++ s))
    with (match SizePattern.match_here (String c pre ++ s) with
          | Some m => Some m
          | None => SizePattern.search (pre ++ s)
          end).
  rewrite E. now apply IH.
Qed.

Lemma search_here (s : string) (m : SizePattern.t) :
  SizePattern.match_here s = Some m -> SizePattern.search s = Some m.
Proof. intros H. destruct s; cbn [SizePattern.search]; now rewrite H. Qed.

Lemma extract_size_g (pre whole : string) (fraction : option string)
    (gap tail : string) :
  well_formed_decimal whole fraction = true ->
  all_chars Str.isspace gap = true ->
  no_match_before pre (decimal whole fraction ++ gap ++ String "g" tail) = true ->
  extract_size (pre ++ decimal whole fraction ++ gap ++ String "g" tail)
  = SizeInfo.mk (Str.float (decimal whole fraction) * 1) "g" "weight"
      (decimal whole fraction ++ gap ++ "g").
Proof.
  intros Hnum Hgap Hpre. unfold extract_size.
  rewrite (search_skip _ _ Hpre).
  rewrite (search_here _ _ (match_here_g whole fraction gap tail Hnum Hgap)).
  reflexivity.
Qed.

(** C10. The unit token "gm" is read as grams.  For a name whose first
    number and unit token is a number N, blanks and "gm", [extract_size]
    returns the value N (times the factor 1), the unit "g" and the unit type
    "weight", and the result is the one of the name with "g" in its place,
    the matched text included: in both it is N, the blanks and "g". *)
Theorem extract_size_gm (pre whole : string) (fraction : option string)
    (gap rest : string) :
  let number := decimal whole fraction in
  well_formed_decimal whole fraction = true ->
  all_chars Str.isspace gap = true ->
  no_match_before pre (number ++ gap ++ "gm" ++ rest) = true ->
  no_match_before pre (number ++ gap ++ "g" ++ rest) = true ->
  extract_size (pre ++ number ++ gap ++ "gm" ++ rest)
  = SizeInfo.mk (Str.float number * 1) "g" "weight" (number ++ gap ++ "g")
  /\ SizeInfo.value (extract_size (pre ++ number ++ gap ++ "gm" ++ rest))
     == Str.float number
  /\ extract_size (pre ++ number ++ gap ++ "gm" ++ rest)
     = extract_size (pre ++ number ++ gap ++ "g" ++ rest).
Proof.
  intros number Hnum Hgap Hgm Hg. subst number.
  pose proof (extract_size_g pre whole fraction gap (String "m" rest)
                Hnum Hgap Hgm) as Egm.
  pose proof (extract_size_g pre whole fraction gap rest Hnum Hgap Hg) as Eg.
  cbn [append] in *. rewrite Egm, Eg. cbn [SizeInfo.value].
  repeat split. ring.
Qed.

Lemma extract_size_gm_witness :
  extract_size ("Aashirvaad Atta 2 pack " ++ decimal "500" None ++ " " ++ "gm" ++ " bag")
  = SizeInfo.mk (Str.float (decimal "500" None) * 1) "g" "weight"
      (decimal "500" None ++ " " ++ "g")
  /\ SizeInfo.value
       (extract_size
          ("Aashirvaad Atta 2 pack " ++ decimal "500" None ++ " " ++ "gm" ++ " bag"))
     == Str.float (decimal "500" None)
  /\ extract_size
       ("Aashirvaad Atta 2 pack " ++ decimal "500" None ++ " " ++ "gm" ++ " bag")
     = extract_size
         ("Aashirvaad Atta 2 pack " ++ decimal "500" None ++ " " ++ "g" ++ " bag").
Proof.
  apply (extract_size_gm "Aashirvaad Atta 2 pack " "500" None " " " bag");
    reflexivity.
Defined.

(** * Further properties *)

(** ** What the size pattern matches *)

Lemma append_nil_r (s : string) : s ++ EmptyString = s.
Proof. induction s as [ | c s IH]; cbn; [reflexivity | now rewrite IH]. Qed.

Lemma lower_append (s t : string) :
  Str.lower (s ++ t) = Str.lower s ++ Str.lower t.
Proof. induction s as [ | c s IH]; cbn; [reflexivity | now rewrite IH]. Qed.

Lemma lower_length (s : string) : String.length (Str.lower s) = String.length s.
Proof. induction s as [ | c s IH]; cbn; [reflexivity | now rewrite IH]. Qed.

Lemma startswith_append (p rest : string) : Str.startswith p (p ++ rest) = true.
Proof.
  unfold Str.startswith. induction p as [ | c p IH]; cbn.
  - destruct rest; reflexivity.
  - destruct (ascii_dec c c); [exact IH | contradiction].
Qed.

Lemma contains_append (pre x rest : string) :
  Str.contains x (pre ++ x ++ rest) = true.
Proof.
  induction pre as [ | c pre IH].
  - cbn [append]. destruct (x ++ rest) eqn:E; cbn [Str.contains];
      rewrite <- E, startswith_append; reflexivity.
  - cbn [append Str.contains]. rewrite IH. apply orb_true_r.
Qed.

Lemma star_inv {A : Type} (cls : ascii -> bool) (k : string -> option A)
    (s run : string) (a : A) :
  SizePattern.star cls k s = Some (run, a) ->
  exists rest, s = run ++ rest /\ all_chars cls run = true /\ k rest = Some a.
Proof.
  revert run. induction s as [ | c s IH]; intros run; cbn.
  - destruct (k EmptyString) eqn:E; cbn; intros [= <- <-].
    exists EmptyString. auto.
  - assert (Hstop : option_map (pair EmptyString) (k (String c s)) = Some (run, a) ->
                    exists rest, String c s = run ++ rest
                                 /\ all_chars cls run = true /\ k rest = Some a).
    { destruct (k (String c s)) eqn:E; cbn; intros [= <- <-].
      exists (String c s). auto. }
    destruct (cls c) eqn:Hc; [ | exact Hstop].
    destruct (SizePattern.star cls k s) as [[run' a'] | ] eqn:E; [ | exact Hstop].
    intros [= <- <-]. destruct (IH run' eq_refl) as (rest & -> & Hrun & Hk).
    exists rest. cbn. rewrite Hc, Hrun. auto.
Qed.

Lemma plus_inv {A : Type} (cls : ascii -> bool) (k : string -> option A)
    (s run : string) (a : A) :
  SizePattern.plus cls k s = Some (run, a) ->
  exists rest, s = run ++ rest
               /\ Str.truthy run && all_chars cls run = true /\ k rest = Some a.
Proof.
  destruct s as [ | c s]; cbn; [discriminate | ].
  destruct (cls c) eqn:Hc; [ | discriminate].
  destruct (SizePattern.star cls k s) as [[run' a'] | ] eqn:E; cbn; [ | discriminate].
  intros [= <- <-]. destruct (star_inv cls k s run' a' E) as (rest & -> & Hrun & Hk).
  exists rest. cbn. rewrite Hc, Hrun. auto.
Qed.

Lemma literal_inv (a s u : string) :
  SizePattern.literal a s = Some u ->
  exists rest, s = u ++ rest /\ Str.lower u = a.
Proof.
  revert s u. induction a as [ | x a IH]; intros s u; cbn.
  - intros [= <-]. exists s. auto.
  - destruct s as [ | c s]; [discriminate | ].
    destruct (Ascii.eqb_spec (Str.lower_char c) x) as [Hx | ]; [ | discriminate].
    destruct (SizePattern.literal a s) as [u' | ] eqn:E; cbn; [ | discriminate].
    intros [= <-]. destruct (IH s u' E) as (rest & -> & Hu).
    exists rest. cbn. now rewrite Hx, Hu.
Qed.

Lemma match_unit_inv (s u : string) :
  SizePattern.match_unit s = Some u ->
  exists rest, s = u ++ rest /\ In (Str.lower u) SizePattern.unit_alternatives.
Proof.
  unfold SizePattern.match_unit.
  induction SizePattern.unit_alternatives as [ | a alts IH]; cbn; [discriminate | ].
  destruct (SizePattern.literal a s) as [u' | ] eqn:E.
  - intros [= <-]. destruct (literal_inv a s u' E) as (rest & -> & Hu). eauto.
  - intros H. destruct (IH H) as (rest & -> & Hin). eauto.
Qed.

(** A match of the pattern at the start of a text: the text begins with
    the matched characters, the number is a whole part with an optional
    fraction, the gap is blank and the unit is one of the alternatives. *)
Lemma match_here_inv (s : string) (m : SizePattern.t) :
  SizePattern.match_here s = Some m ->
  exists whole fraction rest,
    s = SizePattern.group0 m ++ rest
    /\ SizePattern.number m = decimal whole fraction
    /\ well_formed_decimal whole fraction = true
    /\ all_chars Str.isspace (SizePattern.gap m) = true
    /\ In (Str.lower (SizePattern.unit_text m)) SizePattern.unit_alternatives.
Proof.
  unfold SizePattern.match_here.
  destruct (SizePattern.plus Str.isdecimal SizePattern.fraction_gap_unit s)
    as [[ds [fr [g u]]] | ] eqn:E; cbn; [ | discriminate].
  intros [= <-].
  destruct (plus_inv _ _ _ _ _ E) as (rest1 & -> & Hds & Hk).
  unfold SizePattern.fraction_gap_unit in Hk.
  assert (Hgap : forall t g' u', SizePattern.gap_unit t = Some (g', u') ->
            exists rest, t = g' ++ u' ++ rest
                         /\ all_chars Str.isspace g' = true
                         /\ In (Str.lower u') SizePattern.unit_alternatives).
  { intros t g' u' H. destruct (star_inv _ _ _ _ _ H) as (r & -> & Hg & Hu).
    destruct (match_unit_inv _ _ Hu) as (rest & -> & Hin). eauto. }
  assert (Hplain : option_map (pair EmptyString) (SizePattern.gap_unit rest1)
                   = Some (fr, (g, u)) ->
            exists rest, fr = EmptyString /\ rest1 = g ++ u ++ rest
                         /\ all_chars Str.isspace g = true
                         /\ In (Str.lower u) SizePattern.unit_alternatives).
  { destruct (SizePattern.gap_unit rest1) as [[g' u'] | ] eqn:Eg; cbn;
      [ | discriminate].
    intros [= <- <- <-]. destruct (Hgap _ _ _ Eg) as (rest & ? & ? & ?). eauto. }
  assert (Hcases :
            (exists f rest, fr = String "."%char f /\ digits f = true
                            /\ rest1 = fr ++ g ++ u ++ rest
                            /\ all_chars Str.isspace g = true
                            /\ In (Str.lower u) SizePattern.unit_alternatives)
            \/ (exists rest, fr = EmptyString /\ rest1 = g ++ u ++ rest
                             /\ all_chars Str.isspace g = true
                             /\ In (Str.lower u) SizePattern.unit_alternatives)).
  { destruct rest1 as [ | c r]; [right; now apply Hplain | ].
    destruct (Str.is_code 46 c) eqn:Hc; [ | right; now apply Hplain].
    destruct (SizePattern.plus Str.isdecimal SizePattern.gap_unit r)
      as [[f gu] | ] eqn:Ef; cbn in Hk; [ | right; now apply Hplain].
    left. destruct gu as [g' u']. injection Hk as <- <- <-.
    destruct (plus_inv _ _ _ _ _ Ef) as (r' & -> & Hf & Hgu).
    destruct (Hgap _ _ _ Hgu) as (rest & -> & Hg & Hin).
    assert (c = "."%char) as ->.
    { unfold Str.is_code, Str.code in Hc. apply N.eqb_eq in Hc.
      rewrite <- (ascii_N_embedding c), Hc. reflexivity. }
    exists f, rest. cbn. rewrite <- !append_assoc. auto. }
  unfold SizePattern.group0. cbn [SizePattern.number SizePattern.gap SizePattern.unit_text].
  destruct Hcases as [(f & rest & -> & Hf & -> & Hg & Hin) | (rest & -> & -> & Hg & Hin)].
  - exists ds, (Some f), rest. unfold decimal, well_formed_decimal, digits.
    rewrite Hds. rewrite !append_assoc. auto.
  - exists ds, None, rest. unfold decimal, well_formed_decimal, digits.
    rewrite Hds. rewrite !append_assoc. auto.
Qed.

Lemma search_inv (s : string) (m : SizePattern.t) :
  SizePattern.search s = Some m ->
  exists pre tail, s = pre ++ tail /\ SizePattern.match_here tail = Some m.
Proof.
  induction s as [ | c s IH]; cbn [SizePattern.search].
  - destruct (SizePattern.match_here EmptyString) eqn:E; [ | discriminate].
    intros [= <-]. exists EmptyString, EmptyString. auto.
  - destruct (SizePattern.match_here (String c s)) eqn:E.
    + intros [= <-]. exists EmptyString, (String c s). auto.
    + intros H. destruct (IH H) as (pre & tail & -> & Hm).
      exists (String c pre), tail. auto.
Qed.

Lemma match_here_digit (s : string) (m : SizePattern.t) :
  SizePattern.match_here s = Some m ->
  exists c s', s = String c s' /\ Str.isdecimal c = true.
Proof.
  unfold SizePattern.match_here, SizePattern.plus.
  destruct s as [ | c s]; [discriminate | ].
  destruct (Str.isdecimal c) eqn:Hc; [eauto | discriminate].
Qed.

Lemma search_no_digit (s : string) :
  no_digit s = true -> SizePattern.search s = None.
Proof.
  unfold no_digit. induction s as [ | c s IH]; cbn [all_chars SizePattern.search].
  - reflexivity.
  - intros H. apply andb_true_iff in H as [Hc Hs].
    destruct (SizePattern.match_here (String c s)) eqn:E; [ | now apply IH].
    destruct (match_here_digit _ _ E) as (c' & s' & [= <- <-] & Hd).
    rewrite Hd in Hc. discriminate.
Qed.

(** X1. A name without a decimal digit, the empty name included, yields
    the sentinel size: value 0, no unit, unit type "unknown", no matched
    text. *)
Theorem extract_size_no_digit (name : string) :
  no_digit name = true ->
  extract_size name = SizeInfo.mk 0 EmptyString "unknown" EmptyString.
Proof.
  intros H. unfold extract_size. now rewrite (search_no_digit name H).
Qed.

Lemma extract_size_no_digit_witness :
  extract_size "Fresh Coriander Leaves (bunch)"
  = SizeInfo.mk 0 EmptyString "unknown" EmptyString.
Proof. apply extract_size_no_digit. reflexivity. Defined.

Lemma digits_value_nonneg (s : string) (acc : Z) :
  (0 <= acc)%Z -> (0 <= Str.digits_value acc s)%Z.
Proof.
  revert acc. induction s as [ | c s IH]; intros acc H; cbn; [exact H | ].
  apply IH. unfold Str.digit_value. lia.
Qed.

Lemma float_go_nonneg (s : string) (acc : Z) :
  (0 <= acc)%Z -> 0 <= Str.float_go acc s.
Proof.
  revert acc. induction s as [ | c s IH]; intros acc H; cbn [Str.float_go].
  - change 0 with (inject_Z 0). now rewrite <- Zle_Qle.
  - destruct (Str.is_code 46 c).
    + assert (H1 : 0 <= inject_Z acc)
        by (change 0 with (inject_Z 0); now rewrite <- Zle_Qle).
      assert (H2 : 0 <= inject_Z (Str.digits_value 0 s))
        by (change 0 with (inject_Z 0); rewrite <- Zle_Qle;
            apply digits_value_nonneg; lia).
      assert (H3 : 0 < inject_Z (10 ^ Z.of_nat (String.length s)))
        by (change 0 with (inject_Z 0); rewrite <- Zlt_Qlt;
            apply Z.pow_pos_nonneg; lia).
      assert (H4 : 0 <= inject_Z (Str.digits_value 0 s)
                       / inject_Z (10 ^ Z.of_nat (String.length s)))
        by (apply Qle_shift_div_l; [exact H3 | lra]).
      lra.
    + apply IH. unfold Str.digit_value. lia.
Qed.

Lemma float_nonneg (s : string) : 0 <= Str.float s.
Proof. apply float_go_nonneg. lia. Qed.

Lemma contains_empty (s : string) : Str.contains EmptyString s = true.
Proof. destruct s; reflexivity. Qed.

Ltac lookup_conversion :=
  match goal with
  | |- context [conversions !! ?u] =>
      let v := eval vm_compute in (conversions !! u) in
      change (conversions !! u) with v
  end.

Lemma extract_size_facts (name : string) :
  0 <= SizeInfo.value (extract_size name)
  /\ In (SizeInfo.unit_type (extract_size name)) unit_types
  /\ Str.contains (SizeInfo.original (extract_size name)) name = true
  /\ (SizeInfo.unit_type (extract_size name) = "unknown"
      \/ In (SizeInfo.unit_type (extract_size name),
             SizeInfo.unit (extract_size name)) base_units).
Proof.
  unfold extract_size.
  destruct (SizePattern.search name) as [m | ] eqn:E.
  2:{ cbn. rewrite contains_empty. repeat split; auto; lra. }
  destruct (search_inv _ _ E) as (pre & tail & -> & Hm).
  destruct (match_here_inv _ _ Hm) as (whole & fraction & rest & -> & _ & _ & _ & Hu).
  pose proof (float_nonneg (SizePattern.number m)) as Hv.
  assert (Hc : Str.contains (SizePattern.group0 m)
                 (pre ++ SizePattern.group0 m ++ rest) = true)
    by apply contains_append.
  unfold SizePattern.unit_alternatives in Hu. cbn [In] in Hu.
  repeat destruct Hu as [Hu | Hu]; try contradiction; rewrite <- Hu;
    lookup_conversion; cbn [SizeInfo.value SizeInfo.unit_type SizeInfo.unit
                              SizeInfo.original];
    (split; [lra | ]); (split; [cbn; tauto | ]); (split; [exact Hc | ]);
    cbn; tauto.
Qed.

(** X4. Whatever the name, the size [extract_size] returns has a value that
    is not negative, one of the four unit types, a matched text that occurs
    in the name, and, unless the unit type is "unknown", the base unit of
    its unit type: "g" for weight, "ml" for volume, "pcs" or "each" for
    count. *)
Theorem extract_size_invariants (name : string) :
  0 <= SizeInfo.value (extract_size name)
  /\ In (SizeInfo.unit_type (extract_size name)) unit_types
  /\ Str.contains (SizeInfo.original (extract_size name)) name = true
  /\ (SizeInfo.unit_type (extract_size name) = "unknown"
      \/ In (SizeInfo.unit_type (extract_size name),
             SizeInfo.unit (extract_size name)) base_units).
Proof. apply extract_size_facts. Qed.

(** ** Units and their conversion *)

Lemma literal_lower (t tail : string) :
  SizePattern.literal (Str.lower t) (t ++ tail) = Some t.
Proof.
  induction t as [ | c t IH]; cbn; [reflexivity | ].
  now rewrite Ascii.eqb_refl, IH.
Qed.

Lemma literal_none (a s : string) :
  Str.startswith a (Str.lower s) = false -> SizePattern.literal a s = None.
Proof.
  unfold Str.startswith. revert s. induction a as [ | x a IH]; intros s.
  - destruct s; discriminate.
  - destruct s as [ | c s]; cbn; [reflexivity | ].
    destruct (Ascii.eqb_spec (Str.lower_char c) x) as [<- | Hne].
    + destruct (ascii_dec _ _); [ | contradiction].
      intros H. now rewrite (IH s H).
    + reflexivity.
Qed.

(** The unit the pattern reads is the first alternative that the text
    starts with, letter case apart. *)
Lemma match_unit_token (token tail : string) :
  List.find (fun a => Str.startswith a (Str.lower (token ++ tail)))
    SizePattern.unit_alternatives = Some (Str.lower token) ->
  SizePattern.match_unit (token ++ tail) = Some token.
Proof.
  unfold SizePattern.match_unit.
  induction SizePattern.unit_alternatives as [ | a alts IH]; cbn [List.find];
    [discriminate | ].
  cbn [SizePattern.first_alternative].
  destruct (Str.startswith a (Str.lower (token ++ tail))) eqn:E.
  - intros [= ->]. now rewrite literal_lower.
  - intros H. rewrite (literal_none _ _ E). now apply IH.
Qed.

Lemma letter_stops (c : ascii) :
  Str.between 97 122 (Str.lower_char c) = true ->
  Str.isspace c = false /\ Str.isdecimal c = false /\ Str.is_code 46 c = false.
Proof.
  destruct c as [[] [] [] [] [] [] [] []]; vm_compute; intros H;
    try discriminate H; repeat split; reflexivity.
Qed.

(** A number, blanks and a unit that the pattern reads in full. *)
Lemma match_here_token (whole : string) (fraction : option string)
    (gap : string) (c : ascii) (token tail : string) :
  well_formed_decimal whole fraction = true ->
  all_chars Str.isspace gap = true ->
  Str.between 97 122 (Str.lower_char c) = true ->
  SizePattern.match_unit (String c token ++ tail) = Some (String c token) ->
  SizePattern.match_here (decimal whole fraction ++ gap ++ String c token ++ tail)
  = Some (SizePattern.mk (decimal whole fraction) gap (String c token)).
Proof.
  intros Hnum Hgap Hc Hunit. unfold well_formed_decimal in Hnum.
  apply andb_true_iff in Hnum as [Hwhole Hfraction].
  destruct (letter_stops c Hc) as (Hspace & Hdigit & Hdot).
  assert (Sspace : stops Str.isspace (String c token ++ tail)) by exact Hspace.
  assert (Sdigit : stops Str.isdecimal (gap ++ String c token ++ tail)).
  { destruct gap as [ | b gap]; cbn; [exact Hdigit | ].
    cbn in Hgap. apply andb_true_iff in Hgap as [Hb _].
    now apply isspace_not_decimal. }
  assert (Sdot : stops (Str.is_code 46) (gap ++ String c token ++ tail)).
  { destruct gap as [ | b gap]; cbn; [exact Hdot | ].
    cbn in Hgap. apply andb_true_iff in Hgap as [Hb _].
    now apply isspace_not_decimal. }
  set (unit_text := String c token) in *.
  set (rest := unit_text ++ tail) in *. clearbody rest.
  assert (Hgu : SizePattern.gap_unit (gap ++ rest) = Some (gap, unit_text)).
  { unfold SizePattern.gap_unit.
    apply star_run; [exact Hgap | exact Sspace | exact Hunit]. }
  assert (Hk : SizePattern.fraction_gap_unit
                 (match fraction with
                  | Some f => String "."%char f
                  | None => EmptyString
                  end ++ gap ++ rest)
               = Some (match fraction with
                       | Some f => String "."%char f
                       | None => EmptyString
                       end, (gap, unit_text))).
  { unfold SizePattern.fraction_gap_unit. destruct fraction as [f | ]; cbn [append].
    - change (Str.is_code 46 "."%char) with true. cbv iota.
      now rewrite (plus_run Str.isdecimal SizePattern.gap_unit f _
                     (gap, unit_text) Hfraction Sdigit Hgu).
    - rewrite Hgu.
      destruct (gap ++ rest) as [ | b s]; [reflexivity | ].
      cbn in Sdot. now rewrite Sdot. }
  unfold SizePattern.match_here, decimal. rewrite append_assoc.
  erewrite plus_run; [ | exact Hwhole | | exact Hk].
  - reflexivity.
  - destruct fraction as [f | ]; [reflexivity | exact Sdigit].
Qed.

Lemma starts_with_letter_false (letter : ascii) (tail : string) :
  starts_with_letter letter tail = false ->
  Str.startswith (String letter EmptyString) (Str.lower tail) = false.
Proof.
  unfold Str.startswith. destruct tail as [ | c tail]; cbn; [reflexivity | ].
  destruct (Ascii.eqb_spec (Str.lower_char c) letter) as [ | Hne]; [discriminate | ].
  intros _. destruct (ascii_dec letter (Str.lower_char c)); [congruence | reflexivity].
Qed.

(** The alternatives that [read_in_full] lets through are read as they
    stand. *)
Lemma match_unit_read_in_full (token tail : string) :
  In (Str.lower token) SizePattern.unit_alternatives ->
  read_in_full (Str.lower token) tail = true ->
  SizePattern.match_unit (token ++ tail) = Some token
  /\ exists c token', token = String c token'
                      /\ Str.between 97 122 (Str.lower_char c) = true.
Proof.
  intros Hin Hfull.
  assert (Hfirst : exists c token', token = String c token'
                     /\ Str.between 97 122 (Str.lower_char c) = true).
  { destruct token as [ | c token'].
    - cbn in Hin. repeat destruct Hin as [Hin | Hin]; try discriminate; contradiction.
    - exists c, token'. split; [reflexivity | ]. cbn [Str.lower] in Hin.
      cbn in Hin.
      repeat destruct Hin as [Hin | Hin]; try contradiction;
        injection Hin as <- _; reflexivity. }
  split; [ | exact Hfirst].
  apply match_unit_token. rewrite lower_append.
  unfold read_in_full in Hfull.
  apply andb_true_iff in Hfull as [Hfull Hpc].
  apply andb_true_iff in Hfull as [Hgm Hl].
  assert (Hlb : String.eqb (Str.lower token) "l" = true ->
                Str.startswith "lb" ("l" ++ Str.lower tail) = false).
  { intros E. rewrite E in Hl. cbn [andb] in Hl.
    apply negb_true_iff, starts_with_letter_false in Hl. exact Hl. }
  assert (Hpcs : String.eqb (Str.lower token) "pc" = true ->
                 Str.startswith "pcs" ("pc" ++ Str.lower tail) = false).
  { intros E. rewrite E in Hpc. cbn [andb] in Hpc.
    apply negb_true_iff, starts_with_letter_false in Hpc. exact Hpc. }
  clear Hl Hpc. cbn in Hin.
  repeat destruct Hin as [Hin | Hin]; try contradiction; rewrite <- Hin in *;
    try discriminate Hgm;
    try (specialize (Hlb eq_refl)); try (specialize (Hpcs eq_refl));
    unfold SizePattern.unit_alternatives; cbn [List.find];
    repeat match goal with
           | |- context [Str.startswith ?a (?u ++ ?x)] =>
               first [ rewrite (startswith_append a x)
                     | rewrite Hlb
                     | rewrite Hpcs
                     | change (Str.startswith a (u ++ x)) with false ];
               cbv iota
           end;
    reflexivity.
Qed.

Lemma extract_size_token (pre whole : string) (fraction : option string)
    (gap token tail : string) :
  well_formed_decimal whole fraction = true ->
  all_chars Str.isspace gap = true ->
  no_match_before pre (decimal whole fraction ++ gap ++ token ++ tail) = true ->
  In (Str.lower token) SizePattern.unit_alternatives ->
  read_in_full (Str.lower token) tail = true ->
  extract_size (pre ++ decimal whole fraction ++ gap ++ token ++ tail)
  = match conversions !! Str.lower token with
    | Some (factor, base_unit, unit_type) =>
        SizeInfo.mk (Str.float (decimal whole fraction) * factor) base_unit
          unit_type (decimal whole fraction ++ gap ++ token)
    | None =>
        SizeInfo.mk (Str.float (decimal whole fraction)) (Str.lower token)
          "unknown" (decimal whole fraction ++ gap ++ token)
    end.
Proof.
  intros Hnum Hgap Hpre Hin Hfull.
  destruct (match_unit_read_in_full token tail Hin Hfull)
    as (Hunit & c & token' & -> & Hc).
  unfold extract_size. rewrite (search_skip _ _ Hpre).
  rewrite (search_here _ _
             (match_here_token whole fraction gap c token' tail Hnum Hgap Hc Hunit)).
  reflexivity.
Qed.

(** X2. The conversion table.  When the first number and unit token of a
    name is a number N, blanks and a unit of the table in any letter case,
    read in full ("gm" is read as "g", and "l" before a "b" as "lb"),
    [extract_size] returns N times the factor of the unit, its base unit and
    its unit type, and the matched text is N, the blanks and the unit as
    written. *)
Theorem extract_size_converts (pre whole : string) (fraction : option string)
    (gap token tail base_unit unit_type : string) (factor : Q) :
  well_formed_decimal whole fraction = true ->
  all_chars Str.isspace gap = true ->
  no_match_before pre (decimal whole fraction ++ gap ++ token ++ tail) = true ->
  conversions !! Str.lower token = Some (factor, base_unit, unit_type) ->
  read_in_full (Str.lower token) tail = true ->
  extract_size (pre ++ decimal whole fraction ++ gap ++ token ++ tail)
  = SizeInfo.mk (Str.float (decimal whole fraction) * factor) base_unit unit_type
      (decimal whole fraction ++ gap ++ token).
Proof.
  intros Hnum Hgap Hpre Hconv Hfull.
  assert (Hin : In (Str.lower token) SizePattern.unit_alternatives).
  { apply elem_of_list_to_map_2 in Hconv.
    rewrite !elem_of_cons, elem_of_nil in Hconv.
    repeat destruct Hconv as [Hconv | Hconv]; try contradiction;
      injection Hconv as -> _; cbn; tauto. }
  rewrite (extract_size_token pre whole fraction gap token tail
             Hnum Hgap Hpre Hin Hfull).
  now rewrite Hconv.
Qed.

Lemma extract_size_converts_witness :
  extract_size ("Amul Ghee " ++ decimal "1" (Some "5") ++ " " ++ "Lb" ++ " tin")
  = SizeInfo.mk (Str.float (decimal "1" (Some "5")) * 453.6) "g" "weight"
      (decimal "1" (Some "5") ++ " " ++ "Lb").
Proof.
  apply (extract_size_converts "Amul Ghee " "1" (Some "5") " " "Lb" " tin");
    reflexivity.
Defined.

(** X3. A count written "pc" (not "pcs") is matched by the pattern but has
    no entry in the conversion table: the size keeps the number as its
    value and "pc" as its unit, and its unit type is "unknown". *)
Theorem extract_size_pc (pre whole : string) (fraction : option string)
    (gap token tail : string) :
  well_formed_decimal whole fraction = true ->
  all_chars Str.isspace gap = true ->
  no_match_before pre (decimal whole fraction ++ gap ++ token ++ tail) = true ->
  Str.lower token = "pc" ->
  starts_with_letter "s" tail = false ->
  extract_size (pre ++ decimal whole fraction ++ gap ++ token ++ tail)
  = SizeInfo.mk (Str.float (decimal whole fraction)) "pc" "unknown"
      (decimal whole fraction ++ gap ++ token).
Proof.
  intros Hnum Hgap Hpre Hpc Htail.
  rewrite (extract_size_token pre whole fraction gap token tail Hnum Hgap Hpre).
  - now rewrite Hpc.
  - rewrite Hpc. cbn. tauto.
  - rewrite Hpc. unfold read_in_full. now rewrite Htail.
Qed.

Lemma extract_size_pc_witness :
  extract_size ("Steel Plate " ++ decimal "6" None ++ EmptyString ++ "pc" ++ " set")
  = SizeInfo.mk (Str.float (decimal "6" None)) "pc" "unknown"
      (decimal "6" None ++ EmptyString ++ "pc").
Proof.
  apply (extract_size_pc "Steel Plate " "6" None EmptyString "pc" " set");
    reflexivity.
Defined.

(** ** Size similarity: symmetry and range *)

Lemma Qltb_compat (x x' y y' : Q) :
  x == x' -> y == y' -> Py.Qltb x y = Py.Qltb x' y'.
Proof.
  intros Hx Hy. destruct (Py.Qltb x' y') eqn:E.
  - apply Qltb_lt. apply Qltb_lt in E. lra.
  - apply Qltb_ge. apply Qltb_ge in E. lra.
Qed.

Lemma ratio_score_compat (r r' : Q) : r == r' -> ratio_score r == ratio_score r'.
Proof.
  intros H. unfold ratio_score.
  rewrite (Qltb_compat (Qabs (r - 1.0)) (Qabs (r' - 1.0)) 0.02 0.02)
    by (try apply Qabs_wd; lra).
  rewrite (Qltb_compat r r' 0.5 0.5), (Qltb_compat r r' 0.75 0.75) by lra.
  destruct (Py.Qltb (Qabs (r' - 1.0)) 0.02); [reflexivity | ].
  destruct (Py.Qltb r' 0.5); [lra | ].
  destruct (Py.Qltb r' 0.75); lra.
Qed.

Lemma magnitude_ratio_sym (a b : SizeInfo.t) :
  ~ SizeInfo.value a == 0 -> ~ SizeInfo.value b == 0 ->
  magnitude_ratio a b == magnitude_ratio b a.
Proof.
  intros Ha Hb. unfold magnitude_ratio.
  rewrite (Q.min_comm (SizeInfo.value a)), (Q.max_comm (SizeInfo.value a)).
  reflexivity.
Qed.

(** X5. The size similarity does not depend on the order of the two
    sizes: both calls return, and they return equal numbers. *)
Theorem calculate_size_similarity_symmetric (a b : SizeInfo.t) :
  exists x y,
    calculate_size_similarity a b = Ok x
    /\ calculate_size_similarity b a = Ok y
    /\ x == y.
Proof.
  destruct (String.eqb_spec (SizeInfo.unit_type a) (SizeInfo.unit_type b))
    as [Hu | Hu].
  - destruct (Qeq_bool (SizeInfo.value a) 0) eqn:Ea;
      [ | destruct (Qeq_bool (SizeInfo.value b) 0) eqn:Eb].
    + exists 0.5, 0.5. unfold calculate_size_similarity.
      rewrite Hu, String.eqb_refl, Ea, orb_true_r. cbn. repeat split; reflexivity.
    + exists 0.5, 0.5. unfold calculate_size_similarity.
      rewrite Hu, String.eqb_refl, Eb, orb_true_r. cbn. repeat split; reflexivity.
    + apply Qeq_bool_false in Ea, Eb.
      rewrite (calculate_size_similarity_same_unit a b Hu Ea Eb).
      rewrite (calculate_size_similarity_same_unit b a (eq_sym Hu) Eb Ea).
      do 2 eexists. split; [reflexivity | split; [reflexivity | ]].
      apply ratio_score_compat. now apply magnitude_ratio_sym.
  - unfold calculate_size_similarity.
    rewrite (String.eqb_sym (SizeInfo.unit_type b) (SizeInfo.unit_type a)).
    apply String.eqb_neq in Hu. rewrite Hu. cbn [negb].
    rewrite (orb_comm (String.eqb (SizeInfo.unit_type b) "unknown")).
    destruct (_ || _); do 2 eexists; repeat split; reflexivity.
Qed.

Lemma ratio_score_range (r : Q) : 0 < r -> r <= 1 -> 0 < ratio_score r /\ ratio_score r <= 1.
Proof.
  intros H0 H1. unfold ratio_score.
  destruct (Py.Qltb (Qabs (r - 1.0)) 0.02); [split; lra | ].
  destruct (Py.Qltb r 0.5); [split; lra | ].
  destruct (Py.Qltb r 0.75); split; lra.
Qed.

Lemma calculate_size_similarity_nonneg_range (a b : SizeInfo.t) :
  0 <= SizeInfo.value a -> 0 <= SizeInfo.value b ->
  exists q, calculate_size_similarity a b = Ok q /\ 0 < q /\ q <= 1.
Proof.
  intros Ha Hb.
  destruct (String.eqb_spec (SizeInfo.unit_type a) (SizeInfo.unit_type b))
    as [Hu | Hu].
  - destruct (Qeq_bool (SizeInfo.value a) 0) eqn:Ea;
      [ | destruct (Qeq_bool (SizeInfo.value b) 0) eqn:Eb].
    + exists 0.5. unfold calculate_size_similarity.
      rewrite Hu, String.eqb_refl, Ea. cbn. repeat split; lra.
    + exists 0.5. unfold calculate_size_similarity.
      rewrite Hu, String.eqb_refl, Eb, orb_true_r. cbn. repeat split; lra.
    + apply Qeq_bool_false in Ea, Eb.
      rewrite (calculate_size_similarity_same_unit a b Hu Ea Eb).
      eexists. split; [reflexivity | ].
      apply ratio_score_range; apply magnitude_ratio_range; lra.
  - unfold calculate_size_similarity.
    apply String.eqb_neq in Hu. rewrite Hu. cbn [negb].
    destruct (_ || _); eexists; (split; [reflexivity | split; lra]).
Qed.

Lemma size_similarity_of_names (name1 name2 : string) :
  exists q,
    calculate_size_similarity (extract_size name1) (extract_size name2) = Ok q
    /\ 0 < q /\ q <= 1.
Proof.
  apply calculate_size_similarity_nonneg_range; apply extract_size_facts.
Qed.

(** X6. For the sizes extracted from any two names, the size similarity is
    returned without raising and lies in the interval from 0, excluded, to
    1, included. *)
Theorem calculate_size_similarity_range (name1 name2 : string) :
  exists q,
    calculate_size_similarity (extract_size name1) (extract_size name2) = Ok q
    /\ 0 < q /\ q <= 1.
Proof. apply size_similarity_of_names. Qed.

(** ** Construction of the forbidden rules *)

Lemma contains_char_append (ch : ascii) (a b : string) :
  Str.contains (String ch EmptyString) (a ++ b)
  = Str.contains (String ch EmptyString) a || Str.contains (String ch EmptyString) b.
Proof.
  induction a as [ | c a IH].
  - cbn [append]. destruct b; reflexivity.
  - cbn [append Str.contains]. rewrite IH, orb_assoc. f_equal.
    unfold Str.startswith. cbn.
    destruct (ascii_dec ch c); [ | reflexivity].
    destruct (a ++ b); destruct a; reflexivity.
Qed.

Lemma has_special_comm (a b : string) : has_special (a ++ b) = has_special (b ++ a).
Proof.
  unfold has_special. rewrite !contains_char_append.
  destruct (Str.contains "|" a), (Str.contains "|" b),
    (Str.contains ":" a), (Str.contains ":" b); reflexivity.
Qed.

Lemma parse_forbidden_pairs (pairs : list (list string))
    (fp : gset (string * string)) (pats : list (string * string)) (a b : string) :
  (a, b) ∈ fst (_parse_forbidden_rules pairs (fp, pats))
  <-> (a, b) ∈ fp
      \/ ((In [a; b] pairs \/ In [b; a] pairs) /\ has_special (a ++ b) = false).
Proof.
  revert fp pats. induction pairs as [ | entry pairs IH]; intros fp pats.
  - cbn. tauto.
  - cbn [_parse_forbidden_rules In].
    destruct entry as [ | x [ | y [ | z rest]]];
      try (rewrite IH; intuition discriminate).
    destruct (has_special (x ++ y)) eqn:Hs.
    + rewrite IH. split; [tauto | ].
      intros [H | [[[[= -> ->] | H] | [[= -> ->] | H]] Hn]]; try tauto.
      * congruence.
      * rewrite has_special_comm in Hs. congruence.
    + rewrite IH. rewrite !elem_of_union, !elem_of_singleton.
      assert (Hs' : has_special (y ++ x) = false)
        by (now rewrite has_special_comm).
      split.
      * intros [[Hyx | [Hxy | H]] | H].
        -- injection Hyx as -> ->. right. split; [right; now left | exact Hs'].
        -- injection Hxy as -> ->. right. split; [left; now left | exact Hs].
        -- now left.
        -- right. tauto.
      * intros [H | [[[Hxy | H] | [Hyx | H]] Hn]].
        -- left. tauto.
        -- injection Hxy as -> ->. left. tauto.
        -- right. tauto.
        -- injection Hyx as -> ->. left. tauto.
        -- right. tauto.
Qed.

Lemma parse_forbidden_patterns (pairs : list (list string))
    (fp : gset (string * string)) (pats : list (string * string)) :
  snd (_parse_forbidden_rules pairs (fp, pats)) = (pats ++ pattern_entries pairs)%list.
Proof.
  revert fp pats. induction pairs as [ | entry pairs IH]; intros fp pats.
  - cbn. now rewrite app_nil_r.
  - cbn [_parse_forbidden_rules pattern_entries flat_map].
    destruct entry as [ | x [ | y [ | z rest]]]; try apply IH.
    destruct (has_special (x ++ y)); [ | apply IH].
    rewrite IH. unfold Py.append. now rewrite <- app_assoc.
Qed.

Lemma init_forbidden (cfg : Config) :
  forbidden_pairs (init cfg) = fst (_parse_forbidden_rules (cfg_pairs cfg) (∅, []))
  /\ forbidden_patterns (init cfg)
     = snd (_parse_forbidden_rules (cfg_pairs cfg) (∅, [])).
Proof.
  unfold init. destruct (_parse_forbidden_rules (cfg_pairs cfg) (∅, [])).
  split; reflexivity.
Qed.

Lemma init_forbidden_pairs (cfg : Config) (a b : string) :
  (a, b) ∈ forbidden_pairs (init cfg)
  <-> (In [a; b] (cfg_pairs cfg) \/ In [b; a] (cfg_pairs cfg))
      /\ has_special (a ++ b) = false.
Proof.
  rewrite (proj1 (init_forbidden cfg)), parse_forbidden_pairs.
  rewrite elem_of_empty. tauto.
Qed.

Lemma init_forbidden_pairs_sym (cfg : Config) (a b : string) :
  (a, b) ∈ forbidden_pairs (init cfg) <-> (b, a) ∈ forbidden_pairs (init cfg).
Proof. rewrite !init_forbidden_pairs, (has_special_comm a b). tauto. Qed.

(** X7. The forbidden pairs of a constructed matcher are the two-element
    entries of the "pairs" table that contain neither '|' nor ':', each in
    both orders; so the set is symmetric, and entries of another length are
    ignored. *)
Theorem init_forbidden_pairs_symmetric (cfg : Config) (a b : string) :
  ((a, b) ∈ forbidden_pairs (init cfg)
   <-> (In [a; b] (cfg_pairs cfg) \/ In [b; a] (cfg_pairs cfg))
       /\ has_special (a ++ b) = false)
  /\ ((a, b) ∈ forbidden_pairs (init cfg) <-> (b, a) ∈ forbidden_pairs (init cfg)).
Proof. split; [apply init_forbidden_pairs | apply init_forbidden_pairs_sym]. Qed.

Lemma init_pattern_entries (cfg : Config) :
  forbidden_patterns (init cfg) = pattern_entries (cfg_pairs cfg).
Proof. rewrite (proj2 (init_forbidden cfg)). apply parse_forbidden_patterns. Qed.

Lemma pattern_entries_In (pairs : list (list string)) (a b : string) :
  In (a, b) (pattern_entries pairs)
  <-> In [a; b] pairs /\ has_special (a ++ b) = true.
Proof.
  unfold pattern_entries. rewrite in_flat_map. split.
  - intros (entry & Hin & H).
    destruct entry as [ | x [ | y [ | z rest]]]; try contradiction.
    destruct (has_special (x ++ y)) eqn:Hs; [ | contradiction].
    destruct H as [[= <- <-] | []]. auto.
  - intros [Hin Hs]. exists [a; b]. split; [exact Hin | ].
    rewrite Hs. now left.
Qed.

(** X8. The forbidden patterns of a constructed matcher are, in the order
    of the table, the two-element entries one of whose sides contains '|'
    or ':'; no entry is both a pair and a pattern. *)
Theorem init_forbidden_patterns (cfg : Config) :
  forbidden_patterns (init cfg) = pattern_entries (cfg_pairs cfg)
  /\ forall a b,
       In (a, b) (forbidden_patterns (init cfg))
       <-> In [a; b] (cfg_pairs cfg) /\ has_special (a ++ b) = true.
Proof.
  split; [apply init_pattern_entries | ].
  intros a b. rewrite init_pattern_entries. apply pattern_entries_In.
Qed.

(** ** The verdict of the rule engine *)

Lemma is_forbidden_match_named (self : ProductMatcher) (primary candidate : Product)
    (name1 name2 type1 subtype1 type2 subtype2 : string) :
  p_name primary = Some name1 ->
  p_name candidate = Some name2 ->
  exists flag reason,
    is_forbidden_match self primary candidate type1 subtype1 type2 subtype2
    = Ok (flag, reason)
    /\ Str.truthy reason = flag
    /\ (hard_coded_exclusion name1 name2 = true -> flag = true).
Proof.
  intros Hp Hc. unfold is_forbidden_match, getitem_name. rewrite Hp, Hc.
  cbn [bind]. unfold hard_coded_exclusion, mentions_any.
  destruct (bool_decide _); [do 2 eexists; repeat split; reflexivity | ].
  destruct (bool_decide _); [do 2 eexists; repeat split; reflexivity | ].
  destruct (_check_forbidden_patterns _ _ _ _ _ _ _);
    [do 2 eexists; repeat split; reflexivity | ].
  destruct (incompatible_hit _ _ _ _ _) as [[cat1 cat2] | ];
    [do 2 eexists; repeat split; reflexivity | ].
  destruct (_ && _ || _ && _); [do 2 eexists; repeat split; reflexivity | ].
  destruct (different_spices _ _) as [[spice1 spice2] | ];
    [do 2 eexists; repeat split; reflexivity | ].
  destruct (_ && _ || _ && _); do 2 eexists; repeat split; auto.
Qed.

(** X9. For two named products the rule engine returns a verdict without
    raising, and the reason it gives is non-empty exactly when the verdict is
    "forbidden". *)
Theorem is_forbidden_match_reason (self : ProductMatcher)
    (primary candidate : Product)
    (name1 name2 type1 subtype1 type2 subtype2 : string) :
  p_name primary = Some name1 ->
  p_name candidate = Some name2 ->
  exists flag reason,
    is_forbidden_match self primary candidate type1 subtype1 type2 subtype2
    = Ok (flag, reason)
    /\ Str.truthy reason = flag.
Proof.
  intros Hp Hc.
  destruct (is_forbidden_match_named self primary candidate name1 name2
              type1 subtype1 type2 subtype2 Hp Hc) as (flag & reason & E & Ht & _).
  eauto.
Qed.

Lemma is_forbidden_match_reason_witness :
  exists flag reason,
    is_forbidden_match sample_matcher
      (product 1 "Basmati Rice 5kg" None) (product 2 "Tata Salt 1kg" None)
      "rice" "basmati" "salt" "generic"
    = Ok (flag, reason)
    /\ Str.truthy reason = flag.
Proof.
  apply (is_forbidden_match_reason sample_matcher _ _
           "Basmati Rice 5kg" "Tata Salt 1kg"); reflexivity.
Defined.

(** X10. The hard-coded rules cannot be configured away: when the raw
    names of two products fall under one of them (baking powder against a
    spice, two different listed spices, coconut against curry), the
    confidence is 0.0 with a single warning, for every rule store and every
    backend. *)
Theorem calculate_confidence_hard_coded (self : ProductMatcher) (B : Backend)
    (primary candidate : Product) (name_p name_c : string) :
  p_name primary = Some name_p ->
  p_name candidate = Some name_c ->
  hard_coded_exclusion name_p name_c = true ->
  exists reason,
    calculate_confidence self B primary candidate = Ok (0.0, [reason])
    /\ Str.truthy reason = true.
Proof.
  intros Hp Hc Hx. unfold calculate_confidence, getitem_name.
  rewrite Hp, Hc. cbn [bind].
  destruct (classify_product self name_p) as [p_type p_subtype].
  destruct (classify_product self name_c) as [c_type c_subtype].
  destruct (is_forbidden_match_named self primary candidate name_p name_c
              p_type p_subtype c_type c_subtype Hp Hc)
    as (flag & reason & E & Ht & Hflag).
  rewrite E. cbn [bind]. rewrite (Hflag Hx) in *.
  exists reason. split; [reflexivity | exact Ht].
Qed.

Lemma calculate_confidence_hard_coded_witness :
  exists reason,
    calculate_confidence tiered_matcher sample_backend
      (product 1 "Maggi Coconut Milk Powder 300g" None)
      (product 2 "MDH Curry Powder 100g" None)
    = Ok (0.0, [reason])
    /\ Str.truthy reason = true.
Proof.
  apply (calculate_confidence_hard_coded tiered_matcher sample_backend _ _
           "Maggi Coconut Milk Powder 300g" "MDH Curry Powder 100g");
    reflexivity.
Defined.

Lemma incompatible_hit_sym (self : ProductMatcher)
    (type1 subtype1 type2 subtype2 : string) :
  incompatible_hit self type1 subtype1 type2 subtype2
  = incompatible_hit self type2 subtype2 type1 subtype1.
Proof.
  unfold incompatible_hit.
  induction (incompatible_categories self) as [ | entry entries IH];
    [reflexivity | ].
  cbn [fold_right]. rewrite IH.
  destruct entry as [ | cat1 [ | cat2 [ | cat3 rest]]]; try reflexivity.
  match goal with
  | |- (match (if ?c then _ else _) with _ => _ end)
       = (match (if ?d then _ else _) with _ => _ end) =>
      replace d with c; [reflexivity | ]
  end.
  destruct (String.eqb (type1 ++ ":" ++ subtype1) cat1),
    (String.eqb (type2 ++ ":" ++ subtype2) cat2),
    (String.eqb (type1 ++ ":" ++ subtype1) cat2),
    (String.eqb (type2 ++ ":" ++ subtype2) cat1),
    (String.eqb type1 cat1), (String.eqb type2 cat2),
    (String.eqb type1 cat2), (String.eqb type2 cat1); reflexivity.
Qed.

Lemma different_spices_sym (a b : string) :
  match different_spices a b with Some _ => true | None => false end
  = match different_spices b a with Some _ => true | None => false end.
Proof.
  unfold different_spices.
  destruct (first_spice a) as [x | ], (first_spice b) as [y | ]; try reflexivity.
  rewrite (String.eqb_sym y x), (andb_comm (Str.truthy y)).
  destruct (Str.truthy x && Str.truthy y && negb (String.eqb x y)); reflexivity.
Qed.

(** X11. Pattern rules apart, the verdict of the rule engine does not
    depend on the order of the two products: for a constructed matcher
    without forbidden patterns, swapping the products and their
    classifications gives the same flag (the reasons may name the two sides
    in the other order). *)
Theorem is_forbidden_match_symmetric (cfg : Config) (primary candidate : Product)
    (name1 name2 type1 subtype1 type2 subtype2 : string) :
  forbidden_patterns (init cfg) = [] ->
  p_name primary = Some name1 ->
  p_name candidate = Some name2 ->
  exists flag reason reason',
    is_forbidden_match (init cfg) primary candidate type1 subtype1 type2 subtype2
    = Ok (flag, reason)
    /\ is_forbidden_match (init cfg) candidate primary type2 subtype2 type1 subtype1
       = Ok (flag, reason').
Proof.
  intros Hpat Hp Hc. unfold is_forbidden_match, getitem_name.
  rewrite Hp, Hc. cbn [bind].
  rewrite (bool_decide_ext _ _
             (init_forbidden_pairs_sym cfg (type2 ++ ":" ++ subtype2)
                (type1 ++ ":" ++ subtype1))).
  destruct (bool_decide _); [do 3 eexists; split; reflexivity | ].
  rewrite (bool_decide_ext _ _ (init_forbidden_pairs_sym cfg type2 type1)).
  destruct (bool_decide _); [do 3 eexists; split; reflexivity | ].
  unfold _check_forbidden_patterns. rewrite Hpat. cbn [existsb].
  rewrite (incompatible_hit_sym (init cfg) type2 subtype2 type1 subtype1).
  destruct (incompatible_hit _ _ _ _ _) as [[cat1 cat2] | ];
    [do 3 eexists; split; reflexivity | ].
  match goal with
  | |- context [if ?c || ?d then _ else _] =>
      rewrite (orb_comm d c); destruct (c || d)
  end; [do 3 eexists; split; reflexivity | ].
  pose proof (different_spices_sym (Str.lower name1) (Str.lower name2)) as Hs.
  destruct (different_spices (Str.lower name1) (Str.lower name2)) as [[x y] | ];
    destruct (different_spices (Str.lower name2) (Str.lower name1)) as [[x' y'] | ];
    try discriminate Hs; [do 3 eexists; split; reflexivity | ].
  rewrite (andb_comm (Str.contains "coconut" (Str.lower name2))),
    (andb_comm (Str.contains "curry" (Str.lower name2))).
  match goal with
  | |- context [if ?c || ?d then _ else _] =>
      rewrite (orb_comm d c); destruct (c || d)
  end; do 3 eexists; split; reflexivity.
Qed.

Lemma is_forbidden_match_symmetric_witness :
  exists flag reason reason',
    is_forbidden_match (init tiered_config)
      (product 1 "Everest Turmeric Powder 200g" None)
      (product 2 "Badshah Coriander Powder 200g" None)
      "other" "generic" "other" "generic"
    = Ok (flag, reason)
    /\ is_forbidden_match (init tiered_config)
         (product 2 "Badshah Coriander Powder 200g" None)
         (product 1 "Everest Turmeric Powder 200g" None)
         "other" "generic" "other" "generic"
       = Ok (flag, reason').
Proof.
  apply (is_forbidden_match_symmetric tiered_config _ _
           "Everest Turmeric Powder 200g" "Badshah Coriander Powder 200g");
    reflexivity.
Defined.

(** ** Words and brands *)

Lemma contains_startswith (w s : string) :
  Str.startswith w s = true -> Str.contains w s = true.
Proof. intros H. destruct s; cbn [Str.contains]; now rewrite H. Qed.

Lemma contains_tail (w : string) (c : ascii) (s : string) :
  Str.contains w s = true -> Str.contains w (String c s) = true.
Proof. intros H. cbn [Str.contains]. rewrite H. apply orb_true_r. Qed.

Lemma startswith_cons (c : ascii) (w s : string) :
  Str.startswith w s = true -> Str.startswith (String c w) (String c s) = true.
Proof.
  unfold Str.startswith. cbn. intros H.
  destruct (ascii_dec c c); [exact H | contradiction].
Qed.

Lemma startswith_empty (s : string) : Str.startswith EmptyString s = true.
Proof. destruct s; reflexivity. Qed.

Lemma In_push_word (x w : string) (ws : list string) :
  In x (Str.push_word w ws) -> x = w \/ In x ws.
Proof. destruct w; cbn; [tauto | intros [<- | H]; auto]. Qed.

(** The word being read starts the text; the words read occur in it. *)
Lemma split_go_contains (s : string) :
  Str.startswith (fst (Str.split_go s)) s = true
  /\ forall x, In x (snd (Str.split_go s)) -> Str.contains x s = true.
Proof.
  induction s as [ | c s [IHw IHws]]; cbn [Str.split_go].
  - split; [reflexivity | intros x []].
  - destruct (Str.split_go s) as [w ws]. cbn [fst snd] in *.
    destruct (Str.isspace c); cbn [fst snd]; split.
    + apply startswith_empty.
    + intros x Hx. apply contains_tail.
      apply In_push_word in Hx as [-> | Hx];
        [now apply contains_startswith | now apply IHws].
    + now apply startswith_cons.
    + intros x Hx. apply contains_tail. now apply IHws.
Qed.

(** Every word of [s.split()] occurs in [s]. *)
Lemma split_contains (s x : string) :
  In x (Str.split s) -> Str.contains x s = true.
Proof.
  unfold Str.split. destruct (split_go_contains s) as [Hw Hws].
  destruct (Str.split_go s) as [w ws]. cbn [fst snd] in *.
  intros Hx. apply In_push_word in Hx as [-> | Hx];
    [now apply contains_startswith | now apply Hws].
Qed.

Lemma find_ext {A : Type} (f g : A -> bool) (l : list A) :
  (forall x, f x = g x) -> List.find f l = List.find g l.
Proof.
  intros H. induction l as [ | x l IH]; cbn; [reflexivity | ].
  now rewrite H, IH.
Qed.

(** X12. The word test of [_extract_brand] adds nothing to the substring
    test: the brand returned is the first brand of the set, in iteration
    order, whose lowercase form occurs anywhere in the lowercased name, even
    inside a longer word; it is a brand of the set, and there is none when
    no brand occurs. *)
Theorem _extract_brand_substring (self : ProductMatcher) (name : string) :
  _extract_brand self name
  = List.find (fun brand => Str.contains (Str.lower brand) (Str.lower name))
      (brand_set self)
  /\ match _extract_brand self name with
     | Some brand =>
         In brand (brand_set self)
         /\ Str.contains (Str.lower brand) (Str.lower name) = true
     | None =>
         forallb (fun brand =>
                    negb (Str.contains (Str.lower brand) (Str.lower name)))
           (brand_set self) = true
     end.
Proof.
  assert (E : _extract_brand self name
              = List.find (fun brand => Str.contains (Str.lower brand) (Str.lower name))
                  (brand_set self)).
  { unfold _extract_brand. apply find_ext. intros brand.
    destruct (Str.contains (Str.lower brand) (Str.lower name)) eqn:Hc;
      [apply orb_true_r | ].
    rewrite orb_false_r.
    destruct (existsb _ _) eqn:Hw; [ | reflexivity].
    apply existsb_exists in Hw as (w & Hin & Heq).
    apply String.eqb_eq in Heq as <-.
    now rewrite (split_contains _ _ Hin) in Hc. }
  split; [exact E | ]. rewrite E. clear E.
  induction (brand_set self) as [ | b bs IH]; cbn [List.find forallb]; [reflexivity | ].
  destruct (Str.contains (Str.lower b) (Str.lower name)) eqn:Hc; cbn [negb andb].
  - split; [now left | exact Hc].
  - destruct (List.find _ bs); [ | exact IH].
    destruct IH as [Hin Hb]. split; [now right | exact Hb].
Qed.

(** ** Hybrid similarity: range and early exits *)

Lemma fuzzy_range (r : Z) :
  (0 <= r <= 100)%Z -> 0 <= inject_Z r / 100.0 /\ inject_Z r / 100.0 <= 1.
Proof.
  intros [H0 H1].
  assert (Q0 : 0 <= inject_Z r)
    by (change 0 with (inject_Z 0); now rewrite <- Zle_Qle).
  assert (Q1 : inject_Z r <= 100)
    by (change 100 with (inject_Z 100); now rewrite <- Zle_Qle).
  split.
  - apply Qle_shift_div_l; lra.
  - apply Qle_shift_div_r; lra.
Qed.

(** X13. With a cosine between -1 and 1 and a fuzzy ratio between 0 and
    100, the hybrid similarity lies between -0.4 and 1: the brand bonus is
    capped at 1, and nothing caps the score from below, so that it is
    negative only when the cosine is. *)
Theorem calculate_hybrid_similarity_range (self : ProductMatcher) (B : Backend) :
  (forall x y, -1 <= cosine_similarity B x y /\ cosine_similarity B x y <= 1) ->
  (forall s t, (0 <= token_sort_ratio B s t <= 100)%Z) ->
  forall name1 name2,
    -0.4 <= calculate_hybrid_similarity self B name1 name2
    /\ calculate_hybrid_similarity self B name1 name2 <= 1
    /\ ((forall x y, 0 <= cosine_similarity B x y) ->
        0 <= calculate_hybrid_similarity self B name1 name2).
Proof.
  intros Hcos Hfuzz name1 name2. unfold calculate_hybrid_similarity.
  destruct (_ || _); [split; [lra | split; [lra | intros _; lra]] | ].
  destruct (size _ =? 0)%nat; [split; [lra | split; [lra | intros _; lra]] | ].
  set (norm1 := normalize_name name1). set (norm2 := normalize_name name2).
  destruct (Hcos (model_encode B norm1) (model_encode B norm2)) as [C0 C1].
  destruct (fuzzy_range _ (Hfuzz norm1 norm2)) as [F0 F1].
  set (c := cosine_similarity B (model_encode B norm1) (model_encode B norm2)) in *.
  set (f := inject_Z (token_sort_ratio B norm1 norm2) / 100.0) in *.
  assert (Hpos : (forall x y, 0 <= cosine_similarity B x y) -> 0 <= c)
    by (intros H; apply H).
  clearbody c f.
  destruct (_ && _).
  - split; [apply Q.min_glb; lra | ].
    split; [apply Qle_trans with 1.0; [apply Q.le_min_r | lra] | ].
    intros H. specialize (Hpos H). apply Q.min_glb; lra.
  - destruct (_ && _ && _);
      (split; [lra | split; [lra | intros H; specialize (Hpos H); lra]]).
Qed.

Lemma calculate_hybrid_similarity_range_witness :
  -0.4 <= calculate_hybrid_similarity sample_matcher sample_backend
            "Tata Salt 1kg" "Everest Rock Salt 500g"
  /\ calculate_hybrid_similarity sample_matcher sample_backend
       "Tata Salt 1kg" "Everest Rock Salt 500g" <= 1
  /\ ((forall x y, 0 <= cosine_similarity sample_backend x y) ->
      0 <= calculate_hybrid_similarity sample_matcher sample_backend
             "Tata Salt 1kg" "Everest Rock Salt 500g").
Proof.
  apply (calculate_hybrid_similarity_range sample_matcher sample_backend).
  - intros x y. cbn. destruct (String.eqb x y); split; lra.
  - intros s t. cbn. destruct (String.eqb s t); lia.
Defined.

Lemma hybrid_without_common_words (self : ProductMatcher) (B : Backend)
    (name1 name2 : string) :
  size (normalized_words name1 ∩ normalized_words name2) = 0%nat ->
  Py.Qltb (calculate_hybrid_similarity self B name1 name2) 0.3 = true.
Proof.
  intros H. unfold calculate_hybrid_similarity.
  destruct (_ || _); [reflexivity | ].
  fold (normalized_words name1). fold (normalized_words name2).
  now rewrite H.
Qed.

(** X14. Two named products whose normalized names have no word in common
    get the confidence 0.0 with a single warning, for every rule store and
    every backend: either the rule engine forbids the pair, or the
    similarity is 0.0 or 0.1 and the pair is rejected as too dissimilar,
    without the backend being consulted. *)
Theorem calculate_confidence_no_common_word (self : ProductMatcher) (B : Backend)
    (primary candidate : Product) (name_p name_c : string) :
  p_name primary = Some name_p ->
  p_name candidate = Some name_c ->
  size (normalized_words name_p ∩ normalized_words name_c) = 0%nat ->
  exists warning,
    calculate_confidence self B primary candidate = Ok (0.0, [warning]).
Proof.
  intros Hp Hc Hw. unfold calculate_confidence, getitem_name.
  rewrite Hp, Hc. cbn [bind].
  destruct (classify_product self name_p) as [p_type p_subtype].
  destruct (classify_product self name_c) as [c_type c_subtype].
  destruct (is_forbidden_match_named self primary candidate name_p name_c
              p_type p_subtype c_type c_subtype Hp Hc)
    as (flag & reason & E & _).
  rewrite E. cbn [bind]. destruct flag; [eexists; reflexivity | ].
  rewrite (hybrid_without_common_words self B name_p name_c Hw).
  eexists. reflexivity.
Qed.

Lemma calculate_confidence_no_common_word_witness :
  exists warning,
    calculate_confidence sample_matcher sample_backend
      (product 1 "Amul Butter 500g" None) (product 2 "Fresh Paneer 1kg" None)
    = Ok (0.0, [warning]).
Proof.
  apply (calculate_confidence_no_common_word sample_matcher sample_backend _ _
           "Amul Butter 500g" "Fresh Paneer 1kg"); reflexivity.
Defined.

(** ** Normalized names *)

Lemma all_chars_append (cls : ascii -> bool) (s t : string) :
  all_chars cls (s ++ t) = all_chars cls s && all_chars cls t.
Proof.
  induction s as [ | c s IH]; cbn; [reflexivity | ].
  now rewrite IH, andb_assoc.
Qed.

Lemma split_go_chars (cls : ascii -> bool) (s : string) :
  all_chars cls s = true ->
  all_chars cls (fst (Str.split_go s)) = true
  /\ Forall (fun w => all_chars cls w = true) (snd (Str.split_go s)).
Proof.
  induction s as [ | c s IH]; cbn [Str.split_go all_chars].
  - split; [reflexivity | constructor].
  - intros H. apply andb_true_iff in H as [Hc Hs].
    destruct (IH Hs) as [Hw Hws].
    destruct (Str.split_go s) as [w ws]. cbn [fst snd] in *.
    destruct (Str.isspace c); cbn [fst snd all_chars].
    + split; [reflexivity | ]. destruct w; cbn; [exact Hws | now constructor].
    + rewrite Hc, Hw. split; [reflexivity | exact Hws].
Qed.

Lemma split_go_clean (s : string) :
  all_chars (fun c => negb (Str.isspace c)) (fst (Str.split_go s)) = true
  /\ Forall (fun w => clean_word w = true) (snd (Str.split_go s)).
Proof.
  induction s as [ | c s [IHw IHws]]; cbn [Str.split_go].
  - split; [reflexivity | constructor].
  - destruct (Str.split_go s) as [w ws]. cbn [fst snd] in *.
    destruct (Str.isspace c) eqn:Hc; cbn [fst snd all_chars].
    + split; [reflexivity | ].
      destruct w; cbn [Str.push_word]; [exact IHws | ].
      constructor; [ | exact IHws]. unfold clean_word. now rewrite IHw.
    + rewrite Hc, IHw. split; [reflexivity | exact IHws].
Qed.

Lemma Forall_push_word (P : string -> Prop) (w : string) (ws : list string) :
  (Str.truthy w = true -> P w) -> Forall P ws -> Forall P (Str.push_word w ws).
Proof. destruct w; cbn; [auto | intros H Hws; constructor; auto]. Qed.

Lemma split_clean (s : string) : Forall (fun w => clean_word w = true) (Str.split s).
Proof.
  unfold Str.split. destruct (split_go_clean s) as [Hw Hws].
  destruct (Str.split_go s) as [w ws]. cbn [fst snd] in *.
  apply Forall_push_word; [ | exact Hws].
  intros Ht. unfold clean_word. now rewrite Ht, Hw.
Qed.

Lemma split_chars (cls : ascii -> bool) (s : string) :
  all_chars cls s = true -> Forall (fun w => all_chars cls w = true) (Str.split s).
Proof.
  intros H. unfold Str.split. destruct (split_go_chars cls s H) as [Hw Hws].
  destruct (Str.split_go s) as [w ws]. cbn [fst snd] in *.
  apply Forall_push_word; auto.
Qed.

Lemma split_go_word (w s : string) :
  all_chars (fun c => negb (Str.isspace c)) w = true ->
  Str.split_go (w ++ s) = (w ++ fst (Str.split_go s), snd (Str.split_go s)).
Proof.
  intros Hw. induction w as [ | c w IH]; cbn [append Str.split_go].
  - now destruct (Str.split_go s).
  - cbn in Hw. apply andb_true_iff in Hw as [Hc Hw].
    rewrite (IH Hw). apply negb_true_iff in Hc. now rewrite Hc.
Qed.

(** Splitting the single-space join of clean words gives the words back. *)
Lemma split_join (ws : list string) :
  Forall (fun w => clean_word w = true) ws ->
  Str.split (Str.join " " ws) = ws.
Proof.
  unfold Str.join, Str.split.
  induction 1 as [ | w ws Hw Hws IH]; [reflexivity | ].
  unfold clean_word in Hw. apply andb_true_iff in Hw as [Ht Hc].
  destruct ws as [ | w' ws].
  - cbn [String.concat]. rewrite <- (append_nil_r w) at 1.
    rewrite (split_go_word w EmptyString Hc). cbn. rewrite append_nil_r.
    now destruct w.
  - change (String.concat " " (w :: w' :: ws))
      with (w ++ String " " (String.concat " " (w' :: ws))).
    rewrite (split_go_word w _ Hc).
    change (Str.split_go (String " " (String.concat " " (w' :: ws))))
      with (let '(x, xs) := Str.split_go (String.concat " " (w' :: ws)) in
            (EmptyString, Str.push_word x xs)).
    destruct (Str.split_go (String.concat " " (w' :: ws))) as [x xs].
    cbn [fst snd]. rewrite append_nil_r. rewrite IH. now destruct w.
Qed.

Lemma lower_char_idem (c : ascii) :
  Ascii.eqb (Str.lower_char (Str.lower_char c)) (Str.lower_char c) = true.
Proof. destruct c as [[] [] [] [] [] [] [] []]; reflexivity. Qed.

Lemma lower_chars (s : string) :
  all_chars (fun c => Ascii.eqb (Str.lower_char c) c) (Str.lower s) = true.
Proof.
  induction s as [ | c s IH]; cbn; [reflexivity | ].
  now rewrite lower_char_idem, IH.
Qed.

Lemma lstrip_chars (cls : ascii -> bool) (s : string) :
  all_chars cls s = true -> all_chars cls (Str.lstrip s) = true.
Proof.
  induction s as [ | c s IH]; cbn [Str.lstrip]; [auto | ].
  intros H. destruct (Str.isspace c); [ | exact H].
  cbn in H. apply andb_true_iff in H as [_ H]. auto.
Qed.

Lemma rstrip_chars (cls : ascii -> bool) (s : string) :
  all_chars cls s = true -> all_chars cls (Str.rstrip s) = true.
Proof.
  induction s as [ | c s IH]; cbn [Str.rstrip]; [auto | ].
  intros H. cbn in H. apply andb_true_iff in H as [Hc H].
  specialize (IH H).
  destruct (Str.rstrip s); [destruct (Str.isspace c) | ]; cbn in *;
    rewrite ?Hc, ?IH; reflexivity.
Qed.

Lemma sub_nonword_chars (s : string) :
  all_chars (fun c => Ascii.eqb (Str.lower_char c) c) s = true ->
  all_chars normal_char (Str.sub_nonword s) = true.
Proof.
  induction s as [ | c s IH]; cbn [Str.sub_nonword all_chars]; [auto | ].
  intros H. apply andb_true_iff in H as [Hc H]. rewrite (IH H), andb_true_r.
  unfold normal_char. destruct (Str.isword c || Str.isspace c) eqn:E.
  - now rewrite Hc, E.
  - reflexivity.
Qed.

Lemma all_chars_eqb_lower (w : string) :
  all_chars (fun c => Ascii.eqb (Str.lower_char c) c) w = true -> Str.lower w = w.
Proof.
  induction w as [ | c w IH]; cbn; [reflexivity | ].
  intros H. apply andb_true_iff in H as [Hc H].
  apply Ascii.eqb_eq in Hc. now rewrite Hc, (IH H).
Qed.

Lemma all_chars_impl (P Q : ascii -> bool) (s : string) :
  (forall c, P c = true -> Q c = true) ->
  all_chars P s = true -> all_chars Q s = true.
Proof.
  intros HPQ. induction s as [ | c s IH]; cbn; [auto | ].
  intros H. apply andb_true_iff in H as [Hc H]. now rewrite (HPQ c Hc), (IH H).
Qed.

Lemma all_chars_and (P Q : ascii -> bool) (s : string) :
  all_chars P s = true -> all_chars Q s = true ->
  all_chars (fun c => P c && Q c) s = true.
Proof.
  induction s as [ | c s IH]; cbn; [auto | ].
  intros H1 H2. apply andb_true_iff in H1 as [-> H1], H2 as [-> H2].
  now rewrite (IH H1 H2).
Qed.

Lemma normalize_name_facts (name : string) :
  normalize_name name = Str.join " " (Str.split (normalize_name name))
  /\ Forall (fun w => (w ∉ stop_words)
                      /\ Str.truthy w = true
                      /\ all_chars Str.isword w = true
                      /\ Str.lower w = w)
       (Str.split (normalize_name name)).
Proof.
  unfold normalize_name.
  set (stripped := Str.strip (Str.lower _)).
  assert (Hlow : all_chars (fun c => Ascii.eqb (Str.lower_char c) c) stripped = true).
  { unfold stripped, Str.strip. apply rstrip_chars, lstrip_chars, lower_chars. }
  clearbody stripped.
  set (text := Str.sub_nonword stripped).
  assert (Hnormal : all_chars normal_char text = true)
    by now apply sub_nonword_chars.
  clearbody text.
  set (words := List.filter _ (Str.split text)).
  assert (Hclean : Forall (fun w => clean_word w = true) words).
  { unfold words. apply List.Forall_forall. intros w Hw.
    apply List.filter_In in Hw as [Hw _].
    pose proof (split_clean text) as H. rewrite List.Forall_forall in H. auto. }
  rewrite (split_join words Hclean). split; [reflexivity | ].
  apply List.Forall_forall. intros w Hw.
  pose proof Hw as Hw'. unfold words in Hw'.
  apply List.filter_In in Hw' as [Hsplit Hstop].
  rewrite List.Forall_forall in Hclean. specialize (Hclean w Hw).
  unfold clean_word in Hclean. apply andb_true_iff in Hclean as [Ht Hns].
  pose proof (split_chars normal_char text Hnormal) as Hn.
  rewrite List.Forall_forall in Hn. specialize (Hn w Hsplit).
  split; [ | split; [exact Ht | split]].
  - apply negb_true_iff, bool_decide_eq_false in Hstop. exact Hstop.
  - pose proof (all_chars_and _ _ w Hn Hns) as H.
    revert H. apply all_chars_impl. intros c. unfold normal_char.
    destruct (Str.isword c), (Str.isspace c), (Ascii.eqb (Str.lower_char c) c);
      cbn; intros; congruence.
  - apply all_chars_eqb_lower. revert Hn. apply all_chars_impl.
    intros c H. unfold normal_char in H. now apply andb_true_iff in H as [H _].
Qed.

(** X15. The normalized name is the single-space join of its words, so it
    has no leading, trailing or doubled blank; none of its words is a stop
    word; and each word is non-empty, lowercase and made of word characters
    only (no punctuation). *)
Theorem normalize_name_words (name : string) :
  normalize_name name = Str.join " " (Str.split (normalize_name name))
  /\ Forall (fun w => (w ∉ stop_words)
                      /\ Str.truthy w = true
                      /\ all_chars Str.isword w = true
                      /\ Str.lower w = w)
       (Str.split (normalize_name name)).
Proof. apply normalize_name_facts. Qed.

(** ** The most specific category *)

Lemma tuple_ltb_lower_priority (x y : candidate_tuple) :
  (fst (fst (fst x)) < fst (fst (fst y)))%nat -> tuple_ltb x y = true.
Proof.
  destruct x as [[[p1 t1] s1] k1], y as [[[p2 t2] s2] k2].
  unfold tuple_ltb. cbn [fst snd]. intros H.
  destruct (Nat.eqb_spec p1 p2) as [-> | _]; [lia | ].
  cbn [negb]. now apply Nat.ltb_lt.
Qed.

Lemma earliest_highest_priority_spec (ms : list candidate_tuple) :
  match earliest_highest_priority ms with
  | Some best =>
      In best ms
      /\ forall m, In m ms -> (fst (fst (fst m)) <= fst (fst (fst best)))%nat
  | None => ms = []
  end.
Proof.
  induction ms as [ | m ms IH]; cbn [earliest_highest_priority]; [reflexivity | ].
  destruct (earliest_highest_priority ms) as [best | ].
  - destruct IH as [Hin Hmax].
    destruct (Nat.ltb_spec (fst (fst (fst m))) (fst (fst (fst best)))) as [Hlt | Hge].
    + split; [now right | ]. intros m' [<- | Hm']; [lia | now apply Hmax].
    + split; [now left | ]. intros m' [<- | Hm']; [lia | ].
      specialize (Hmax m' Hm'). lia.
  - subst ms. split; [now left | ]. intros m' [<- | []]. lia.
Qed.

(** X16. When one of the categories that match a name has more keywords
    than every other matching category of a different classification, the
    classifier returns its type and subtype, wherever it is declared; in that
    case the rule of the specification (the earliest declared wins a tie)
    gives the same answer. *)
Theorem classify_product_most_specific (self : ProductMatcher) (name : string)
    (c : Category) (keyword : string) :
  In c (categories self) ->
  first_keyword (working_name self name) c = Some keyword ->
  outranks self name c = true ->
  classify_product self name = (cat_type c, default "generic" (cat_subtype c))
  /\ classify_product_spec self name
     = (cat_type c, default "generic" (cat_subtype c)).
Proof.
  intros Hc Hk Hout.
  assert (Hin : In (tuple_of c keyword)
                  (collect_matches (categories self) (working_name self name)))
    by (apply collect_matches_In; eauto).
  assert (Hrank : forall m,
             In m (collect_matches (categories self) (working_name self name)) ->
             (fst (fst (fst (tuple_of c keyword))) <= fst (fst (fst m)))%nat ->
             (snd (fst (fst m)), snd (fst m))
             = (cat_type c, default "generic" (cat_subtype c))).
  { intros m Hm Hle. apply collect_matches_In in Hm as (c' & k' & Hc' & Hk' & ->).
    unfold outranks in Hout. rewrite forallb_forall in Hout.
    specialize (Hout c' Hc'). rewrite Hk' in Hout.
    apply orb_true_iff in Hout as [Hlt | Hsame].
    - apply Nat.ltb_lt in Hlt. cbn in Hle. lia.
    - apply andb_true_iff in Hsame as [Ht Hs].
      apply String.eqb_eq in Ht, Hs. cbn. congruence. }
  split.
  - unfold classify_product. fold (working_name self name).
    destruct (Py.sort_reverse tuple_ltb
                (collect_matches (categories self) (working_name self name)))
      as [ | m rest] eqn:E.
    + apply (sort_reverse_In tuple_ltb) in Hin. rewrite E in Hin. contradiction.
    + assert (Hm : In m (collect_matches (categories self) (working_name self name))).
      { apply (sort_reverse_In tuple_ltb). rewrite E. now left. }
      assert (Hnb : tuple_ltb m (tuple_of c keyword) = false).
      { eapply sort_reverse_head; [ | | exact E | exact Hin].
        - apply (compare_asym _ _ tuple_compare_order tuple_ltb_compare).
        - apply (compare_negtrans _ _ tuple_compare_order tuple_ltb_compare). }
      apply tuple_ltb_priority in Hnb.
      specialize (Hrank m Hm Hnb).
      destruct m as [[[p ty] subtype] k]. exact Hrank.
  - unfold classify_product_spec.
    pose proof (earliest_highest_priority_spec
                  (collect_matches (categories self) (working_name self name))) as H.
    destruct (earliest_highest_priority _) as [best | ].
    + destruct H as [Hbest Hmax].
      specialize (Hrank best Hbest (Hmax _ Hin)).
      destruct best as [[[p ty] subtype] k]. exact Hrank.
    + rewrite H in Hin. contradiction.
Qed.

Lemma classify_product_most_specific_witness :
  classify_product sample_matcher "Turmeric Basmati Rice Mix with Salt"
  = ("spice", "powder")
  /\ classify_product_spec sample_matcher "Turmeric Basmati Rice Mix with Salt"
     = ("spice", "powder").
Proof.
  apply (classify_product_most_specific sample_matcher
           "Turmeric Basmati Rice Mix with Salt"
           {| cat_type := "spice"; cat_subtype := Some "powder";
              cat_keywords := ["turmeric"; "coriander"; "haldi"] |}
           "turmeric").
  - cbn. auto.
  - reflexivity.
  - reflexivity.
Defined.

(** ** What the confidence and the match finder return *)

Lemma append_length {A : Type} (l : list A) (x : A) :
  length (Py.append l x) = S (length l).
Proof. unfold Py.append. rewrite length_app. cbn. lia. Qed.

Lemma category_step_warnings (self : ProductMatcher)
    (p_type p_subtype c_type c_subtype : string) (st : running) :
  (length (snd (category_step self p_type p_subtype c_type c_subtype st))
   <= S (length (snd st)))%nat.
Proof.
  unfold category_step, warn.
  repeat match goal with |- context [if ?c then _ else _] => destruct c end;
    cbn [snd]; rewrite ?append_length; lia.
Qed.

Lemma size_step_warnings (B : Backend) (p_size c_size : SizeInfo.t)
    (size_sim : Q) (st : running) :
  (length (snd (size_step B p_size c_size size_sim st)) <= S (length (snd st)))%nat.
Proof.
  unfold size_step, warn.
  repeat match goal with |- context [if ?c then _ else _] => destruct c end;
    cbn [snd]; rewrite ?append_length; lia.
Qed.

Lemma price_step_warnings (B : Backend) (primary candidate : Product)
    (st : running) :
  exists st',
    price_step B primary candidate st = Ok st'
    /\ (length (snd st') <= S (length (snd st)))%nat.
Proof.
  unfold price_step.
  destruct (price_truthy primary) eqn:Hp; [ | eauto].
  destruct (price_truthy candidate) eqn:Hc; [ | eauto]. cbn [andb].
  unfold price_truthy in Hp, Hc. unfold price_of.
  destruct (p_price primary) as [x | ]; [ | discriminate].
  destruct (p_price candidate) as [y | ]; [ | discriminate].
  apply negb_true_iff, Qeq_bool_false in Hp, Hc.
  rewrite truediv_ok by now apply Qmin_nonzero.
  unfold bind, warn.
  repeat match goal with |- context [if ?c then _ else _] => destruct c end;
    eexists; (split; [reflexivity | ]); cbn [snd]; rewrite ?append_length; lia.
Qed.

Lemma borderline_step_warnings (name_p name_c : string) (st : running) :
  (length (snd (borderline_step name_p name_c st)) <= S (length (snd st)))%nat.
Proof.
  unfold borderline_step, warn.
  repeat match goal with |- context [if ?c then _ else _] => destruct c end;
    cbn [snd]; rewrite ?append_length; lia.
Qed.

Lemma calculate_confidence_facts
    (self : ProductMatcher) (B : Backend) (primary candidate : Product)
    (name_p name_c : string) :
  p_name primary = Some name_p ->
  p_name candidate = Some name_c ->
  exists score warnings,
    calculate_confidence self B primary candidate = Ok (score, warnings)
    /\ 0 <= score /\ score <= 1 /\ (length warnings <= 4)%nat.
Proof.
  intros Hp Hc. unfold calculate_confidence.
  unfold getitem_name at 1 2. rewrite Hp, Hc. cbn [bind].
  destruct (classify_product self name_p) as [p_type p_subtype].
  destruct (classify_product self name_c) as [c_type c_subtype].
  destruct (is_forbidden_match_named self primary candidate name_p name_c
              p_type p_subtype c_type c_subtype Hp Hc)
    as (flag & reason & E & _).
  rewrite E. cbn [bind].
  destruct flag.
  { do 2 eexists. split; [reflexivity | ]. cbn. repeat split; try lra; lia. }
  destruct (Py.Qltb _ 0.3).
  { do 2 eexists. split; [reflexivity | ]. cbn. repeat split; try lra; lia. }
  destruct (calculate_size_similarity_total
              (extract_size name_p) (extract_size name_c)) as [size_sim Hs].
  rewrite Hs. cbn [bind].
  match goal with
  | |- context [price_step B primary candidate ?st] =>
      destruct (price_step_warnings B primary candidate st) as (st' & Hst & Hlen);
      pose proof (size_step_warnings B (extract_size name_p) (extract_size name_c)
                    size_sim
                    (category_step self p_type p_subtype c_type c_subtype
                       (calculate_hybrid_similarity self B name_p name_c, [])))
        as Hsize;
      pose proof (category_step_warnings self p_type p_subtype c_type c_subtype
                    (calculate_hybrid_similarity self B name_p name_c, []))
        as Hcat
  end.
  rewrite Hst. cbn [bind].
  pose proof (borderline_step_warnings name_p name_c st') as Hb.
  do 2 eexists. split; [reflexivity | ].
  destruct (clamp_range (fst (borderline_step name_p name_c st'))) as [H0 H1].
  split; [exact H0 | split; [exact H1 | ]].
  cbn [snd length] in *. lia.
Qed.

Lemma match_type_of_tier (confidence : Q) :
  (match_type_of confidence = "exact" /\ 0.9 <= confidence)
  \/ (match_type_of confidence = "similar"
      /\ 0.75 <= confidence /\ confidence < 0.9)
  \/ (match_type_of confidence = "substitute" /\ confidence < 0.75).
Proof.
  unfold match_type_of.
  destruct (Qle_bool 0.9 confidence) eqn:E1.
  { left. split; [reflexivity | now apply Qle_bool_iff]. }
  assert (H1 : confidence < 0.9).
  { apply Qnot_le_lt. intros H. apply Qle_bool_iff in H. congruence. }
  destruct (Qle_bool 0.75 confidence) eqn:E2.
  { right. left. split; [reflexivity | ]. split; [now apply Qle_bool_iff | exact H1]. }
  right. right. split; [reflexivity | ].
  apply Qnot_le_lt. intros H. apply Qle_bool_iff in H. congruence.
Qed.

Lemma omap_id_cons (c : Product) (cs : list Product) (x : Z) :
  In x (omap p_id cs) -> In x (omap p_id (c :: cs)).
Proof. cbn. destruct (p_id c); cbn; auto. Qed.

Lemma valid_entry_cons (pid : Z) (min_confidence : Q) (c : Product)
    (cs : list Product) (ms : list ProductMatch.t) :
  Forall (valid_entry pid min_confidence cs) ms ->
  Forall (valid_entry pid min_confidence (c :: cs)) ms.
Proof.
  apply List.Forall_impl. unfold valid_entry. intros m H.
  decompose [and] H. repeat split; auto using omap_id_cons.
Qed.

Lemma scan_candidates_entries (self : ProductMatcher) (B : Backend)
    (primary : Product) (candidates : list Product) (min_confidence : Q) (pid : Z) :
  well_formed primary = true ->
  forallb well_formed candidates = true ->
  p_id primary = Some pid ->
  exists kept,
    scan_candidates self B primary candidates min_confidence = Ok kept
    /\ Forall (valid_entry pid min_confidence candidates) kept.
Proof.
  intros Hp Hcs Hpid.
  destruct (well_formed_inv _ Hp) as (pid' & name_p & Hpid' & Hname_p).
  assert (pid' = pid) as -> by congruence. clear Hpid'.
  induction candidates as [ | c cs IH].
  - exists []. split; [reflexivity | constructor].
  - cbn [forallb] in Hcs. apply andb_true_iff in Hcs as [Hc Hcs].
    destruct (IH Hcs) as (later & Hlater & Hall).
    apply (valid_entry_cons pid min_confidence c) in Hall.
    destruct (well_formed_inv _ Hc) as (cid & name_c & Hcid & Hname_c).
    cbn [scan_candidates]. unfold getitem_id, getitem_name.
    rewrite Hcid, Hpid, Hname_p, Hname_c. cbn [bind].
    destruct (Z.eqb_spec cid pid) as [Heq | Hne]; [eauto | ].
    destruct (calculate_confidence_facts self B primary c name_p name_c
                Hname_p Hname_c) as (score & warnings & Hscore & H0 & H1 & Hw).
    rewrite Hscore. cbn [bind].
    destruct (Qle_bool min_confidence score) eqn:Hmin; [ | eauto].
    destruct (size_similarity_of_names name_p name_c) as (size_sim & Hs & S0 & S1).
    rewrite Hs, Hlater. cbn [bind].
    eexists. split; [reflexivity | ].
    constructor; [ | exact Hall].
    unfold valid_entry, tier_agrees. cbn.
    rewrite Hcid. apply Qle_bool_iff in Hmin.
    repeat split; auto using match_type_of_tier. now left.
Qed.

Lemma slice_to_In {A : Type} (n : Z) (l : list A) (x : A) :
  In x (Py.slice_to n l) -> In x l.
Proof.
  unfold Py.slice_to. intros H.
  destruct (0 <=? n)%Z;
    match type of H with
    | In _ (firstn ?k _) =>
        rewrite <- (firstn_skipn k l); apply in_or_app; now left
    end.
Qed.

(** X17. Whatever [max_matches], negative values included, every entry
    that [find_matches] returns for well-formed records is sound: it carries
    the primary's id and the id of a candidate other than the primary, a
    confidence between [min_confidence] and 1, the match type that goes with
    that confidence (exact from 0.9, similar from 0.75, substitute below), a
    size similarity above 0 and at most 1, and at most four warnings. *)
Theorem find_matches_entries (self : ProductMatcher) (B : Backend)
    (primary : Product) (candidates : list Product)
    (min_confidence : Q) (max_matches pid : Z) :
  well_formed primary = true ->
  forallb well_formed candidates = true ->
  p_id primary = Some pid ->
  exists ms,
    find_matches self B primary candidates min_confidence max_matches = Ok ms
    /\ Forall (valid_entry pid min_confidence candidates) ms.
Proof.
  intros Hp Hcs Hpid.
  destruct (scan_candidates_entries self B primary candidates min_confidence pid
              Hp Hcs Hpid) as (kept & Hscan & Hall).
  unfold find_matches. rewrite Hscan. cbn [bind].
  eexists. split; [reflexivity | ].
  apply List.Forall_forall. intros m Hm. rewrite List.Forall_forall in Hall.
  apply Hall. apply (sort_reverse_In confidence_ltb). now apply slice_to_In in Hm.
Qed.

Lemma find_matches_entries_witness :
  exists ms,
    find_matches sample_matcher sample_backend
      (product 1 "Tata Salt 1kg" None)
      [product 2 "Tata Salt 1kg" None; product 3 "Tata Salt 1 kg" None;
       product 4 "Tata Rock Salt 1kg" None]
      0.65 (-1) = Ok ms
    /\ Forall (valid_entry 1 0.65
                 [product 2 "Tata Salt 1kg" None; product 3 "Tata Salt 1 kg" None;
                  product 4 "Tata Rock Salt 1kg" None]) ms.
Proof. apply find_matches_entries; reflexivity. Defined.

Lemma insert_desc_perm {A : Type} (ltb : A -> A -> bool) (x : A) (l : list A) :
  Permutation (Py.insert_desc ltb x l) (x :: l).
Proof.
  induction l as [ | y l IH]; cbn; [reflexivity | ].
  destruct (ltb x y); [ | reflexivity].
  rewrite IH. apply perm_swap.
Qed.

Lemma sort_reverse_perm {A : Type} (ltb : A -> A -> bool) (l : list A) :
  Permutation (Py.sort_reverse ltb l) l.
Proof.
  unfold Py.sort_reverse. induction l as [ | x l IH]; cbn; [reflexivity | ].
  now rewrite insert_desc_perm, IH.
Qed.

Lemma slice_to_firstn {A : Type} (n : Z) (l : list A) :
  exists k, Py.slice_to n l = firstn k l.
Proof. unfold Py.slice_to. destruct (0 <=? n)%Z; eauto. Qed.

(** X18. When the ids of the candidates are distinct, no candidate is
    returned twice: the matched ids of the list that [find_matches] returns
    are distinct, whatever [max_matches]. *)
Theorem find_matches_distinct (self : ProductMatcher) (B : Backend)
    (primary : Product) (candidates : list Product)
    (min_confidence : Q) (max_matches pid : Z) :
  well_formed primary = true ->
  forallb well_formed candidates = true ->
  p_id primary = Some pid ->
  NoDup (omap p_id candidates) ->
  exists ms,
    find_matches self B primary candidates min_confidence max_matches = Ok ms
    /\ NoDup (map ProductMatch.matched_id ms).
Proof.
  intros Hp Hcs Hpid Hnd.
  destruct (scan_candidates_returns self B primary candidates min_confidence pid
              Hp Hcs Hpid) as (kept & Hscan & _ & Hsub).
  unfold find_matches. rewrite Hscan. cbn [bind].
  eexists. split; [reflexivity | ].
  destruct (slice_to_firstn max_matches (Py.sort_reverse confidence_ltb kept))
    as [k ->].
  rewrite <- firstn_map.
  refine (sublist_NoDup _ _ _ (sublist_take _ _)).
  apply (NoDup_Permutation_proper _ _
           (Permutation_map ProductMatch.matched_id
              (sort_reverse_perm confidence_ltb kept))).
  exact (sublist_NoDup _ _ Hnd Hsub).
Qed.

Lemma find_matches_distinct_witness :
  exists ms,
    find_matches sample_matcher sample_backend
      (product 1 "Tata Salt 1kg" None)
      [product 2 "Tata Salt 1kg" None; product 3 "Tata Salt 1 kg" None;
       product 4 "Tata Rock Salt 1kg" None]
      0.65 3 = Ok ms
    /\ NoDup (map ProductMatch.matched_id ms).
Proof.
  apply (find_matches_distinct _ _ _ _ _ _ 1%Z); try reflexivity.
  apply NoDup_ListNoDup. cbn.
  repeat constructor; cbn; intuition discriminate.
Defined.

(** ** Batches *)

(** X19. Primaries are matched independently of one another: the batch
    over two lists of primaries in a row is the batch over the first
    followed by the batch over the second, and it raises what the first of
    them to raise raises. *)
Theorem batch_match_app (self : ProductMatcher) (B : Backend)
    (primaries1 primaries2 candidates : list Product) (min_confidence : Q) :
  batch_match self B (primaries1 ++ primaries2)%list candidates min_confidence
  = (do first <- batch_match self B primaries1 candidates min_confidence;
     do second <- batch_match self B primaries2 candidates min_confidence;
     Ok (first ++ second)%list).
Proof.
  induction primaries1 as [ | p ps IH]; cbn [app batch_match].
  - cbn [bind]. destruct (batch_match self B primaries2 candidates min_confidence);
      reflexivity.
  - rewrite IH.
    destruct (find_matches self B p candidates min_confidence 3) as [ms | e];
      [ | reflexivity].
    cbn [bind].
    destruct (batch_match self B ps candidates min_confidence) as [first | e];
      [ | reflexivity].
    cbn [bind].
    destruct (batch_match self B primaries2 candidates min_confidence)
      as [second | e]; [ | reflexivity].
    cbn [bind]. now rewrite app_assoc.
Qed.

Lemma find_matches_facts (self : ProductMatcher) (B : Backend)
    (primary : Product) (candidates : list Product)
    (min_confidence : Q) (max_matches pid : Z) :
  well_formed primary = true ->
  forallb well_formed candidates = true ->
  p_id primary = Some pid ->
  (0 <= max_matches)%Z ->
  exists ms,
    find_matches self B primary candidates min_confidence max_matches = Ok ms
    /\ (Z.of_nat (length ms) <= max_matches)%Z
    /\ Forall (valid_entry pid min_confidence candidates) ms.
Proof.
  intros Hp Hcs Hpid Hmax.
  destruct (scan_candidates_entries self B primary candidates min_confidence pid
              Hp Hcs Hpid) as (kept & Hscan & Hall).
  unfold find_matches. rewrite Hscan. cbn [bind].
  eexists. split; [reflexivity | ]. split.
  - rewrite slice_to_nonneg by exact Hmax. rewrite length_firstn. lia.
  - apply List.Forall_forall. intros m Hm. rewrite List.Forall_forall in Hall.
    apply Hall. apply (sort_reverse_In confidence_ltb). now apply slice_to_In in Hm.
Qed.

(** X20. On well-formed records [batch_match] returns at most three
    entries per primary; each entry pairs the id of a primary of the batch
    with the id of a candidate, the two differ, and the confidence lies
    between [min_confidence] and 1. *)
Theorem batch_match_entries (self : ProductMatcher) (B : Backend)
    (primaries candidates : list Product) (min_confidence : Q) :
  forallb well_formed primaries = true ->
  forallb well_formed candidates = true ->
  exists ms,
    batch_match self B primaries candidates min_confidence = Ok ms
    /\ (length ms <= 3 * length primaries)%nat
    /\ Forall (fun m =>
                 In (ProductMatch.primary_id m) (omap p_id primaries)
                 /\ In (ProductMatch.matched_id m) (omap p_id candidates)
                 /\ ProductMatch.matched_id m <> ProductMatch.primary_id m
                 /\ min_confidence <= ProductMatch.confidence m
                 /\ ProductMatch.confidence m <= 1) ms.
Proof.
  intros Hps Hcs. induction primaries as [ | p ps IH].
  - exists []. cbn. split; [reflexivity | split; [lia | constructor]].
  - cbn [forallb] in Hps. apply andb_true_iff in Hps as [Hp Hps].
    destruct (IH Hps) as (later & Hlater & Hlen & Hall).
    destruct (well_formed_inv _ Hp) as (pid & name_p & Hpid & _).
    destruct (find_matches_facts self B p candidates min_confidence 3 pid
                Hp Hcs Hpid ltac:(lia)) as (ms & Hms & Hk & Hvalid).
    cbn [batch_match]. rewrite Hms, Hlater. cbn [bind].
    eexists. split; [reflexivity | ]. split.
    + rewrite length_app. cbn [length]. lia.
    + apply Forall_app. split.
      * eapply List.Forall_impl; [ | exact Hvalid].
        intros m Hm. unfold valid_entry in Hm.
        destruct Hm as (Hprimary & Hne & Hin & Hmin & _ & Hone & _).
        split; [ | split; [exact Hin | split; [congruence | split; assumption]]].
        cbn. rewrite Hpid. left. congruence.
      * eapply List.Forall_impl; [ | exact Hall].
        intros m (Hprimary & Hrest). split; [ | exact Hrest].
        cbn. destruct (p_id p); [now right | assumption].
Qed.

Lemma batch_match_entries_witness :
  exists ms,
    batch_match sample_matcher sample_backend
      [product 1 "Tata Salt 1kg" None; product 2 "Everest Turmeric Powder 200g" None]
      [product 3 "Tata Salt 1kg" None; product 4 "Everest Turmeric Powder 200 g" None;
       product 5 "Tata Salt 1 kg" None]
      0.65 = Ok ms
    /\ (length ms <= 3 * 2)%nat
    /\ Forall (fun m =>
                 In (ProductMatch.primary_id m)
                   (omap p_id
                      [product 1 "Tata Salt 1kg" None;
                       product 2 "Everest Turmeric Powder 200g" None])
                 /\ In (ProductMatch.matched_id m)
                      (omap p_id
                         [product 3 "Tata Salt 1kg" None;
                          product 4 "Everest Turmeric Powder 200 g" None;
                          product 5 "Tata Salt 1 kg" None])
                 /\ ProductMatch.matched_id m <> ProductMatch.primary_id m
                 /\ 0.65 <= ProductMatch.confidence m
                 /\ ProductMatch.confidence m <= 1) ms.
Proof.
  apply (batch_match_entries sample_matcher sample_backend
           [product 1 "Tata Salt 1kg" None;
            product 2 "Everest Turmeric Powder 200g" None]); reflexivity.
Defined.

(** ** Name similarity of the validation *)

Lemma inject_nat_nonzero (n : nat) : n <> 0%nat -> ~ inject_Z (Z.of_nat n) == 0.
Proof.
  intros Hn H. unfold Qeq in H. cbn in H. lia.
Qed.

(** X21. The word-overlap similarity of the validation never raises (the
    division is guarded by the test for empty word sets), lies between 0 and
    1, does not depend on the order of the names, and is 1 for two names with
    the same non-empty set of lowercased words. *)
Theorem _calculate_name_similarity_jaccard (name1 name2 : string) :
  (exists q, _calculate_name_similarity name1 name2 = Ok q /\ 0 <= q /\ q <= 1)
  /\ _calculate_name_similarity name1 name2 = _calculate_name_similarity name2 name1
  /\ (raw_words name1 = raw_words name2 -> raw_words name1 <> ∅ ->
      exists q, _calculate_name_similarity name1 name2 = Ok q /\ q == 1).
Proof.
  unfold _calculate_name_similarity.
  set (words1 := raw_words name1). set (words2 := raw_words name2).
  split; [ | split].
  - destruct (bool_decide (words1 = ∅)) eqn:E1;
      [exists 0.0; split; [reflexivity | split; lra] | ].
    destruct (bool_decide (words2 = ∅)) eqn:E2;
      [exists 0.0; split; [reflexivity | split; lra] | ].
    cbn [orb]. apply bool_decide_eq_false in E1.
    assert (Hu : size (words1 ∪ words2) <> 0%nat).
    { intros H. apply size_empty_iff, leibniz_equiv, empty_union_L in H.
      now apply E1. }
    assert (Hle : (size (words1 ∩ words2) <= size (words1 ∪ words2))%nat).
    { apply subseteq_size. transitivity words1;
        [apply intersection_subseteq_l | apply union_subseteq_l]. }
    rewrite truediv_ok by now apply inject_nat_nonzero.
    eexists. split; [reflexivity | ].
    assert (Hd : 0 < inject_Z (Z.of_nat (size (words1 ∪ words2))))
      by (change 0 with (inject_Z 0); rewrite <- Zlt_Qlt; lia).
    assert (Hn : 0 <= inject_Z (Z.of_nat (size (words1 ∩ words2))))
      by (change 0 with (inject_Z 0); rewrite <- Zle_Qle; lia).
    assert (Hnd : inject_Z (Z.of_nat (size (words1 ∩ words2)))
                  <= inject_Z (Z.of_nat (size (words1 ∪ words2))))
      by (rewrite <- Zle_Qle; lia).
    split; [apply Qle_shift_div_l; lra | apply Qle_shift_div_r; lra].
  - rewrite (orb_comm (bool_decide (words2 = ∅))).
    now rewrite (comm_L (∩) words2 words1), (comm_L (∪) words2 words1).
  - intros Heq Hne. rewrite <- Heq.
    rewrite (bool_decide_eq_false_2 _ Hne). cbn [orb].
    rewrite (idemp_L (∩) words1), (idemp_L (∪) words1).
    assert (Hs : size words1 <> 0%nat).
    { intros H. apply size_empty_iff, leibniz_equiv in H. now apply Hne. }
    rewrite truediv_ok by now apply inject_nat_nonzero.
    eexists. split; [reflexivity | ]. field. now apply inject_nat_nonzero.
Qed.

Lemma _calculate_name_similarity_jaccard_witness :
  (exists q, _calculate_name_similarity "Tata Salt 1kg" "salt TATA 1kg" = Ok q
             /\ 0 <= q /\ q <= 1)
  /\ _calculate_name_similarity "Tata Salt 1kg" "salt TATA 1kg"
     = _calculate_name_similarity "salt TATA 1kg" "Tata Salt 1kg"
  /\ exists q, _calculate_name_similarity "Tata Salt 1kg" "salt TATA 1kg" = Ok q
               /\ q == 1.
Proof.
  destruct (_calculate_name_similarity_jaccard "Tata Salt 1kg" "salt TATA 1kg")
    as (H1 & H2 & H3).
  split; [exact H1 | split; [exact H2 | ]].
  apply H3; [vm_compute; reflexivity | vm_compute; discriminate].
Defined.

(** ** Patterns whose first side is a plain keyword *)

Lemma startswith_inv (p s : string) :
  Str.startswith p s = true -> exists rest, s = p ++ rest.
Proof.
  unfold Str.startswith. revert s. induction p as [ | x p IH]; intros s.
  - exists s. reflexivity.
  - destruct s as [ | c s]; cbn; [discriminate | ].
    destruct (ascii_dec x c) as [<- | ]; [ | discriminate].
    intros H. destruct (IH s H) as [rest ->]. now exists rest.
Qed.

Lemma contains_inv (p s : string) :
  Str.contains p s = true -> exists pre rest, s = pre ++ p ++ rest.
Proof.
  induction s as [ | c s IH]; cbn [Str.contains].
  - rewrite orb_false_r. intros H. destruct (startswith_inv _ _ H) as [rest ->].
    now exists EmptyString, rest.
  - intros H. apply orb_true_iff in H as [H | H].
    + destruct (startswith_inv _ _ H) as [rest ->]. now exists EmptyString, rest.
    + destruct (IH H) as (pre & rest & ->). now exists (String c pre), rest.
Qed.

Lemma contains_char_trans (ch : ascii) (p s : string) :
  Str.contains (String ch EmptyString) p = true ->
  Str.contains p s = true ->
  Str.contains (String ch EmptyString) s = true.
Proof.
  intros Hp Hs. destruct (contains_inv _ _ Hs) as (pre & rest & ->).
  rewrite !contains_char_append, Hp. now rewrite orb_true_r.
Qed.

Lemma has_special_sub (p s : string) :
  has_special p = true -> Str.contains p s = true -> has_special s = true.
Proof.
  unfold has_special. intros Hp Hs. apply orb_true_iff in Hp as [Hp | Hp].
  - now rewrite (contains_char_trans _ _ _ Hp Hs).
  - rewrite (contains_char_trans _ _ _ Hp Hs). apply orb_true_r.
Qed.

Lemma lower_char_special (c : ascii) :
  (Str.lower_char c = "|"%char -> c = "|"%char)
  /\ (Str.lower_char c = ":"%char -> c = ":"%char).
Proof.
  destruct c as [[] [] [] [] [] [] [] []]; vm_compute; split; intros H;
    first [reflexivity | discriminate H].
Qed.

Lemma contains_char_lower (ch : ascii) (s : string) :
  (forall c, Str.lower_char c = ch -> c = ch) ->
  Str.contains (String ch EmptyString) (Str.lower s) = true ->
  Str.contains (String ch EmptyString) s = true.
Proof.
  intros Hch. induction s as [ | c s IH]; cbn [Str.lower Str.contains]; [auto | ].
  intros H. apply orb_true_iff in H as [H | H].
  - apply orb_true_iff. left. unfold Str.startswith in *. cbn in *.
    destruct (ascii_dec ch (Str.lower_char c)) as [E | ]; [ | discriminate].
    symmetry in E. apply Hch in E as ->.
    destruct (ascii_dec ch ch); [ | contradiction]. now destruct s.
  - rewrite (IH H). apply orb_true_r.
Qed.

Lemma has_special_lower (s : string) :
  has_special (Str.lower s) = true -> has_special s = true.
Proof.
  unfold has_special. intros H. apply orb_true_iff in H as [H | H].
  - rewrite (contains_char_lower "|" s); [reflexivity | | exact H].
    intros c. apply lower_char_special.
  - rewrite (contains_char_lower ":" s); [apply orb_true_r | | exact H].
    intros c. apply lower_char_special.
Qed.

Lemma has_special_append (a b : string) :
  has_special (a ++ b) = has_special a || has_special b.
Proof.
  unfold has_special. rewrite !contains_char_append.
  destruct (Str.contains "|" a), (Str.contains "|" b),
    (Str.contains ":" a), (Str.contains ":" b); reflexivity.
Qed.

(** X22. An entry of the "pairs" table whose first side is a plain keyword
    and whose second side contains '|' or ':' is kept as a pattern but never
    fires on names that contain neither character: the keyword branch looks
    for the second side as it stands, separators included. *)
Theorem plain_first_side_never_hits (cfg : Config)
    (name1 name2 type1 subtype1 type2 subtype2 pattern1 pattern2 : string) :
  In (pattern1, pattern2) (forbidden_patterns (init cfg)) ->
  has_special pattern1 = false ->
  has_special name1 = false ->
  has_special name2 = false ->
  pattern_hits (Str.lower name1) (Str.lower name2) type1 subtype1 type2 subtype2
    (pattern1, pattern2) = false.
Proof.
  intros Hin Hp1 Hn1 Hn2.
  rewrite init_pattern_entries in Hin. apply pattern_entries_In in Hin as [_ Hs].
  rewrite has_special_append, Hp1 in Hs. cbn [orb] in Hs.
  assert (Hno : forall name, has_special name = false ->
                  Str.contains pattern2 (Str.lower name) = false).
  { intros name Hname.
    destruct (Str.contains pattern2 (Str.lower name)) eqn:E; [ | reflexivity].
    pose proof (has_special_lower _ (has_special_sub _ _ Hs E)). congruence. }
  unfold has_special in Hp1. apply orb_false_iff in Hp1 as [Hbar Hcolon].
  unfold pattern_hits. rewrite Hcolon, Hbar, (Hno name1 Hn1), (Hno name2 Hn2).
  now rewrite andb_false_r.
Qed.

Lemma plain_first_side_never_hits_witness :
  pattern_hits (Str.lower "Basmati Rice 5kg") (Str.lower "Wheat Flour 5kg")
    "rice" "basmati" "other" "generic" ("rice", "wheat|flour") = false.
Proof.
  apply (plain_first_side_never_hits
           {| cfg_categories := []; cfg_strict_category_matching := [];
              cfg_incompatible_categories := [];
              cfg_pairs := [["rice"; "wheat|flour"]];
              cfg_penalty_multipliers := ∅; cfg_groups := [];
              cfg_known_brands := [] |});
    [cbn; auto | reflexivity | reflexivity | reflexivity].
Defined.

(** ** Prices that are absent or zero *)

Lemma is_forbidden_match_names (self : ProductMatcher)
    (primary candidate primary' candidate' : Product)
    (type1 subtype1 type2 subtype2 : string) :
  p_name primary = p_name primary' ->
  p_name candidate = p_name candidate' ->
  is_forbidden_match self primary candidate type1 subtype1 type2 subtype2
  = is_forbidden_match self primary' candidate' type1 subtype1 type2 subtype2.
Proof.
  intros Hp Hc. unfold is_forbidden_match, getitem_name. now rewrite Hp, Hc.
Qed.

(** X23. A price that is absent or 0 on either side switches the price
    check off: the confidence and the warnings are those of the two records
    without their prices. *)
Theorem calculate_confidence_without_price (self : ProductMatcher) (B : Backend)
    (primary candidate : Product) :
  price_truthy primary && price_truthy candidate = false ->
  calculate_confidence self B primary candidate
  = calculate_confidence self B (without_price primary) (without_price candidate).
Proof.
  intros Hprice. unfold calculate_confidence, getitem_name.
  cbn [without_price p_name].
  destruct (p_name primary) as [name_p | ]; [ | reflexivity]. cbn [bind].
  destruct (classify_product self name_p) as [p_type p_subtype].
  destruct (p_name candidate) as [name_c | ] eqn:Hc; [ | reflexivity]. cbn [bind].
  destruct (classify_product self name_c) as [c_type c_subtype].
  rewrite (is_forbidden_match_names self primary candidate
             (without_price primary) (without_price candidate))
    by (cbn; auto).
  destruct (is_forbidden_match self (without_price primary)
              (without_price candidate) p_type p_subtype c_type c_subtype)
    as [[flag reason] | e]; [ | reflexivity].
  cbn [bind]. destruct flag; [reflexivity | ].
  destruct (Py.Qltb _ 0.3); [reflexivity | ].
  destruct (calculate_size_similarity _ _); [ | reflexivity]. cbn [bind].
  unfold price_step. rewrite Hprice. reflexivity.
Qed.

Lemma calculate_confidence_without_price_witness :
  calculate_confidence sample_matcher sample_backend
    (product 1 "Tata Salt 1kg" (Some 0)) (product 2 "Tata Salt 1 kg" (Some 99))
  = calculate_confidence sample_matcher sample_backend
      (without_price (product 1 "Tata Salt 1kg" (Some 0)))
      (without_price (product 2 "Tata Salt 1 kg" (Some 99))).
Proof. apply calculate_confidence_without_price. reflexivity. Defined.

(** ** A product against itself *)

Lemma normalized_words_nonempty (name : string) :
  Str.truthy (normalize_name name) = true ->
  (size (normalized_words name ∩ normalized_words name) =? 0)%nat = false.
Proof.
  intros Ht. apply Nat.eqb_neq. rewrite (idemp_L (∩)). intros Hs.
  apply size_empty_iff, leibniz_equiv in Hs. unfold normalized_words in Hs.
  destruct (normalize_name_facts name) as [Hjoin _].
  destruct (Str.split (normalize_name name)) as [ | w ws].
  - rewrite Hjoin in Ht. discriminate.
  - assert (Hw : w ∈ (list_to_set (w :: ws) : gset string))
      by (apply elem_of_list_to_set; now left).
    rewrite Hs in Hw. now apply not_elem_of_empty in Hw.
Qed.

Lemma opt_eqb_refl (o : option string) : opt_eqb o o = true.
Proof. destruct o; cbn; [apply String.eqb_refl | reflexivity]. Qed.

Lemma hybrid_same_name (self : ProductMatcher) (B : Backend) (name : string) :
  (forall x, cosine_similarity B x x = 1) ->
  (forall s, token_sort_ratio B s s = 100%Z) ->
  Str.truthy (normalize_name name) = true ->
  calculate_hybrid_similarity self B name name
  = Qmin (1 * 0.4 + inject_Z 100 / 100.0 * 0.6 + 0.1) 1.0
  \/ calculate_hybrid_similarity self B name name
     = 1 * 0.4 + inject_Z 100 / 100.0 * 0.6.
Proof.
  intros Hcos Hfuzz Ht. unfold calculate_hybrid_similarity.
  rewrite Ht. cbn [negb orb].
  fold (normalized_words name). rewrite (normalized_words_nonempty name Ht).
  rewrite Hcos, Hfuzz, opt_eqb_refl. cbn [negb]. rewrite andb_true_r, andb_false_r.
  destruct (opt_truthy (_extract_brand self name)); auto.
Qed.

(** X24. A product against a record of the same name.  With a backend
    that gives identical texts the cosine 1 and the ratio 100, a name that
    does not normalize to nothing, no verdict of the rule engine against the
    pair and no price check, the confidence is 1 without warnings when the
    name carries a size, and 0.8 with the one warning of the size step when
    it carries none (the sentinel sizes have similarity 0.5). *)
Theorem calculate_confidence_same_name (self : ProductMatcher) (B : Backend)
    (primary candidate : Product) (name : string) :
  p_name primary = Some name ->
  p_name candidate = Some name ->
  price_truthy primary && price_truthy candidate = false ->
  (forall x, cosine_similarity B x x = 1) ->
  (forall s, token_sort_ratio B s s = 100%Z) ->
  Str.truthy (normalize_name name) = true ->
  is_forbidden_match self primary candidate
    (fst (classify_product self name)) (snd (classify_product self name))
    (fst (classify_product self name)) (snd (classify_product self name))
  = Ok (false, EmptyString) ->
  exists score warnings,
    calculate_confidence self B primary candidate = Ok (score, warnings)
    /\ if Qeq_bool (SizeInfo.value (extract_size name)) 0
       then score == 0.8 /\ length warnings = 1%nat
       else score == 1 /\ warnings = [].
Proof.
  intros Hp Hc Hprice Hcos Hfuzz Ht Hf.
  unfold calculate_confidence, getitem_name. rewrite Hp, Hc. cbn [bind].
  destruct (classify_product self name) as [ty subtype]. cbn [fst snd] in Hf.
  rewrite Hf. cbn [bind].
  unfold category_step. rewrite !String.eqb_refl. cbn [negb fst snd].
  unfold price_step. rewrite Hprice.
  destruct (Qeq_bool (SizeInfo.value (extract_size name)) 0) eqn:Ez.
  - assert (Hs : calculate_size_similarity (extract_size name) (extract_size name)
                 = Ok 0.5).
    { unfold calculate_size_similarity. now rewrite String.eqb_refl, Ez. }
    rewrite Hs. cbn [bind].
    destruct (hybrid_same_name self B name Hcos Hfuzz Ht) as [-> | ->];
      do 2 eexists; (split; [reflexivity | split; reflexivity]).
  - assert (Hs : calculate_size_similarity (extract_size name) (extract_size name)
                 = Ok 1.0).
    { apply calculate_size_similarity_refl. apply Qeq_bool_false in Ez.
      destruct (extract_size_facts name) as [Hv _]. lra. }
    rewrite Hs. cbn [bind].
    destruct (hybrid_same_name self B name Hcos Hfuzz Ht) as [-> | ->];
      do 2 eexists; (split; [reflexivity | split; reflexivity]).
Qed.

Lemma calculate_confidence_same_name_witness :
  exists score warnings,
    calculate_confidence sample_matcher sample_backend
      (product 1 "Tata Salt 1kg" None) (product 2 "Tata Salt 1kg" None)
    = Ok (score, warnings)
    /\ if Qeq_bool (SizeInfo.value (extract_size "Tata Salt 1kg")) 0
       then score == 0.8 /\ length warnings = 1%nat
       else score == 1 /\ warnings = [].
Proof.
  apply (calculate_confidence_same_name sample_matcher sample_backend
           _ _ "Tata Salt 1kg"); try reflexivity.
  - intros x. cbn. now rewrite String.eqb_refl.
  - intros s. cbn. now rewrite String.eqb_refl.
Defined.

(** * Per-unit prices *)

(** ** The matcher of the size patterns *)

Lemma later_trans b s b1 s1 b2 s2 :
  later b s b1 s1 -> later b1 s1 b2 s2 -> later b s b2 s2.
Proof.
  induction 1 as [ | b s x s' b1 s1 E _ IH]; [easy | ].
  intros H. apply (later_step _ _ x s'); [exact E | now apply IH].
Qed.

Lemma lit_later (text s : string) (c c' : Re.cursor) :
  Re.rest c = s -> Re.lit text s c = Some c' ->
  later (Re.before c) (Re.rest c) (Re.before c') (Re.rest c').
Proof.
  revert s c. induction text as [ | p text IH]; intros s c Hs H; cbn in H.
  - injection H as <-. constructor.
  - destruct s as [ | x s']; [discriminate | ].
    destruct (Ascii.eqb _ _); [ | discriminate].
    apply (later_step _ _ x s'); [exact Hs | ].
    exact (IH s' (Re.advance x s' c) eq_refl H).
Qed.

Lemma many_later (cls : ascii -> bool) (s : string) (c c' : Re.cursor) :
  Re.rest c = s -> In c' (Re.many cls s c) ->
  later (Re.before c) (Re.rest c) (Re.before c') (Re.rest c').
Proof.
  revert c. induction s as [ | x s' IH]; intros c Hs H; cbn in H.
  - destruct H as [<- | []]. constructor.
  - destruct (cls x).
    + unfold Py.append in H. apply in_app_or in H as [H | [<- | []]];
        [ | constructor].
      apply (later_step _ _ x s'); [exact Hs | ].
      exact (IH (Re.advance x s' c) eq_refl H).
    + destruct H as [<- | []]. constructor.
Qed.

Lemma run_later (r : Re.t) (c c' : Re.cursor) :
  In c' (Re.run r c) ->
  later (Re.before c) (Re.rest c) (Re.before c') (Re.rest c').
Proof.
  revert c c'. induction r as [text | | | | a IHa b IHb | a IHa b IHb | a IHa | a IHa];
    intros c c' H; cbn [Re.run] in H.
  - destruct (Re.lit text (Re.rest c) c) as [d | ] eqn:E; [ | destruct H].
    destruct H as [<- | []]. now apply (lit_later text (Re.rest c)).
  - unfold Re.many1 in H. destruct (Re.rest c) as [ | x s'] eqn:E; [destruct H | ].
    destruct (Str.isdecimal x); [ | destruct H].
    rewrite <- E. apply (later_step _ _ x s'); [exact E | ].
    exact (many_later _ s' (Re.advance x s' c) c' eq_refl H).
  - now apply (many_later Str.isspace (Re.rest c)).
  - destruct (xorb _ _); [ | destruct H]. destruct H as [<- | []]. constructor.
  - apply in_flat_map in H as (d & Hd & H).
    eapply later_trans; [apply IHa, Hd | apply IHb, H].
  - apply in_app_or in H as [H | H]; [now apply IHa | now apply IHb].
  - unfold Py.append in H. apply in_app_or in H as [H | [<- | []]];
      [now apply IHa | constructor].
  - apply in_map_iff in H as (d & <- & H). apply IHa in H. exact H.
Qed.

Lemma Forall2_flat_map {A B : Type} (R : A -> A -> Prop) (S : B -> B -> Prop)
    (f g : A -> list B) (l l' : list A) :
  (forall x y, R x y -> Forall2 S (f x) (g y)) ->
  Forall2 R l l' -> Forall2 S (flat_map f l) (flat_map g l').
Proof.
  intros Hfg. induction 1 as [ | x y l l' Hxy _ IH]; cbn; [constructor | ].
  apply Forall2_app; [now apply Hfg | exact IH].
Qed.

Lemma Forall2_map {A B : Type} (R : A -> A -> Prop) (S : B -> B -> Prop)
    (f g : A -> B) (l l' : list A) :
  (forall x y, R x y -> S (f x) (g y)) ->
  Forall2 R l l' -> Forall2 S (map f l) (map g l').
Proof.
  intros Hfg. induction 1 as [ | x y l l' Hxy _ IH]; cbn; constructor; auto.
Qed.

Lemma lit_same_place (text s : string) (c d : Re.cursor) :
  same_place c d ->
  match Re.lit text s c, Re.lit text s d with
  | Some c', Some d' => same_place c' d'
  | None, None => True
  | _, _ => False
  end.
Proof.
  revert s c d. induction text as [ | p text IH]; intros s c d H; cbn; [exact H | ].
  destruct s as [ | x s']; [exact I | ].
  destruct (Ascii.eqb _ _); [ | exact I].
  apply IH. now split.
Qed.

Lemma Forall2_one {A : Type} (R : A -> A -> Prop) (x y : A) :
  R x y -> Forall2 R [x] [y].
Proof. intros H. constructor; [exact H | constructor]. Qed.

Lemma many_same_place (cls : ascii -> bool) (s : string) (c d : Re.cursor) :
  same_place c d -> Forall2 same_place (Re.many cls s c) (Re.many cls s d).
Proof.
  revert c d. induction s as [ | x s' IH]; intros c d H; cbn.
  - now apply Forall2_one.
  - destruct (cls x); [ | now apply Forall2_one].
    apply Forall2_app; [ | now apply Forall2_one].
    apply IH. now split.
Qed.

Lemma run_same_place (r : Re.t) (c d : Re.cursor) :
  same_place c d -> Forall2 same_place (Re.run r c) (Re.run r d).
Proof.
  revert c d. induction r as [text | | | | a IHa b IHb | a IHa b IHb | a IHa | a IHa];
    intros c d H; cbn [Re.run].
  - destruct H as [Hb Hr]. rewrite <- Hr.
    pose proof (lit_same_place text (Re.rest c) c d (conj Hb Hr)) as Hl.
    destruct (Re.lit text (Re.rest c) c), (Re.lit text (Re.rest c) d);
      try (now apply Forall2_one); try constructor; contradiction.
  - unfold Re.many1. destruct H as [Hb Hr]. rewrite <- Hr.
    destruct (Re.rest c) as [ | x s']; [constructor | ].
    destruct (Str.isdecimal x); [ | constructor].
    apply many_same_place. now split.
  - destruct H as [Hb Hr]. rewrite <- Hr. apply many_same_place. now split.
  - unfold Re.word_before, Re.word_after. destruct H as [Hb Hr].
    rewrite <- Hb, <- Hr.
    destruct (xorb _ _); [apply Forall2_one; now split | constructor].
  - eapply Forall2_flat_map; [ | apply IHa, H]. intros x y Hxy. now apply IHb.
  - apply Forall2_app; [now apply IHa | now apply IHb].
  - apply Forall2_app; [now apply IHa | now apply Forall2_one].
  - eapply Forall2_map; [ | apply IHa; destruct H; now split].
    intros x y [Hb Hr]. now split.
Qed.

Lemma run_elsewhere (r : Re.t) (c d : Re.cursor) :
  same_place c d -> Re.run r c <> [] -> Re.run r d <> [].
Proof.
  intros H Hc Hd. pose proof (run_same_place r c d H) as HF.
  rewrite Hd in HF. inversion HF as [E | ]. now apply Hc.
Qed.

Lemma search_at_complete (r : Re.t) b s b' s' :
  later b s b' s' ->
  Re.run r (Re.mk b' s' EmptyString []) <> [] ->
  Re.search_at r b s <> None.
Proof.
  induction 1 as [b s | b s x s0 b' s' E _ IH]; intros Hrun.
  - destruct s; cbn; destruct (Re.run r _); easy.
  - subst s. cbn. destruct (Re.run r (Re.mk b _ _ _)); [now apply IH | easy].
Qed.

Lemma search_at_sound (r : Re.t) b s m :
  Re.search_at r b s = Some m ->
  exists b' s', later b s b' s' /\ In m (Re.run r (Re.mk b' s' EmptyString [])).
Proof.
  revert b. induction s as [ | x s' IH]; intros b H; cbn in H.
  - destruct (Re.run r _) as [ | m' l] eqn:E; [discriminate | ].
    injection H as <-. exists b, EmptyString. split; [constructor | ].
    rewrite E. now left.
  - destruct (Re.run r (Re.mk b _ _ _)) as [ | m' l] eqn:E.
    + apply IH in H as (b' & s'' & Hl & Hin). exists b', s''. split; [ | exact Hin].
      now apply (later_step _ _ x s').
    + injection H as <-. exists b, (String x s'). split; [constructor | ].
      rewrite E. now left.
Qed.

(** A match of a pattern from a cursor is found by [search] from any
    position to its left. *)
Lemma search_finds (r : Re.t) (s : string) (c m : Re.cursor) :
  later None s (Re.before c) (Re.rest c) ->
  In m (Re.run r c) ->
  Re.search r s <> None.
Proof.
  intros Hl Hin. apply (search_at_complete r None s (Re.before c) (Re.rest c) Hl).
  apply (run_elsewhere r c); [now split | ]. intros E. now rewrite E in Hin.
Qed.

Lemma in_sized (units : Re.t) (c m : Re.cursor) :
  In m (Re.run (Re.sized units) c) <->
  exists c1 c2 c3,
    In c1 (Re.run (Re.Group Re.number) c) /\ In c2 (Re.run Re.Spaces c1)
    /\ In c3 (Re.run units c2) /\ In m (Re.run Re.Boundary c3).
Proof.
  unfold Re.sized. cbn [Re.run]. rewrite in_flat_map. split.
  - intros (c1 & H1 & H). apply in_flat_map in H as (c2 & H2 & H).
    apply in_flat_map in H as (c3 & H3 & H). now exists c1, c2, c3.
  - intros (c1 & c2 & c3 & H1 & H2 & H3 & H). exists c1. split; [exact H1 | ].
    apply in_flat_map. exists c2. split; [exact H2 | ].
    apply in_flat_map. now exists c3.
Qed.

Lemma sized_units (units units' : Re.t) (c m : Re.cursor) :
  (forall d d', In d' (Re.run units d) -> In d' (Re.run units' d)) ->
  In m (Re.run (Re.sized units) c) -> In m (Re.run (Re.sized units') c).
Proof.
  intros Hu H. apply in_sized in H as (c1 & c2 & c3 & H1 & H2 & H3 & H).
  apply in_sized. exists c1, c2, c3. auto.
Qed.

Lemma multi_pack_covered (s : string) (m : Re.cursor) :
  Re.search (Re.Seq (Re.Group Re.Digits)
               (Re.Seq Re.Spaces
                  (Re.Seq (Re.Lit "x")
                     (Re.Seq Re.Spaces (Re.sized (Re.words "g" ["gm"; "ml"]))))))
            s = Some m ->
  Re.search (Re.sized (Re.words "g" ["gm"; "gms"; "gram"; "grams"])) s <> None
  \/ Re.search (Re.sized (Re.words "ml" ["milliliter"; "milliliters"])) s <> None.
Proof.
  intros H. apply search_at_sound in H as (b' & s' & Hl & H).
  set (c0 := Re.mk b' s' EmptyString []) in H.
  change (Re.run (Re.Seq ?a ?b) c0) with (flat_map (Re.run b) (Re.run a c0)) in H.
  apply in_flat_map in H as (c1 & H1 & H).
  change (Re.run (Re.Seq ?a ?b) c1) with (flat_map (Re.run b) (Re.run a c1)) in H.
  apply in_flat_map in H as (c2 & H2 & H).
  change (Re.run (Re.Seq ?a ?b) c2) with (flat_map (Re.run b) (Re.run a c2)) in H.
  apply in_flat_map in H as (c3 & H3 & H).
  change (Re.run (Re.Seq ?a ?b) c3) with (flat_map (Re.run b) (Re.run a c3)) in H.
  apply in_flat_map in H as (c4 & H4 & H).
  assert (Hl4 : later None s (Re.before c4) (Re.rest c4)).
  { apply (later_trans _ _ _ _ _ _ Hl).
    apply run_later in H1, H2, H3, H4.
    change b' with (Re.before c0). change s' with (Re.rest c0).
    eauto using later_trans. }
  apply in_sized in H as (d1 & d2 & d3 & Hd1 & Hd2 & Hu & Hd).
  cbn [Re.words] in Hu.
  change (Re.run (Re.Alt ?a ?b) d2) with (Re.run a d2 ++ Re.run b d2)%list in Hu.
  apply in_app_or in Hu as [Hu | Hu].
  - left. apply (search_finds _ s c4 m Hl4). apply in_sized.
    exists d1, d2, d3. do 2 (split; [assumption | ]). split; [ | assumption].
    cbn [Re.words]. apply in_or_app. now left.
  - change (Re.run (Re.Alt ?a ?b) d2) with (Re.run a d2 ++ Re.run b d2)%list in Hu.
    apply in_app_or in Hu as [Hu | Hu].
    + left. apply (search_finds _ s c4 m Hl4). apply in_sized.
      exists d1, d2, d3. do 2 (split; [assumption | ]). split; [ | assumption].
      cbn [Re.words].
      change (Re.run (Re.Alt ?a ?b) d2) with (Re.run a d2 ++ Re.run b d2)%list.
      apply in_or_app. right.
      change (Re.run (Re.Alt ?a ?b) d2) with (Re.run a d2 ++ Re.run b d2)%list.
      apply in_or_app. now left.
    + right. apply (search_finds _ s c4 m Hl4). apply in_sized.
      exists d1, d2, d3. do 2 (split; [assumption | ]). split; [ | assumption].
      cbn [Re.words].
      change (Re.run (Re.Alt ?a ?b) d2) with (Re.run a d2 ++ Re.run b d2)%list.
      apply in_or_app. now left.
Qed.

(** X26. The multi-pack entry of the pattern table is never the one that
    reports: whenever its pattern matches a name, the pattern of grams or
    the pattern of millilitres, both earlier in the table, matches as well,
    so the loop over the table returns what the loop over the first eight
    entries returns (of "12 x 200g" it reads 200 g). *)
Theorem multi_pack_never_read (name_lower : string) :
  first_pattern size_patterns name_lower
  = first_pattern (take 8 size_patterns) name_lower
  /\ extract_enhanced_size "12 x 200g" = (200 * 1, "g", "weight", "high").
Proof.
  split; [ | reflexivity].
  unfold size_patterns. cbn [take first_pattern].
  do 8 match goal with
       | |- match ?found with _ => _ end = _ =>
           destruct found eqn:?; [reflexivity | ]
       end.
  match goal with
  | |- match ?found with _ => _ end = _ =>
      destruct found as [m | ] eqn:E9; [exfalso | reflexivity]
  end.
  apply multi_pack_covered in E9 as [H | H]; contradiction.
Qed.

(** ** What [extract_enhanced_size] returns *)

Lemma first_pattern_facts ps s v b u c :
  Forall sound_entry ps ->
  first_pattern ps s = Some (v, b, u, c) ->
  0 <= v /\ (c = "high" \/ c = "medium") /\ In (u, b) recognised_units.
Proof.
  induction 1 as [ | [[[pattern unit_type] multiplier] base_unit] ps [Hm Hu] _ IH];
    cbn [first_pattern]; [discriminate | ].
  destruct (Re.search pattern s) as [m | ]; [ | exact IH].
  destruct (String.eqb_spec unit_type "multi_pack") as [-> | Hne].
  - intros [= <- <- <- <-]. split; [ | split; [now left | now left]].
    apply Qmult_le_0_compat; apply float_nonneg.
  - intros [= <- <- <- <-]. split; [ | split].
    + apply Qmult_le_0_compat; [apply float_nonneg | exact Hm].
    + destruct (_ <? _)%nat; [now left | now right].
    + now destruct Hu.
Qed.

Lemma size_patterns_sound : Forall sound_entry size_patterns.
Proof.
  unfold size_patterns.
  repeat (constructor;
          [unfold sound_entry; split; [unfold Qle; cbn; lia | cbn; tauto] | ]).
  constructor.
Qed.

Lemma size_patterns_lead :
  Forall (fun entry => leads_with_digit (fst (fst (fst entry))) = true) size_patterns.
Proof. repeat constructor. Qed.

Lemma many_nonempty (cls : ascii -> bool) (s : string) (c : Re.cursor) :
  Re.many cls s c <> [].
Proof.
  destruct s as [ | x s']; cbn; [easy | ].
  destruct (cls x); [ | easy]. unfold Py.append.
  intros H. now apply app_eq_nil in H as [_ H].
Qed.

Lemma leads_run (r : Re.t) (c : Re.cursor) :
  leads_with_digit r = true -> Re.run r c <> [] ->
  exists x s', Re.rest c = String x s' /\ Str.isdecimal x = true.
Proof.
  revert c. induction r as [text | | | | a IHa b IHb | a IHa b IHb | a IHa | a IHa];
    intros c Hl Hrun; cbn [leads_with_digit] in Hl; try discriminate;
    cbn [Re.run] in Hrun.
  - unfold Re.many1 in Hrun. destruct (Re.rest c) as [ | x s']; [easy | ].
    destruct (Str.isdecimal x) eqn:E; [eauto | easy].
  - apply (IHa c Hl). intros E. now rewrite E in Hrun.
  - apply andb_true_iff in Hl as [Hla Hlb].
    destruct (Re.run a c) eqn:E; [ | apply (IHa c Hla); now rewrite E].
    apply (IHb c Hlb). exact Hrun.
  - apply (IHa (Re.open c) Hl). intros E. now rewrite E in Hrun.
Qed.

Lemma later_no_digit b s b' s' :
  later b s b' s' -> no_digit s = true -> no_digit s' = true.
Proof.
  unfold no_digit. induction 1 as [ | b s x s0 b' s' E _ IH]; [easy | ].
  subst s. cbn [all_chars]. intros H. apply andb_true_iff in H as [_ H]. auto.
Qed.

Lemma search_needs_digit (r : Re.t) (s : string) :
  leads_with_digit r = true -> no_digit s = true -> Re.search r s = None.
Proof.
  intros Hl Hn. destruct (Re.search r s) as [m | ] eqn:E; [exfalso | reflexivity].
  apply search_at_sound in E as (b' & s' & Hlater & Hin).
  apply later_no_digit in Hlater; [ | exact Hn].
  destruct (leads_run r (Re.mk b' s' EmptyString []) Hl) as (x & s'' & Hs & Hx).
  { intros E. now rewrite E in Hin. }
  cbn in Hs. subst s'. unfold no_digit in Hlater. cbn in Hlater.
  rewrite Hx in Hlater. discriminate.
Qed.

Lemma first_pattern_needs_digit ps s :
  Forall (fun entry => leads_with_digit (fst (fst (fst entry))) = true) ps ->
  no_digit s = true -> first_pattern ps s = None.
Proof.
  intros Hps Hn.
  induction Hps as [ | [[[pattern unit_type] multiplier] base_unit] ps Hl _ IH];
    cbn [first_pattern]; [reflexivity | ].
  cbn in Hl. now rewrite (search_needs_digit pattern s Hl Hn).
Qed.

Lemma digit_position (s : string) b :
  no_digit s = false ->
  exists b' x s', later b s b' (String x s') /\ Str.isdecimal x = true.
Proof.
  unfold no_digit. revert b. induction s as [ | x s IH]; intros b H;
    cbn [all_chars] in H; [discriminate | ].
  destruct (Str.isdecimal x) eqn:E.
  - exists b, x, s. split; [constructor | exact E].
  - cbn in H. destruct (IH (Some x) H) as (b' & y & s' & Hl & Hy).
    exists b', y, s'. split; [ | exact Hy]. now apply (later_step _ _ x s).
Qed.

Lemma number_found (s : string) :
  no_digit s = false -> Re.search (Re.Group Re.number) s <> None.
Proof.
  intros H. destruct (digit_position s None H) as (b' & x & s' & Hl & Hx).
  apply (search_at_complete _ _ _ _ _ Hl).
  cbn [Re.run Re.number]. unfold Re.many1, Re.open. cbn [Re.rest]. rewrite Hx.
  intros E. apply map_eq_nil in E.
  destruct (Re.many Str.isdecimal s' _) as [ | d l] eqn:Em;
    [now apply many_nonempty in Em | ].
  cbn [flat_map] in E. apply app_eq_nil in E as [E _].
  unfold Py.append in E. now apply app_eq_nil in E as [_ E].
Qed.

Lemma isdecimal_lower_char (c : ascii) :
  Str.isdecimal (Str.lower_char c) = Str.isdecimal c.
Proof. destruct c as [[] [] [] [] [] [] [] []]; reflexivity. Qed.

Lemma no_digit_lower (name : string) : no_digit (Str.lower name) = no_digit name.
Proof.
  unfold no_digit. induction name as [ | c s IH]; cbn [Str.lower all_chars];
    [reflexivity | ].
  now rewrite isdecimal_lower_char, IH.
Qed.

Lemma extract_enhanced_size_facts (name : string) v b u c :
  extract_enhanced_size name = (v, b, u, c) ->
  0 <= v
  /\ if no_digit name
     then (v, b, u, c) = (0, "unknown", "unknown", "unknown")
     else (c = "low" /\ u = "unknown" /\ b = "unknown")
          \/ ((c = "high" \/ c = "medium") /\ In (u, b) recognised_units).
Proof.
  unfold extract_enhanced_size. rewrite <- (no_digit_lower name).
  set (name_lower := Str.lower name).
  destruct (no_digit name_lower) eqn:En.
  - rewrite (first_pattern_needs_digit _ _ size_patterns_lead En).
    rewrite (search_needs_digit (Re.Group Re.number) _ eq_refl En). intros [= <- <- <- <-].
    split; [lra | reflexivity].
  - destruct (first_pattern size_patterns name_lower) as [[[[v' b'] u'] c'] | ] eqn:E.
    + intros [= -> -> -> ->].
      destruct (first_pattern_facts _ _ _ _ _ _ size_patterns_sound E) as (Hv & Hc & Hu).
      split; [exact Hv | now right].
    + pose proof (number_found name_lower En) as Hf.
      destruct (Re.search (Re.Group Re.number) name_lower) as [m | ]; [ | easy].
      intros [= <- <- <- <-]. split; [apply float_nonneg | now left].
Qed.

(** X27. The size read off a name.  The value is never negative.  A name
    without a decimal digit has no size: value 0 and "unknown" throughout.
    Every other name has one: either no pattern of the table matches and the
    first number is reported with confidence "low" and unknown units, or the
    confidence is "high" or "medium" and the units are grams, millilitres or
    pieces. *)
Theorem extract_enhanced_size_cases (name : string) :
  let '(v, b, u, c) := extract_enhanced_size name in
  0 <= v
  /\ if no_digit name
     then (v, b, u, c) = (0, "unknown", "unknown", "unknown")
     else (c = "low" /\ u = "unknown" /\ b = "unknown")
          \/ ((c = "high" \/ c = "medium") /\ In (u, b) recognised_units).
Proof.
  destruct (extract_enhanced_size name) as [[[v b] u] c] eqn:E.
  exact (extract_enhanced_size_facts name v b u c E).
Qed.

(** ** Prices per unit *)

Lemma Qle_bool_false (x y : Q) : Qle_bool x y = false -> y < x.
Proof.
  intros H. apply Qnot_le_lt. intros Hle. apply Qle_bool_iff in Hle. congruence.
Qed.

Lemma calculate_normalized_price_facts (price : Q) (name : string) v b u c :
  extract_enhanced_size name = (v, b, u, c) ->
  let n := calculate_normalized_price price name in
  (NormalizedPrice.price_per_100g n, NormalizedPrice.price_per_lb n,
   NormalizedPrice.price_per_liter n, NormalizedPrice.price_per_unit n)
  = price_fields price v u
  /\ NormalizedPrice.original_price n = price
  /\ NormalizedPrice.original_size n = name
  /\ NormalizedPrice.confidence n = c.
Proof.
  intros E. pose proof (extract_enhanced_size_facts name v b u c E) as [Hv Hcases].
  unfold calculate_normalized_price, price_fields. rewrite E. cbv zeta.
  destruct (no_digit name).
  - injection Hcases as -> -> -> ->. cbn. auto.
  - destruct (Qle_bool v 0) eqn:Ev; cbn [orb].
    { cbn. auto. }
    assert (Hz : Qeq_bool v 0 = false).
    { apply Qle_bool_false in Ev. destruct (Qeq_bool v 0) eqn:Ez; [ | reflexivity].
      apply Qeq_bool_iff in Ez. lra. }
    unfold truediv. rewrite Hz.
    destruct Hcases as [(-> & -> & ->) | [Hc Hu]]; [cbn; auto | ].
    assert (Hk : String.eqb c "unknown" = false) by (destruct Hc as [-> | ->]; reflexivity).
    rewrite Hk.
    destruct Hu as [[= <- <-] | [[= <- <-] | [[= <- <-] | []]]]; cbn; auto.
Qed.

(** X28. The normalized price keeps the price, the name and the confidence
    of the size, and its price fields depend on the value and the unit type
    of the size alone: none for a value of 0 or an unknown unit type, the
    price per 100 g and per pound for a weight, per litre for a volume, per
    piece for a count.  No division raises, so the handler of the [try]
    block never runs. *)
Theorem calculate_normalized_price_fields (price : Q) (name : string) :
  let '(v, _, u, c) := extract_enhanced_size name in
  let n := calculate_normalized_price price name in
  (NormalizedPrice.price_per_100g n, NormalizedPrice.price_per_lb n,
   NormalizedPrice.price_per_liter n, NormalizedPrice.price_per_unit n)
  = price_fields price v u
  /\ NormalizedPrice.original_price n = price
  /\ NormalizedPrice.original_size n = name
  /\ NormalizedPrice.confidence n = c.
Proof.
  destruct (extract_enhanced_size name) as [[[v b] u] c] eqn:E.
  exact (calculate_normalized_price_facts price name v b u c E).
Qed.

Lemma priced_confident (price : Q) (name : string) :
  let n := calculate_normalized_price price name in
  float_truthy (NormalizedPrice.price_per_100g n)
  || float_truthy (NormalizedPrice.price_per_liter n)
  || float_truthy (NormalizedPrice.price_per_unit n) = true ->
  NormalizedPrice.confidence n = "high" \/ NormalizedPrice.confidence n = "medium".
Proof.
  destruct (extract_enhanced_size name) as [[[v b] u] c] eqn:E.
  destruct (calculate_normalized_price_facts price name v b u c E)
    as (Hf & _ & _ & Hc).
  destruct (extract_enhanced_size_facts name v b u c E) as [_ Hcases].
  cbv zeta. rewrite Hc.
  set (n := calculate_normalized_price price name) in *.
  unfold price_fields in Hf.
  destruct (no_digit name).
  - injection Hcases as -> -> -> ->. cbn in Hf. injection Hf as -> _ -> ->. discriminate.
  - destruct Hcases as [(-> & -> & ->) | [Hc' _]]; [ | intros _; exact Hc'].
    destruct (Qle_bool v 0); cbn in Hf; injection Hf as -> _ -> ->; discriminate.
Qed.

Lemma comparison_method_confident p1 n1 p2 n2 found :
  comparison_method (calculate_normalized_price p1 n1)
                    (calculate_normalized_price p2 n2) = Some found ->
  let size_confidence :=
    min_str (NormalizedPrice.confidence (calculate_normalized_price p1 n1))
            (NormalizedPrice.confidence (calculate_normalized_price p2 n2)) in
  size_confidence = "high" \/ size_confidence = "medium".
Proof.
  intros H.
  assert (H1 : float_truthy (NormalizedPrice.price_per_100g (calculate_normalized_price p1 n1))
               || float_truthy (NormalizedPrice.price_per_liter (calculate_normalized_price p1 n1))
               || float_truthy (NormalizedPrice.price_per_unit (calculate_normalized_price p1 n1))
               = true
               /\ float_truthy (NormalizedPrice.price_per_100g (calculate_normalized_price p2 n2))
               || float_truthy (NormalizedPrice.price_per_liter (calculate_normalized_price p2 n2))
               || float_truthy (NormalizedPrice.price_per_unit (calculate_normalized_price p2 n2))
               = true).
  { unfold comparison_method in H. cbv zeta in H.
    repeat match type of H with
           | (if ?b then _ else _) = _ => destruct b eqn:?
           end; try discriminate;
    repeat match goal with
           | Hb : _ && _ = true |- _ => apply andb_true_iff in Hb as [? ?]
           end;
    split; repeat (apply orb_true_iff; first [now right | left]); assumption. }
  destruct H1 as [H1 H2]. apply priced_confident in H1, H2. cbv zeta.
  destruct H1 as [-> | ->], H2 as [-> | ->]; cbn; auto.
Qed.

Lemma compare_normalized_prices_confident primary competitor pc :
  compare_normalized_prices primary competitor = Ok pc ->
  Comparison.can_compare_normalized pc = true ->
  Comparison.size_confidence pc = "high" \/ Comparison.size_confidence pc = "medium".
Proof.
  unfold compare_normalized_prices, getitem_price, getitem_name.
  destruct (p_price primary) as [p1 | ]; [ | discriminate].
  destruct (p_name primary) as [n1 | ]; [ | discriminate].
  destruct (p_price competitor) as [p2 | ]; [ | discriminate].
  destruct (p_name competitor) as [n2 | ]; [ | discriminate]. cbn [bind].
  destruct (comparison_method _ _) as [[[[ty pu] cu] label] | ] eqn:E.
  - pose proof (comparison_method_confident _ _ _ _ _ E) as Hc. cbv zeta in Hc.
    destruct (Py.Qltb 0 pu).
    + destruct (truediv _ pu); cbn [bind]; [ | discriminate].
      intros [= <-] _. exact Hc.
    + cbn [bind]. intros [= <-] _. exact Hc.
  - intros [= <-]. discriminate.
Qed.

(** X29. The issue "Low confidence in size extraction" is never reported
    for the comparison of the two products that are validated: the
    validation raises it only for prices that can be compared per unit, and
    those come from sizes read with confidence "high" or "medium". *)
Theorem low_size_confidence_never_reported (B : Backend)
    (primary competitor : Product) (m : ProductMatch.t) (pc : Comparison.t)
    (valid : bool) (issues : list string) :
  compare_normalized_prices primary competitor = Ok pc ->
  _validate_match_with_pricing B primary competitor m pc = Ok (valid, issues) ->
  ~ In "Low confidence in size extraction" issues.
Proof.
  intros Hc Hv Hin. unfold _validate_match_with_pricing in Hv.
  pose proof (compare_normalized_prices_confident _ _ _ Hc) as Hconf.
  assert (Hlow : Comparison.can_compare_normalized pc = true ->
                 String.eqb (Comparison.size_confidence pc) "low" = false)
    by (intros H; destruct (Hconf H) as [-> | ->]; reflexivity).
  clear Hc Hconf.
  match type of Hv with
  | bind ?first _ = _ => destruct first as [issues1 | ] eqn:E1; [ | discriminate]
  end.
  cbn [bind] in Hv.
  match type of Hv with
  | bind ?second _ = _ => destruct second as [issues2 | ] eqn:E2; [ | discriminate]
  end.
  cbn [bind] in Hv. injection Hv as _ <-.
  assert (H1 : ~ In "Low confidence in size extraction" issues1).
  { destruct (Py.Qltb (ProductMatch.confidence m) 0.7);
      [ | injection E1 as <-; intros []].
    destruct (getitem_name primary); [ | discriminate].
    destruct (getitem_name competitor); [ | discriminate]. cbn [bind] in E1.
    destruct (_calculate_name_similarity _ _) as [similarity | ]; [ | discriminate].
    cbn [bind] in E1.
    destruct (Py.Qltb similarity 0.3); injection E1 as <-; [ | intros []].
    intros [H | []]. cbn in H. discriminate H. }
  assert (H2 : ~ In "Low confidence in size extraction" issues2).
  { destruct (Comparison.can_compare_normalized pc).
    - rewrite (Hlow eq_refl) in E2. injection E2 as <-.
      destruct (Py.Qltb 500 _); [ | exact H1].
      unfold Py.append. intros H. apply in_app_or in H as [H | [H | []]];
        [now apply H1 | ]. cbn in H. discriminate H.
    - destruct (getitem_price primary) as [primary_price | ]; [ | discriminate].
      cbn [bind] in E2.
      destruct (Py.Qltb 0 primary_price); [ | now injection E2 as <-].
      destruct (getitem_price competitor) as [competitor_price | ]; [ | discriminate].
      cbn [bind] in E2.
      destruct (Py.Qltb 0 competitor_price); [ | now injection E2 as <-].
      destruct (truediv _ _) as [price_ratio | ]; [ | discriminate].
      cbn [bind] in E2.
      destruct (Py.Qltb 10 price_ratio); injection E2 as <-; [ | exact H1].
      unfold Py.append. intros H. apply in_app_or in H as [H | [H | []]];
        [now apply H1 | ]. cbn in H. discriminate H. }
  destruct (_ && _); [ | now apply H2].
  unfold Py.append in Hin. apply in_app_or in Hin as [H | [H | []]];
    [now apply H2 | discriminate H].
Qed.

Lemma low_size_confidence_never_reported_witness :
  ~ In "Low confidence in size extraction" ["Size/quantity mismatch detected"].
Proof.
  eapply (low_size_confidence_never_reported sample_backend
            (product 1 "Rice 1kg" (Some 5)) (product 2 "Rice 500 g" (Some 3))
            (ProductMatch.mk 1 2 0.72 "similar" 0.3 [])).
  - reflexivity.
  - vm_compute. reflexivity.
Defined.

Lemma min_str_comm (a b : string) : min_str a b = min_str b a.
Proof.
  unfold min_str, String.ltb. rewrite (String.compare_antisym a b).
  destruct (String.compare b a) eqn:E; cbn; try reflexivity.
  now apply String.compare_eq_iff in E.
Qed.

Lemma comparison_method_swap (a b : NormalizedPrice.t) :
  comparison_method b a
  = match comparison_method a b with
    | Some (ty, pu, cu, label) => Some (ty, cu, pu, label)
    | None => None
    end.
Proof.
  unfold comparison_method. cbv zeta.
  rewrite (andb_comm (negb (String.eqb (NormalizedPrice.confidence b) "unknown"))).
  rewrite (andb_comm (float_truthy (NormalizedPrice.price_per_100g b))).
  rewrite (andb_comm (float_truthy (NormalizedPrice.price_per_liter b))).
  rewrite (andb_comm (float_truthy (NormalizedPrice.price_per_unit b))).
  repeat match goal with
         | |- context [if ?c then _ else _] => destruct c
         end; reflexivity.
Qed.

Lemma savings_pct_returns (savings unit_price : Q) :
  exists pct,
    (if Py.Qltb 0 unit_price
     then do share <- truediv savings unit_price; Ok (share * 100)
     else Ok 0) = Ok pct.
Proof.
  destruct (Py.Qltb 0 unit_price) eqn:E; [ | now exists 0].
  apply Qltb_lt in E. rewrite truediv_ok by lra. cbn [bind]. eauto.
Qed.

(** X30. Comparing the two products the other way round succeeds as well,
    finds the same kind of comparison, the same size confidence and the same
    answer to whether the prices can be compared per unit, exchanges the two
    per-unit prices and negates the saving. *)
Theorem compare_normalized_prices_swap (primary competitor : Product)
    (pc : Comparison.t) :
  compare_normalized_prices primary competitor = Ok pc ->
  exists pc',
    compare_normalized_prices competitor primary = Ok pc'
    /\ Comparison.can_compare_normalized pc' = Comparison.can_compare_normalized pc
    /\ Comparison.comparison_type pc' = Comparison.comparison_type pc
    /\ Comparison.size_confidence pc' = Comparison.size_confidence pc
    /\ Comparison.primary_per_unit pc' = Comparison.competitor_per_unit pc
    /\ Comparison.competitor_per_unit pc' = Comparison.primary_per_unit pc
    /\ Comparison.normalized_savings pc' == - Comparison.normalized_savings pc.
Proof.
  unfold compare_normalized_prices, getitem_price, getitem_name.
  destruct (p_price primary) as [p1 | ]; [ | discriminate].
  destruct (p_name primary) as [n1 | ]; [ | discriminate].
  destruct (p_price competitor) as [p2 | ]; [ | discriminate].
  destruct (p_name competitor) as [n2 | ]; [ | discriminate]. cbn [bind].
  rewrite (comparison_method_swap (calculate_normalized_price p1 n1)
             (calculate_normalized_price p2 n2)).
  rewrite (min_str_comm (NormalizedPrice.confidence (calculate_normalized_price p2 n2))).
  destruct (comparison_method _ _) as [[[[ty pu] cu] label] | ].
  - destruct (savings_pct_returns (cu - pu) pu) as [pct ->].
    destruct (savings_pct_returns (pu - cu) cu) as [pct' ->]. cbn [bind].
    intros [= <-]. eexists. split; [reflexivity | ]. cbn.
    repeat (split; [reflexivity | ]). ring.
  - intros [= <-]. eexists. split; [reflexivity | ]. cbn.
    repeat (split; [reflexivity | ]). ring.
Qed.

Lemma compare_normalized_prices_swap_witness :
  exists pc',
    compare_normalized_prices (product 2 "Rice 500 g" (Some 3))
                              (product 1 "Rice 1kg" (Some 5)) = Ok pc'
    /\ Comparison.can_compare_normalized pc' = true
    /\ Comparison.comparison_type pc' = "per_100g"
    /\ Comparison.size_confidence pc' = "high"
    /\ Comparison.primary_per_unit pc' = Some (3 / (500 * 1) * 100)
    /\ Comparison.competitor_per_unit pc' = Some (5 / (1 * 1000) * 100)
    /\ Comparison.normalized_savings pc'
       == - (3 / (500 * 1) * 100 - 5 / (1 * 1000) * 100).
Proof.
  apply (compare_normalized_prices_swap (product 1 "Rice 1kg" (Some 5))
           (product 2 "Rice 500 g" (Some 3))
           (Comparison.mk "Rice 1kg" "Rice 500 g" 5 3
              (calculate_normalized_price 5 "Rice 1kg")
              (calculate_normalized_price 3 "Rice 500 g")
              "per_100g" (3 / (500 * 1) * 100 - 5 / (1 * 1000) * 100)
              ((3 / (500 * 1) * 100 - 5 / (1 * 1000) * 100)
               / (5 / (1 * 1000) * 100) * 100)
              "high" true (Some (5 / (1 * 1000) * 100))
              (Some (3 / (500 * 1) * 100)) (Some "$/100g"))).
  reflexivity.
Defined.

(** ** The basic validation *)

Lemma quotient_zero (a b : nat) :
  b <> 0%nat ->
  Qeq_bool (inject_Z (Z.of_nat a) / inject_Z (Z.of_nat b)) 0 = (a =? 0)%nat.
Proof.
  intros Hb.
  assert (Hd : 0 < inject_Z (Z.of_nat b))
    by (change 0 with (inject_Z 0); rewrite <- Zlt_Qlt; lia).
  destruct (Nat.eqb_spec a 0) as [-> | Ha].
  - apply Qeq_bool_iff. cbn [Z.of_nat]. unfold Qdiv. ring.
  - destruct (Qeq_bool _ 0) eqn:E; [exfalso | reflexivity].
    apply Qeq_bool_iff in E.
    assert (Hn : 0 < inject_Z (Z.of_nat a))
      by (change 0 with (inject_Z 0); rewrite <- Zlt_Qlt; lia).
    assert (Hq : 0 < inject_Z (Z.of_nat a) / inject_Z (Z.of_nat b))
      by (apply Qlt_shift_div_l; lra).
    lra.
Qed.

(** X25. The basic validation and the word-overlap similarity agree: for
    two products that carry a name, the similarity of the names is returned
    and the match is rejected exactly when that similarity is 0 and the
    confidence of the match is below 0.8. *)
Theorem _is_valid_match_jaccard (primary competitor : Product)
    (m : ProductMatch.t) (name1 name2 : string) :
  p_name primary = Some name1 ->
  p_name competitor = Some name2 ->
  exists similarity,
    _calculate_name_similarity name1 name2 = Ok similarity
    /\ _is_valid_match primary competitor m
       = Ok (negb (Qeq_bool similarity 0
                   && Py.Qltb (ProductMatch.confidence m) 0.8)).
Proof.
  intros H1 H2. unfold _is_valid_match, _calculate_name_similarity, getitem_name.
  rewrite H1, H2. cbn [bind].
  set (words1 := raw_words name1). set (words2 := raw_words name2).
  destruct (bool_decide (words1 = ∅)) eqn:E1.
  - apply bool_decide_eq_true in E1. exists 0.0. split; [reflexivity | ].
    rewrite E1, (left_absorb_L ∅ (∩)), size_empty.
    cbn [Nat.eqb andb]. change (Qeq_bool 0.0 0) with true. cbn [andb].
    now destruct (Py.Qltb _ _).
  - destruct (bool_decide (words2 = ∅)) eqn:E2.
    + apply bool_decide_eq_true in E2. exists 0.0. split; [reflexivity | ].
      rewrite E2, (right_absorb_L ∅ (∩)), size_empty.
      cbn [Nat.eqb andb]. change (Qeq_bool 0.0 0) with true. cbn [andb].
      now destruct (Py.Qltb _ _).
    + cbn [orb]. apply bool_decide_eq_false in E1.
      assert (Hu : size (words1 ∪ words2) <> 0%nat).
      { intros H. apply size_empty_iff, leibniz_equiv, empty_union_L in H.
        now apply E1. }
      rewrite truediv_ok by now apply inject_nat_nonzero.
      eexists. split; [reflexivity | ].
      rewrite (quotient_zero _ _ Hu).
      now destruct (size (words1 ∩ words2) =? 0)%nat, (Py.Qltb _ _).
Qed.

Lemma _is_valid_match_jaccard_witness :
  exists similarity,
    _calculate_name_similarity "Tata Salt 1kg" "Basmati Rice" = Ok similarity
    /\ _is_valid_match (product 1 "Tata Salt 1kg" None)
         (product 2 "Basmati Rice" None)
         (ProductMatch.mk 1 2 0.78 "similar" 0.3 [])
       = Ok (negb (Qeq_bool similarity 0 && Py.Qltb 0.78 0.8)).
Proof.
  apply (_is_valid_match_jaccard (product 1 "Tata Salt 1kg" None)
           (product 2 "Basmati Rice" None)
           (ProductMatch.mk 1 2 0.78 "similar" 0.3 [])); reflexivity.
Defined.
